(** * Api::Statistics (api/api_statistics.cpp): request tracking, zoom queue,
      paginated public forwards, message statistics and boosts.

    The file first embeds the code of api_statistics.cpp, one module per
    class or group of free functions, and then states and proves the
    properties of that code. *)

From Stdlib Require Import ZArith QArith Qpower Lia Bool String List Sorted
  SpecFloat.
From stdpp Require Import gmap.
Import ListNotations.

Local Open Scope Z_scope.

(** ** Decoded values: StatisticalValueFromTL and StatisticalGraphFromTL *)

Module Values.

(** The TL type double is an IEEE 754 binary64 number: [spec_float] with a
    53-bit mantissa and exponents below 1024, and the operators of C++ on
    double are the correctly rounded operations on it (round to nearest,
    ties to even). *)
Definition float64 := spec_float.

Definition f64sub : float64 → float64 → float64 := SFsub 53 1024.
Definition f64div : float64 → float64 → float64 := SFdiv 53 1024.
Definition f64mul : float64 → float64 → float64 := SFmul 53 1024.
Definition f64abs : float64 → float64 := SFabs.

(** The double nearest to an integer, for literals and conversions. *)
Definition f64_of_Z (n : Z) : float64 := binary_normalize 53 1024 n 0 false.

Definition zero64 : float64 := S754_zero false.
Definition hundred : float64 := Eval vm_compute in f64_of_Z 100.

(** A double used as a condition: true unless it equals zero (of either
    sign); NaN counts as true. *)
Definition f64_to_bool (x : float64) : bool := negb (SFeqb x zero64).

(** Zero or a finite number: neither an infinity nor NaN. *)
Definition f64finite (x : float64) : bool :=
  match x with
  | S754_zero _ | S754_finite _ _ _ => true
  | _ => false
  end.

(** Anything but NaN. *)
Definition f64number (x : float64) : bool :=
  match x with
  | S754_nan => false
  | _ => true
  end.

(** The rational number a double denotes (0 for the infinities and NaN,
    which denote none). *)
Definition f64_to_Q (x : float64) : Q :=
  match x with
  | S754_finite s m e =>
      ((if s then -1 else 1) * inject_Z (Z.pos m) * 2 ^ e)%Q
  | _ => 0%Q
  end.

(** A double of sign [sx] that denotes at most the integer [B] in absolute
    value: a zero, or a mantissa m and an exponent e ≤ 0 with
    m ≤ B * 2^(-e). *)
Definition atMost (sx : bool) (B : Z) (x : float64) : Prop :=
  match x with
  | S754_zero s => s = sx
  | S754_finite s m e => s = sx ∧ e ≤ 0 ∧ Z.pos m ≤ B * 2 ^ (- e)
  | _ => False
  end.

(** The double that denotes a * 2^E exactly, for a > 0 of at most 53
    bits: the mantissa is a shifted to 53 bits. *)
Definition canon (s : bool) (a E : Z) : float64 :=
  S754_finite s (Z.to_pos (a * 2 ^ (53 - Zdigits2 a))) (E + Zdigits2 a - 53).

(** The rounding record of a shifted mantissa lost a bit that was set. *)
Definition inexact (mrs : shr_record) : bool := shr_r mrs || shr_s mrs.

(** A C++ int has 32 bits.  The sum and the difference of two ints are
    taken modulo 2^32 into the range of an int, as the build computes them
    (the language itself leaves an overflow open). *)
Definition int_wrap (z : Z) : Z := (z + 2 ^ 31) mod 2 ^ 32 - 2 ^ 31.

Definition int_add (a b : Z) : Z := int_wrap (a + b).
Definition int_sub (a b : Z) : Z := int_wrap (a - b).

(** statsAbsValueAndPrev current:double previous:double *)
Record MTPStatsAbsValueAndPrev := {
  vcurrent : float64;
  vprevious : float64
}.

Record StatisticalValue := {
  value : float64;
  previousValue : float64;
  growthRatePercentage : float64
}.

(** [previous ? std::abs((current - previous) / float64(previous) * 100.) : 0] *)
Definition StatisticalValueFromTL (tl : MTPStatsAbsValueAndPrev)
  : StatisticalValue :=
  let current := vcurrent tl in
  let previous := vprevious tl in
  {| value := current;
     previousValue := previous;
     growthRatePercentage :=
       if f64_to_bool previous
       then f64abs (f64mul (f64div (f64sub current previous) previous) hundred)
       else zero64 |}.

(** The formula of the data model, read literally:
    0 when previous = 0, else |current - previous| / previous * 100. *)
Definition growthRateAsSpecified (current previous : float64) : float64 :=
  if f64_to_bool previous
  then f64mul (f64div (f64abs (f64sub current previous)) previous) hundred
  else zero64.

(** The three shapes of MTPStatsGraph. *)
Inductive MTPStatsGraph :=
| statsGraph (json : string) (zoom_token : option string)
| statsGraphAsync (token : string)
| statsGraphError (error : string).

(** Modelled from the spec: Statistic::StatisticalChartFromJSON and the
    type Data::StatisticalChart live in statistics/statistics_data_deserialize
    and data/data_statistics, which are not part of this file.  The spec
    only speaks of "decoded chart data": a decoded chart is kept as the
    JSON text it was decoded from, and [NoChart] is the default-constructed
    chart of a graph that did not go through the decoder. *)
Inductive StatisticalChart :=
| NoChart
| DecodedChart (json : string).

Definition StatisticalChartFromJSON (json : string) : StatisticalChart :=
  DecodedChart json.

(** Data::StatisticalGraph: chart, zoomToken (QByteArray), error (QString). *)
Record StatisticalGraph := {
  chart : StatisticalChart;
  zoomToken : string;
  error : string
}.

(** The value-initialised graph, [Data::StatisticalGraph{}]. *)
Definition emptyGraph : StatisticalGraph :=
  {| chart := NoChart; zoomToken := ""; error := "" |}.

Definition StatisticalGraphFromTL (tl : MTPStatsGraph) : StatisticalGraph :=
  match tl with
  | statsGraph json zoom_token =>
      let zoomToken :=
        match zoom_token with
        | Some t => t
        | None => ""%string
        end in
      {| chart := StatisticalChartFromJSON json;
         zoomToken := zoomToken;
         error := "" |}
  | statsGraphAsync token =>
      {| chart := NoChart; zoomToken := token; error := "" |}
  | statsGraphError err =>
      {| chart := NoChart; zoomToken := ""; error := err |}
  end.





End Values.

(** ** StatisticsRequestSender: per-shard tracking of outstanding requests *)

Module Sender.

(** Shard (data-center) ids and request ids are machine integers. *)
Definition DcId := Z.
Definition RequestId := Z.

(** [constexpr auto kCheckRequestsTimer = 10 * crl::time(1000)] *)
Definition kCheckRequestsTimer : Z := 10 * 1000.

(** What the sender does to its collaborators: the registration ledger of
    the session's ApiWrap ([registerStatsRequest], [unregisterStatsRequest])
    and its own [base::Timer] ([callEach], [cancel]). *)
Inductive Effect :=
| RegisterStatsRequest (dcId : DcId) (id : RequestId)
| UnregisterStatsRequest (dcId : DcId) (id : RequestId)
| TimerCallEach (interval : Z)
| TimerCancel.

(** [_requests] maps a shard to the set of request ids sent to it;
    [_timerActive] is [_timer.isActive()]. *)
Record State := {
  _requests : gmap Z (gset Z);
  _timerActive : bool
}.

(** A freshly constructed sender. *)
Definition init : State := {| _requests := ∅; _timerActive := false |}.

(** The pair (dcId, id) is in the tracked set. *)
Definition tracked (s : State) (dcId : DcId) (id : RequestId) : Prop :=
  ∃ ids, _requests s !! dcId = Some ids ∧ id ∈ ids.

(** ~StatisticsRequestSender: every tracked id is unregistered.  (Here and
    in the sweep the shards and ids are visited in the enumeration order of
    the map; nothing below depends on that order.) *)
Definition destroy (s : State) : list Effect :=
  map_to_list (_requests s) ≫= λ '(dcId, ids),
    UnregisterStatsRequest dcId <$> elements ids.

(** The inner loop of checkRequests over the ids of one shard: an id the
    transport still reports as pending stays, any other one is unregistered
    and erased. *)
Definition checkShard (pending : RequestId → bool) (dcId : DcId)
    (ids : gset Z) : gset Z * list Effect :=
  (filter (λ id, pending id = true) ids,
   UnregisterStatsRequest dcId <$>
     filter (λ id, pending id = false) (elements ids)).

(** The outer loop: a shard whose set became empty is erased. *)
Definition keepShard (pending : RequestId → bool) (ids : gset Z)
  : option (gset Z) :=
  let kept := filter (λ id, pending id = true) ids in
  if decide (kept = ∅) then None else Some kept.

(** The unregister calls of a sweep over all shards. *)
Definition unregisteredBy (pending : RequestId → bool) (s : State)
  : list Effect :=
  map_to_list (_requests s) ≫= λ '(dcId, ids),
    snd (checkShard pending dcId ids).

(** StatisticsRequestSender::checkRequests, with [pending] the answer of
    [_api.pending] during the sweep. *)
Definition checkRequests (pending : RequestId → bool) (s : State)
  : State * list Effect :=
  let unregistered := unregisteredBy pending s in
  let requests := omap (keepShard pending) (_requests s) in
  if decide (requests = ∅)
  then ({| _requests := requests; _timerActive := false |},
        unregistered ++ [TimerCancel])
  else ({| _requests := requests; _timerActive := _timerActive s |},
        unregistered).

(** The request as handed to the transport: [.toDC(...)] and
    [.overrideId(id)]. *)
Record SentRequest := {
  toDC : Z;
  overrideId : RequestId
}.

Section MakeRequest.

(** [MTP::ShiftDcId] and [MTP::kStatsDcShift] come from the MTProto layer. *)
Variable ShiftDcId : DcId → Z → Z.
Variable kStatsDcShift : Z.

(** StatisticsRequestSender::makeRequest.  [id] is the result of
    [_api.allocateRequestId()], [dcId] that of
    [_channel->owner().statsDcId(_channel)]. *)
Definition makeRequest (id : RequestId) (dcId : DcId) (s : State)
  : State * list Effect * SentRequest :=
  let '(s', effects) :=
    if decide (dcId = 0)
    then (s, [])
    else
      let ids := default ∅ (_requests s !! dcId) in
      ({| _requests := <[dcId := {[id]} ∪ ids]> (_requests s);
          _timerActive := true |},
       RegisterStatsRequest dcId id ::
         (if _timerActive s then []
          else [TimerCallEach kCheckRequestsTimer])) in
  (s', effects,
   {| toDC := if decide (dcId = 0) then 0
              else ShiftDcId dcId kStatsDcShift;
      overrideId := id |}).

(** The life of a sender after its construction: requests made and
    sweeps of the timer, with the effects of all of them in order. *)
Inductive Op :=
| Make (id : RequestId) (dcId : DcId)
| Sweep (pending : RequestId → bool).

Definition apply (op : Op) (s : State) : State * list Effect :=
  match op with
  | Make id dcId => (makeRequest id dcId s).1
  | Sweep pending => checkRequests pending s
  end.

Fixpoint runOps (ops : list Op) (s : State) : State * list Effect :=
  match ops with
  | [] => (s, [])
  | op :: ops' =>
      let '(s1, e1) := apply op s in
      let '(s2, e2) := runOps ops' s1 in
      (s2, e1 ++ e2)
  end.

(** The ids of the requests made. *)
Fixpoint madeIds (ops : list Op) : list RequestId :=
  match ops with
  | [] => []
  | Make id _ :: ops' => id :: madeIds ops'
  | Sweep _ :: ops' => madeIds ops'
  end.

(** Everything a sender does to its collaborators while it runs [ops] from
    the state [s] and is then destroyed. *)
Definition traceFrom (s : State) (ops : list Op) : list Effect :=
  (runOps ops s).2 ++ destroy (runOps ops s).1.

(** The same for the whole life of a sender, from its construction. *)
Definition lifetime (ops : list Op) : list Effect := traceFrom init ops.

End MakeRequest.

Definition isUnregister (e : Effect) : bool :=
  match e with
  | UnregisterStatsRequest _ _ => true
  | _ => false
  end.

(** No shard is kept with an empty set, and the timer is active exactly
    while some shard is kept. *)
Definition timerInv (s : State) : Prop :=
  (∀ dc, _requests s !! dc ≠ Some ∅)
  ∧ (_timerActive s = true ↔ _requests s ≠ ∅).

End Sender.

(** ** Statistics::requestZoom: the single-flight queue of zoom requests *)

Module Zoom.

Import Values.

Definition RequestId := Z.
Definition ConsumerId := nat.

(** One closure pushed on [_zoomDeque]: it captures the arguments of
    requestZoom and the consumer that subscribed. *)
Record Task := {
  token : string;
  x : float64;
  consumer : ConsumerId
}.

(** What the transport and the consumers see. *)
Inductive Output :=
| SendLoadAsyncGraph (id : RequestId) (task : Task)
| PutNext (c : ConsumerId) (graph : StatisticalGraph)
| PutDone (c : ConsumerId)
| PutError (c : ConsumerId) (error : string).

(** What happens to a Statistics object: a consumer subscribes to the
    producer returned by requestZoom, or the transport answers a request it
    was sent, through the request's done or fail handler. *)
Inductive Event :=
| RequestZoom (task : Task)
| Done (id : RequestId) (result : MTPStatsGraph)
| Fail (id : RequestId) (error : string).

(** [inFlight] are the zoom requests sent and not answered yet, each with the
    task whose handlers wait for the answer. *)
Record State := {
  _zoomDeque : list Task;
  inFlight : list (RequestId * Task);
  nextRequestId : RequestId
}.

Definition init : State :=
  {| _zoomDeque := []; inFlight := []; nextRequestId := 1 |}.

(** Running a queued closure: [makeRequest(MTPstats_LoadAsyncGraph(...))
    .done(...).fail(...).send()].  (The tracking of the request by
    makeRequest is the matter of the module Sender.) *)
Definition runTask (t : Task) (s : State) : State * list Output :=
  let id := nextRequestId s in
  ({| _zoomDeque := _zoomDeque s;
      inFlight := inFlight s ++ [(id, t)];
      nextRequestId := id + 1 |},
   [SendLoadAsyncGraph id t]).

(** [_zoomDeque.front()()] *)
Definition runFront (s : State) : State * list Output :=
  match _zoomDeque s with
  | t :: _ => runTask t s
  | [] => (s, [])
  end.

Fixpoint findRequest (id : RequestId) (l : list (RequestId * Task))
  : option Task :=
  match l with
  | [] => None
  | (id', t) :: l' => if id =? id' then Some t else findRequest id l'
  end.

Fixpoint removeRequest (id : RequestId) (l : list (RequestId * Task))
  : list (RequestId * Task) :=
  match l with
  | [] => []
  | (id', t) :: l' =>
      if id =? id' then removeRequest id l' else (id', t) :: removeRequest id l'
  end.

Definition answered (id : RequestId) (s : State) : State :=
  {| _zoomDeque := _zoomDeque s;
     inFlight := removeRequest id (inFlight s);
     nextRequestId := nextRequestId s |}.

Definition popFront (s : State) : State :=
  {| _zoomDeque := tl (_zoomDeque s);
     inFlight := inFlight s;
     nextRequestId := nextRequestId s |}.

Definition pushBack (t : Task) (s : State) : State :=
  {| _zoomDeque := _zoomDeque s ++ [t];
     inFlight := inFlight s;
     nextRequestId := nextRequestId s |}.

Definition isEmpty {A} (l : list A) : bool :=
  match l with [] => true | _ => false end.

(** The subscription lambda of requestZoom. *)
Definition requestZoom (t : Task) (s : State) : State * list Output :=
  let wasEmpty := isEmpty (_zoomDeque s) in
  let s1 := pushBack t s in
  if wasEmpty then runFront s1 else (s1, []).

(** The done handler of a zoom request. *)
Definition onDone (t : Task) (result : MTPStatsGraph) (s : State)
  : State * list Output :=
  let out := [PutNext (consumer t) (StatisticalGraphFromTL result);
              PutDone (consumer t)] in
  if isEmpty (_zoomDeque s) then (s, out)
  else
    let s1 := popFront s in
    if isEmpty (_zoomDeque s1) then (s1, out)
    else let '(s2, sent) := runFront s1 in (s2, out ++ sent).

(** The fail handler of a zoom request. *)
Definition onFail (t : Task) (error : string) (s : State)
  : State * list Output :=
  (s, [PutError (consumer t) error]).

Definition step (s : State) (e : Event) : State * list Output :=
  match e with
  | RequestZoom t => requestZoom t s
  | Done id result =>
      match findRequest id (inFlight s) with
      | Some t => onDone t result (answered id s)
      | None => (s, [])
      end
  | Fail id error =>
      match findRequest id (inFlight s) with
      | Some t => onFail t error (answered id s)
      | None => (s, [])
      end
  end.

Fixpoint runFrom (s : State) (evs : list Event) : State * list Output :=
  match evs with
  | [] => (s, [])
  | e :: evs' =>
      let '(s1, out1) := step s e in
      let '(s2, out2) := runFrom s1 evs' in
      (s2, out1 ++ out2)
  end.

Definition run (evs : list Event) : State * list Output := runFrom init evs.

(** The tasks submitted by a sequence of events, in order. *)
Fixpoint submitted (evs : list Event) : list Task :=
  match evs with
  | [] => []
  | RequestZoom t :: evs' => t :: submitted evs'
  | _ :: evs' => submitted evs'
  end.

(** The tasks started (their request sent) in a sequence of outputs. *)
Fixpoint started (out : list Output) : list Task :=
  match out with
  | [] => []
  | SendLoadAsyncGraph _ t :: out' => t :: started out'
  | _ :: out' => started out'
  end.

(** The tasks a single event starts, as the queue discipline prescribes:
    a new task only on an empty deque, the second of the deque when the
    answer to the request in flight is a success, none otherwise. *)
Definition startsOn (s : State) (e : Event) : list Task :=
  match e with
  | RequestZoom t => if isEmpty (_zoomDeque s) then [t] else []
  | Done id _ =>
      match findRequest id (inFlight s), _zoomDeque s with
      | Some _, _ :: t :: _ => [t]
      | _, _ => []
      end
  | Fail _ _ => []
  end.

(** The queue discipline: nothing queued and nothing in flight, or a head
    that was started, with at most its own request in flight, followed by
    the tasks not started yet. *)
Inductive Queue (sub st : list Task) (s : State) : Prop :=
| QueueIdle :
    _zoomDeque s = [] → inFlight s = [] → sub = st → Queue sub st s
| QueueBusy h rest :
    _zoomDeque s = h :: rest → sub = st ++ rest →
    (inFlight s = [] ∨ ∃ id, inFlight s = [(id, h)]) →
    Queue sub st s.

(** How often a consumer is handed a graph, told the end, told an error. *)
Fixpoint charts (c : ConsumerId) (out : list Output) : nat :=
  match out with
  | [] => 0
  | PutNext c' _ :: out' => ((if Nat.eqb c c' then 1 else 0) + charts c out')%nat
  | _ :: out' => charts c out'
  end.

Fixpoint dones (c : ConsumerId) (out : list Output) : nat :=
  match out with
  | [] => 0
  | PutDone c' :: out' => ((if Nat.eqb c c' then 1 else 0) + dones c out')%nat
  | _ :: out' => dones c out'
  end.

Fixpoint errors (c : ConsumerId) (out : list Output) : nat :=
  match out with
  | [] => 0
  | PutError c' _ :: out' =>
      ((if Nat.eqb c c' then 1 else 0) + errors c out')%nat
  | _ :: out' => errors c out'
  end.

(** The tasks of a consumer in a list of tasks. *)
Fixpoint asks (c : ConsumerId) (l : list Task) : nat :=
  match l with
  | [] => 0
  | t :: l' => ((if Nat.eqb c (consumer t) then 1 else 0) + asks c l')%nat
  end.

(** The tasks of a consumer that wait for an answer: behind the head of the
    deque, or with their request in flight. *)
Definition pending (c : ConsumerId) (s : State) : nat :=
  (asks c (tl (_zoomDeque s)) + asks c (map snd (inFlight s)))%nat.
End Zoom.

(** ** PublicForwards: pages of public forwards of a message or a story *)

Module Forwards.

Definition RequestId := Z.
Definition PeerId := Z.
Definition MsgId := Z.
Definition StoryId := Z.

(** FullMsgId and FullStoryId (declared in data/data_msg_id.h and the
    stories headers): a full message id is set when its message id is not
    zero, a full story id when both its parts are not zero. *)
Record FullMsgId := { peer : PeerId; msg : MsgId }.
Record FullStoryId := { storyPeer : PeerId; story : StoryId }.

Definition FullMsgId_set (i : FullMsgId) : bool := negb (msg i =? 0).
Definition FullStoryId_set (i : FullStoryId) : bool :=
  negb (storyPeer i =? 0) && negb (story i =? 0).

Definition noMsgId : FullMsgId := {| peer := 0; msg := 0 |}.
Definition noStoryId : FullStoryId := {| storyPeer := 0; story := 0 |}.

(** Data::RecentPostId *)
Record RecentPostId := {
  messageId : FullMsgId;
  storyId : FullStoryId
}.

(** What a message handler looks at in the body of a message. *)
Inductive MessageBody :=
| message (views forwards : option Z) (reactions : option (list Z))
| messageEmpty
| messageService.

(** An MTPMessage.  [IdFromMessage], [PeerFromMessage] and
    [DateFromMessage] are helpers of the history module; a message is kept
    with the three values they return for it. *)
Record MTPMessage := {
  IdFromMessage : MsgId;
  PeerFromMessage : PeerId;
  DateFromMessage : Z;
  body : MessageBody
}.

(** The four shapes of MTPmessages_Messages (the users and chats they carry
    go to the owner's directory and are left out). *)
Inductive MTPmessages_Messages :=
| messages_messages (messages : list MTPMessage)
| messages_messagesSlice (next_rate : option Z) (count : Z)
    (messages : list MTPMessage)
| messages_channelMessages (count : Z) (messages : list MTPMessage)
| messages_messagesNotModified.

(** MTPStoryViews and the three shapes of MTPStoryItem. *)
Record MTPStoryViews := {
  vviews_count : Z;
  vforwards_count : option Z;
  vreactions_count : option Z
}.

Inductive MTPStoryItem :=
| storyItem (id : StoryId) (views : option MTPStoryViews)
| storyItemDeleted
| storyItemSkipped.

Inductive MTPPublicForward :=
| publicForwardMessage (message : MTPMessage)
| publicForwardStory (peer : PeerId) (story : MTPStoryItem).

(** MTPstats_PublicForwards *)
Record MTPstats_PublicForwards := {
  vcount : Z;
  vforwards : list MTPPublicForward;
  vnext_offset : option string
}.

(** Data::PublicForwardsSlice::OffsetToken *)
Record OffsetToken := {
  rate : Z;
  fullId : FullMsgId;
  storyOffset : string
}.

Definition emptyToken : OffsetToken :=
  {| rate := 0; fullId := noMsgId; storyOffset := "" |}.

(** Data::PublicForwardsSlice ([list_] is its member [list]). *)
Record PublicForwardsSlice := {
  list_ : list RecentPostId;
  total : Z;
  allLoaded : bool;
  token : OffsetToken
}.

Definition emptySlice : PublicForwardsSlice :=
  {| list_ := []; total := 0; allLoaded := false; token := emptyToken |}.

(** The [process] lambda of requestMessage: a forward is kept when its peer
    is loaded and its date is not zero; the last kept one becomes the
    offset of the next token.  [peerLoaded] is the owner's directory. *)
Fixpoint process (peerLoaded : PeerId → bool) (messages : list MTPMessage)
    (nextFullId : FullMsgId) (result : list RecentPostId)
  : FullMsgId * list RecentPostId :=
  match messages with
  | [] => (nextFullId, result)
  | m :: rest =>
      let msgId := IdFromMessage m in
      let peerId := PeerFromMessage m in
      let lastDate := DateFromMessage m in
      if peerLoaded peerId && negb (lastDate =? 0)
      then
        let full := {| peer := peerId; msg := msgId |} in
        process peerLoaded rest full
          (result ++ [{| messageId := full; storyId := noStoryId |}])
      else process peerLoaded rest nextFullId result
  end.

(** The locals of the done handler of requestMessage after the match on the
    shape of the answer. *)
Record Decoded := {
  d_list : list RecentPostId;
  d_allLoaded : bool;
  d_fullCount : Z;
  d_nextToken : OffsetToken
}.

Definition decodeMessages (peerLoaded : PeerId → bool) (token : OffsetToken)
    (result : MTPmessages_Messages) : Decoded :=
  match result with
  | messages_messages messages =>
      let '(next, l) := process peerLoaded messages noMsgId [] in
      {| d_list := l; d_allLoaded := true;
         d_fullCount := Z.of_nat (length l);
         d_nextToken := {| rate := 0; fullId := next; storyOffset := "" |} |}
  | messages_messagesSlice next_rate count messages =>
      let '(next, l) := process peerLoaded messages noMsgId [] in
      let '(nextRate, allLoaded) :=
        match next_rate with
        | Some nextRate =>
            let rateUpdated := negb (nextRate =? rate token) in
            if rateUpdated then (nextRate, false) else (0, true)
        | None => (0, false)
        end in
      {| d_list := l; d_allLoaded := allLoaded;
         d_fullCount := count;
         d_nextToken :=
           {| rate := nextRate; fullId := next; storyOffset := "" |} |}
  | messages_channelMessages count messages =>
      let '(next, l) := process peerLoaded messages noMsgId [] in
      {| d_list := l; d_allLoaded := true;
         d_fullCount := count;
         d_nextToken := {| rate := 0; fullId := next; storyOffset := "" |} |}
  | messages_messagesNotModified =>
      {| d_list := []; d_allLoaded := true;
         d_fullCount := 0;
         d_nextToken := emptyToken |}
  end.

(** The loop of the done handler of requestStory over the forwards. *)
Fixpoint storyForwards (peerLoaded : PeerId → bool)
    (forwards : list MTPPublicForward) (recentList : list RecentPostId)
  : list RecentPostId :=
  match forwards with
  | [] => recentList
  | publicForwardMessage m :: rest =>
      let msgId := IdFromMessage m in
      let peerId := PeerFromMessage m in
      let lastDate := DateFromMessage m in
      if peerLoaded peerId && negb (lastDate =? 0)
      then storyForwards peerLoaded rest
             (recentList ++
                [{| messageId := {| peer := peerId; msg := msgId |};
                    storyId := noStoryId |}])
      else storyForwards peerLoaded rest recentList
  | publicForwardStory p (storyItem id _) :: rest =>
      storyForwards peerLoaded rest
        (recentList ++
           [{| messageId := noMsgId;
               storyId := {| storyPeer := p; story := id |} |}])
  | publicForwardStory _ _ :: rest =>
      storyForwards peerLoaded rest recentList
  end.

Definition decodeStory (peerLoaded : PeerId → bool) (token : OffsetToken)
    (data : MTPstats_PublicForwards) : Decoded :=
  let nextOffset := default ""%string (vnext_offset data) in
  let allLoaded :=
    String.eqb nextOffset "" || String.eqb nextOffset (storyOffset token) in
  {| d_list := storyForwards peerLoaded (vforwards data) [];
     d_allLoaded := allLoaded;
     d_fullCount := vcount data;
     d_nextToken :=
       {| rate := 0; fullId := noMsgId; storyOffset := nextOffset |} |}.

Section WithCallback.

(** The [done] callback a caller hands to [request]. *)
Variable K : Type.

(** The handlers of a request in flight, with what their closures hold. *)
Inductive Handler :=
| MessageHandler (token : OffsetToken) (done : K)
| StoryHandler (token : OffsetToken) (done : K).

Record State := {
  _fullId : RecentPostId;
  _requestId : RequestId;
  _lastTotal : Z;
  inFlight : list (RequestId * Handler)
}.

(** A call of a [done] callback with a slice. *)
Inductive Output :=
| Deliver (done : K) (slice : PublicForwardsSlice).

Definition send (id : RequestId) (h : Handler) (s : State) : State :=
  {| _fullId := _fullId s;
     _requestId := id;
     _lastTotal := _lastTotal s;
     inFlight := inFlight s ++ [(id, h)] |}.

(** PublicForwards::requestMessage and requestStory up to [send()];
    [id] is the id the transport allocates for the request. *)
Definition requestMessage (id : RequestId) (token : OffsetToken) (done : K)
    (s : State) : State :=
  send id (MessageHandler token done) s.

Definition requestStory (id : RequestId) (token : OffsetToken) (done : K)
    (s : State) : State :=
  send id (StoryHandler token done) s.

(** PublicForwards::request *)
Definition request (id : RequestId) (token : OffsetToken) (done : K)
    (s : State) : State :=
  if _requestId s =? 0 then
    if FullMsgId_set (messageId (_fullId s)) then requestMessage id token done s
    else if FullStoryId_set (storyId (_fullId s)) then
      requestStory id token done s
    else s
  else s.

(** Does [request] send anything in this state? *)
Definition sends (s : State) : bool :=
  (_requestId s =? 0)
  && (FullMsgId_set (messageId (_fullId s))
      || FullStoryId_set (storyId (_fullId s))).

Fixpoint findRequest (id : RequestId) (l : list (RequestId * Handler))
  : option Handler :=
  match l with
  | [] => None
  | (id', h) :: l' => if id =? id' then Some h else findRequest id l'
  end.

Fixpoint removeRequest (id : RequestId) (l : list (RequestId * Handler))
  : list (RequestId * Handler) :=
  match l with
  | [] => []
  | (id', h) :: l' =>
      if id =? id' then removeRequest id l' else (id', h) :: removeRequest id l'
  end.

(** The common end of both done handlers: [_requestId = 0], the running
    total, and the call of [done]. *)
Definition deliver (id : RequestId) (done : K) (d : Decoded) (s : State)
  : State * list Output :=
  let lastTotal := Z.max (_lastTotal s) (d_fullCount d) in
  ({| _fullId := _fullId s;
      _requestId := 0;
      _lastTotal := lastTotal;
      inFlight := removeRequest id (inFlight s) |},
   [Deliver done
      {| list_ := d_list d;
         total := lastTotal;
         allLoaded := d_allLoaded d;
         token := d_nextToken d |}]).

(** The fail handler of both requests: [_requestId = 0] and nothing else. *)
Definition failed (id : RequestId) (s : State) : State * list Output :=
  ({| _fullId := _fullId s;
      _requestId := 0;
      _lastTotal := _lastTotal s;
      inFlight := removeRequest id (inFlight s) |},
   []).

(** The transport answers a request in flight: with an answer of the type
    the request expects, or with a failure.  [loaded] is the owner's
    directory as [peerLoaded] sees it in the handler. *)
Inductive Answer :=
| MessagesAnswer (loaded : PeerId → bool) (result : MTPmessages_Messages)
| StoryAnswer (loaded : PeerId → bool) (result : MTPstats_PublicForwards)
| Failure.

Definition handle (id : RequestId) (a : Answer) (s : State)
  : State * list Output :=
  match findRequest id (inFlight s), a with
  | Some (MessageHandler token done), MessagesAnswer loaded result =>
      deliver id done (decodeMessages loaded token result) s
  | Some (StoryHandler token done), StoryAnswer loaded result =>
      deliver id done (decodeStory loaded token result) s
  | Some _, Failure => failed id s
  | _, _ => (s, [])
  end.

(** One PublicForwards object on its own: calls of [request] and answers
    of the transport, with request ids allocated from a counter. *)
Inductive Event :=
| Request (token : OffsetToken) (done : K)
| Answered (id : RequestId) (a : Answer).

Definition step (st : State * RequestId) (e : Event)
  : State * RequestId * list Output :=
  let '(s, next) := st in
  match e with
  | Request token done =>
      if sends s then (request next token done s, next + 1, [])
      else (s, next, [])
  | Answered id a =>
      let '(s', out) := handle id a s in (s', next, out)
  end.

Fixpoint runFrom (st : State * RequestId) (evs : list Event)
  : State * RequestId * list Output :=
  match evs with
  | [] => (st, [])
  | e :: evs' =>
      let '(st1, out1) := step st e in
      let '(st2, out2) := runFrom st1 evs' in
      (st2, out1 ++ out2)
  end.

(** The totals of the slices delivered, in order. *)
Definition totals (out : list Output) : list Z :=
  map (λ o, match o with Deliver _ slice => total slice end) out.

End WithCallback.

(** The shapes of an answer for which a message page is the last one. *)
Definition lastMessagePage (token : OffsetToken)
    (result : MTPmessages_Messages) : Prop :=
  (∃ messages, result = messages_messages messages)
  ∨ (∃ count messages, result = messages_channelMessages count messages)
  ∨ result = messages_messagesNotModified
  ∨ (∃ count messages,
       result = messages_messagesSlice (Some (rate token)) count messages).

(** The running total as the data model words it: each total is the
    maximum of the total known so far and the count just reported. *)
Fixpoint runningMax (known : Z) (counts : list Z) : list Z :=
  match counts with
  | [] => []
  | c :: rest => Z.max known c :: runningMax (Z.max known c) rest
  end.

(** A fresh PublicForwards object for a target. *)
Definition init (K : Type) (target : RecentPostId) : State K :=
  {| _fullId := target; _requestId := 0; _lastTotal := 0; inFlight := [] |}.

(** A forwarded message is kept when its peer is loaded and its date is not
    zero. *)
Definition keeps (peerLoaded : PeerId → bool) (m : MTPMessage) : bool :=
  peerLoaded (PeerFromMessage m) && negb (DateFromMessage m =? 0).

Definition fullIdOf (m : MTPMessage) : FullMsgId :=
  {| peer := PeerFromMessage m; msg := IdFromMessage m |}.

Definition messagePost (i : FullMsgId) : RecentPostId :=
  {| messageId := i; storyId := noStoryId |}.

(** The messages an answer carries. *)
Definition messagesOf (result : MTPmessages_Messages) : list MTPMessage :=
  match result with
  | messages_messages messages
  | messages_messagesSlice _ _ messages
  | messages_channelMessages _ messages => messages
  | messages_messagesNotModified => []
  end.

(** The rate of the next token: the answer's next rate when a partial slice
    carries one that differs from the rate asked with, zero otherwise. *)
Definition nextRateOf (token : OffsetToken) (result : MTPmessages_Messages)
  : Z :=
  match result with
  | messages_messagesSlice (Some nextRate) _ _ =>
      if nextRate =? rate token then 0 else nextRate
  | _ => 0
  end.

(** The count a message page reports: the number of forwards kept for the
    full list, the count of the answer for a partial or channel-scoped
    one, zero for not-modified. *)
Definition fullCountOf (peerLoaded : PeerId → bool)
    (result : MTPmessages_Messages) : Z :=
  match result with
  | messages_messages messages =>
      Z.of_nat (length (List.filter (keeps peerLoaded) messages))
  | messages_messagesSlice _ count _
  | messages_channelMessages count _ => count
  | messages_messagesNotModified => 0
  end.

(** The count an answer carries for the running total: that of a message
    page, the count of a story page; a failure carries none. *)
Definition answerCount (a : Answer) : option Z :=
  match a with
  | MessagesAnswer loaded result => Some (fullCountOf loaded result)
  | StoryAnswer _ data => Some (vcount data)
  | Failure => None
  end.

(** The number of forwards an answer for a message page holds, whether
    they are kept or not, for the full list; its count otherwise. *)
Definition receivedCount (result : MTPmessages_Messages) : Z :=
  match result with
  | messages_messages messages => Z.of_nat (length messages)
  | messages_messagesSlice _ count _
  | messages_channelMessages count _ => count
  | messages_messagesNotModified => 0
  end.

(** The entry a forward of a story page gives, if it gives one. *)
Definition forwardPost (peerLoaded : PeerId → bool) (f : MTPPublicForward)
  : option RecentPostId :=
  match f with
  | publicForwardMessage m =>
      if keeps peerLoaded m then Some (messagePost (fullIdOf m)) else None
  | publicForwardStory p (storyItem id _) =>
      Some {| messageId := noMsgId;
              storyId := {| storyPeer := p; story := id |} |}
  | publicForwardStory _ _ => None
  end.

(** Is the answer one to a request in flight, of the type that request
    expects?  Such an answer goes to the done handler of the request. *)
Definition reaches {K} (id : RequestId) (a : Answer) (s : State K) : bool :=
  match findRequest K id (inFlight K s), a with
  | Some (MessageHandler _ _ _), MessagesAnswer _ _
  | Some (StoryHandler _ _ _), StoryAnswer _ _ => true
  | _, _ => false
  end.

(** The counts of the answers that reach a done handler in a sequence of
    events, in order. *)
Fixpoint counts {K} (st : State K * RequestId) (evs : list (Event K))
  : list Z :=
  match evs with
  | [] => []
  | e :: evs' =>
      let here :=
        match e with
        | Answered _ id a =>
            if reaches id a (fst st)
            then match answerCount a with Some c => [c] | None => [] end
            else []
        | Request _ _ _ => []
        end in
      here ++ counts (fst (step K st e)) evs'
  end.

(** At most one request of the object is in flight, and [_requestId] is its
    id. *)
Definition singleFlight {K} (s : State K) : Prop :=
  (_requestId K s = 0 ∧ inFlight K s = [])
  ∨ (∃ h, _requestId K s ≠ 0 ∧ inFlight K s = [(_requestId K s, h)]).

(** The calls of [request] in a sequence of events. *)
Fixpoint requested {K} (evs : list (Event K)) : nat :=
  match evs with
  | [] => 0
  | Request _ _ _ :: evs' => S (requested evs')
  | Answered _ _ _ :: evs' => requested evs'
  end.
End Forwards.

(** ** MessageStatistics: statistics of one message or story *)

Module MessageStats.

Import Values.

Definition RequestId := Z.

(** Data::StatisticsMessageInteractionInfo *)
Record StatisticsMessageInteractionInfo := {
  messageId : Z;
  storyId : Z;
  viewsCount : Z;
  forwardsCount : Z;
  reactionsCount : Z
}.

Definition emptyInfo : StatisticsMessageInteractionInfo :=
  {| messageId := 0; storyId := 0;
     viewsCount := 0; forwardsCount := 0; reactionsCount := 0 |}.

(** Data::MessageStatistics, the unified result. *)
Record MessageStatistics := {
  messageInteractionGraph : StatisticalGraph;
  reactionsByEmotionGraph : StatisticalGraph;
  publicForwards : Z;
  privateForwards : Z;
  views : Z;
  reactions : Z
}.

(** The [done] callbacks of the callers are told apart by a name. *)
Definition Done := nat.

(** The [callback] lambda of requestFirstPublicForwards with what it
    captures. *)
Record Callback := {
  cb_done : Done;
  cb_messageGraph : StatisticalGraph;
  cb_reactionsGraph : StatisticalGraph;
  cb_info : StatisticsMessageInteractionInfo
}.

(** The handlers of the requests MessageStatistics sends itself: those of
    GetMessageStats, of GetStoryStats, of GetMessages and of
    GetStoriesByID, each with what its closures hold. *)
Inductive Handler :=
| MessageStatsHandler (done : Done)
| StoryStatsHandler (done : Done)
| MessagesHandler (done : Done) (messageGraph reactionsGraph : StatisticalGraph)
| StoriesHandler (done : Done) (messageGraph reactionsGraph : StatisticalGraph).

(** [nextRequestId] is the transport's counter behind allocateRequestId. *)
Record State := {
  isMegagroup : bool;
  _fullId : Forwards.FullMsgId;
  _storyId : Forwards.FullStoryId;
  _publicForwards : Forwards.State Callback;
  _firstSlice : Forwards.PublicForwardsSlice;
  inFlight : list (RequestId * Handler);
  nextRequestId : RequestId
}.

(** The two constructors. *)
Definition ofMessage (megagroup : bool) (fullId : Forwards.FullMsgId)
  : State :=
  {| isMegagroup := megagroup;
     _fullId := fullId;
     _storyId := Forwards.noStoryId;
     _publicForwards :=
       Forwards.init Callback
         {| Forwards.messageId := fullId;
            Forwards.storyId := Forwards.noStoryId |};
     _firstSlice := Forwards.emptySlice;
     inFlight := [];
     nextRequestId := 1 |}.

Definition ofStory (megagroup : bool) (storyId : Forwards.FullStoryId)
  : State :=
  {| isMegagroup := megagroup;
     _fullId := Forwards.noMsgId;
     _storyId := storyId;
     _publicForwards :=
       Forwards.init Callback
         {| Forwards.messageId := Forwards.noMsgId;
            Forwards.storyId := storyId |};
     _firstSlice := Forwards.emptySlice;
     inFlight := [];
     nextRequestId := 1 |}.

(** A call of a caller's [done]. *)
Inductive Output :=
| CallDone (done : Done) (result : MessageStatistics).

(** Sending a request of MessageStatistics itself. *)
Definition send (h : Handler) (s : State) : State :=
  {| isMegagroup := isMegagroup s;
     _fullId := _fullId s;
     _storyId := _storyId s;
     _publicForwards := _publicForwards s;
     _firstSlice := _firstSlice s;
     inFlight := inFlight s ++ [(nextRequestId s, h)];
     nextRequestId := nextRequestId s + 1 |}.

(** MessageStatistics::request up to the first [send()]. *)
Definition request (done : Done) (s : State) : State :=
  if isMegagroup s then s
  else if Forwards.FullStoryId_set (_storyId s)
  then send (StoryStatsHandler done) s
  else send (MessageStatsHandler done) s.

(** The lambdas requestPrivateForwards and requestStoryPrivateForwards. *)
Definition requestPrivateForwards (done : Done)
    (messageGraph reactionsGraph : StatisticalGraph) (s : State) : State :=
  send (MessagesHandler done messageGraph reactionsGraph) s.

Definition requestStoryPrivateForwards (done : Done)
    (messageGraph reactionsGraph : StatisticalGraph) (s : State) : State :=
  send (StoriesHandler done messageGraph reactionsGraph) s.

(** The lambda requestFirstPublicForwards:
    [_publicForwards.request({}, callback)]. *)
Definition requestFirstPublicForwards (done : Done)
    (messageGraph reactionsGraph : StatisticalGraph)
    (info : StatisticsMessageInteractionInfo) (s : State) : State :=
  let callback :=
    {| cb_done := done; cb_messageGraph := messageGraph;
       cb_reactionsGraph := reactionsGraph; cb_info := info |} in
  let pf := _publicForwards s in
  {| isMegagroup := isMegagroup s;
     _fullId := _fullId s;
     _storyId := _storyId s;
     _publicForwards :=
       Forwards.request Callback (nextRequestId s) Forwards.emptyToken
         callback pf;
     _firstSlice := _firstSlice s;
     inFlight := inFlight s;
     nextRequestId :=
       if Forwards.sends Callback pf then nextRequestId s + 1
       else nextRequestId s |}.

(** The unified result the [callback] lambda builds. *)
Definition unified (messageGraph reactionsGraph : StatisticalGraph)
    (info : StatisticsMessageInteractionInfo) (total : Z)
  : MessageStatistics :=
  {| messageInteractionGraph := messageGraph;
     reactionsByEmotionGraph := reactionsGraph;
     publicForwards := total;
     privateForwards := int_sub (forwardsCount info) total;
     views := viewsCount info;
     reactions := reactionsCount info |}.

(** The [callback] lambda itself, called with the first slice. *)
Definition callback (cb : Callback) (slice : Forwards.PublicForwardsSlice)
    (s : State) : State * list Output :=
  let total := Forwards.total slice in
  ({| isMegagroup := isMegagroup s;
      _fullId := _fullId s;
      _storyId := _storyId s;
      _publicForwards := _publicForwards s;
      _firstSlice := slice;
      inFlight := inFlight s;
      nextRequestId := nextRequestId s |},
   [CallDone (cb_done cb)
      (unified (cb_messageGraph cb) (cb_reactionsGraph cb) (cb_info cb)
         total)]).

(** [messages.v.front()] and [vstories().v.front()]: the first element;
    an empty vector has none to read. *)
Definition front {A} (l : list A) : option A :=
  match l with
  | [] => None
  | a :: _ => Some a
  end.

(** The [process] lambda of the done handler of GetMessages. *)
Definition processCounters (messages : list Forwards.MTPMessage)
  : option StatisticsMessageInteractionInfo :=
  match front messages with
  | None => None
  | Some m =>
      Some
        match Forwards.body m with
        | Forwards.message views forwards reactions =>
            let reactionsCount :=
              match reactions with
              | Some tlCounts => fold_left int_add tlCounts 0
              | None => 0
              end in
            {| messageId := Forwards.IdFromMessage m;
               storyId := 0;
               viewsCount := default 0 views;
               forwardsCount := default 0 forwards;
               reactionsCount := reactionsCount |}
        | Forwards.messageEmpty => emptyInfo
        | Forwards.messageService => emptyInfo
        end
  end.

Definition countersFromMessages (result : Forwards.MTPmessages_Messages)
  : option StatisticsMessageInteractionInfo :=
  match result with
  | Forwards.messages_messages messages => processCounters messages
  | Forwards.messages_messagesSlice _ _ messages => processCounters messages
  | Forwards.messages_channelMessages _ messages => processCounters messages
  | Forwards.messages_messagesNotModified => Some emptyInfo
  end.

(** The done handler of GetStoriesByID up to [info]. *)
Definition countersFromStories (stories : list Forwards.MTPStoryItem)
  : option StatisticsMessageInteractionInfo :=
  match front stories with
  | None => None
  | Some (Forwards.storyItem id (Some tlViews)) =>
      Some {| messageId := 0;
              storyId := id;
              viewsCount := Forwards.vviews_count tlViews;
              forwardsCount := default 0 (Forwards.vforwards_count tlViews);
              reactionsCount := default 0 (Forwards.vreactions_count tlViews) |}
  | Some _ => Some emptyInfo
  end.

(** What the transport answers: the two graphs of MTPstats_MessageStats or
    MTPstats_StoryStats, the stories of MTPstories_Stories, or one of the
    answers PublicForwards knows (messages, story forwards, failure). *)
Inductive Answer :=
| StatsAnswer (views_graph reactions_by_emotion_graph : MTPStatsGraph)
| StoriesAnswer (stories : list Forwards.MTPStoryItem)
| Other (a : Forwards.Answer).

Fixpoint findRequest (id : RequestId) (l : list (RequestId * Handler))
  : option Handler :=
  match l with
  | [] => None
  | (id', h) :: l' => if id =? id' then Some h else findRequest id l'
  end.

Fixpoint removeRequest (id : RequestId) (l : list (RequestId * Handler))
  : list (RequestId * Handler) :=
  match l with
  | [] => []
  | (id', h) :: l' =>
      if id =? id' then removeRequest id l' else (id', h) :: removeRequest id l'
  end.

Definition answered (id : RequestId) (s : State) : State :=
  {| isMegagroup := isMegagroup s;
     _fullId := _fullId s;
     _storyId := _storyId s;
     _publicForwards := _publicForwards s;
     _firstSlice := _firstSlice s;
     inFlight := removeRequest id (inFlight s);
     nextRequestId := nextRequestId s |}.

(** The done and fail handlers of the requests of MessageStatistics itself.
    [None]: the handler calls [front()] on an empty vector. *)
Definition handleOwn (h : Handler) (a : Answer) (s : State)
  : option State :=
  match h, a with
  | MessageStatsHandler done, StatsAnswer v r =>
      Some (requestPrivateForwards done
              (StatisticalGraphFromTL v) (StatisticalGraphFromTL r) s)
  | MessageStatsHandler done, Other Forwards.Failure =>
      Some (requestPrivateForwards done emptyGraph emptyGraph s)
  | StoryStatsHandler done, StatsAnswer v r =>
      Some (requestStoryPrivateForwards done
              (StatisticalGraphFromTL v) (StatisticalGraphFromTL r) s)
  | StoryStatsHandler done, Other Forwards.Failure =>
      Some (requestStoryPrivateForwards done emptyGraph emptyGraph s)
  | MessagesHandler done mg rg, Other (Forwards.MessagesAnswer _ result) =>
      match countersFromMessages result with
      | Some info => Some (requestFirstPublicForwards done mg rg info s)
      | None => None
      end
  | MessagesHandler done mg rg, Other Forwards.Failure =>
      Some (requestFirstPublicForwards done mg rg emptyInfo s)
  | StoriesHandler done mg rg, StoriesAnswer stories =>
      match countersFromStories stories with
      | Some info => Some (requestFirstPublicForwards done mg rg info s)
      | None => None
      end
  | StoriesHandler done mg rg, Other Forwards.Failure =>
      Some (requestFirstPublicForwards done mg rg emptyInfo s)
  | _, _ => Some s
  end.

(** Does the answer have the type the handler's request expects? *)
Definition expects (h : Handler) (a : Answer) : bool :=
  match h, a with
  | MessageStatsHandler _, StatsAnswer _ _
  | StoryStatsHandler _, StatsAnswer _ _
  | MessagesHandler _ _ _, Other (Forwards.MessagesAnswer _ _)
  | StoriesHandler _ _ _, StoriesAnswer _
  | _, Other Forwards.Failure => true
  | _, _ => false
  end.

(** The slices PublicForwards delivers go through [callback]. *)
Fixpoint callbacks (out : list (Forwards.Output Callback)) (s : State)
  : State * list Output :=
  match out with
  | [] => (s, [])
  | Forwards.Deliver _ cb slice :: rest =>
      let '(s1, out1) := callback cb slice s in
      let '(s2, out2) := callbacks rest s1 in
      (s2, out1 ++ out2)
  end.

Definition setPublicForwards (pf : Forwards.State Callback) (s : State)
  : State :=
  {| isMegagroup := isMegagroup s;
     _fullId := _fullId s;
     _storyId := _storyId s;
     _publicForwards := pf;
     _firstSlice := _firstSlice s;
     inFlight := inFlight s;
     nextRequestId := nextRequestId s |}.

Inductive Event :=
| Request (done : Done)
| Answered (id : RequestId) (a : Answer).

(** One step: a call of [request], or the transport answering a request in
    flight, of MessageStatistics itself or of its PublicForwards.  An answer
    to a request that is not in flight, or of another type than the request
    expects, does not happen and is skipped. *)
Definition step (s : State) (e : Event) : option (State * list Output) :=
  match e with
  | Request done => Some (request done s, [])
  | Answered id a =>
      match findRequest id (inFlight s) with
      | Some h =>
          if expects h a
          then match handleOwn h a (answered id s) with
               | Some s' => Some (s', [])
               | None => None
               end
          else Some (s, [])
      | None =>
          match a with
          | Other fa =>
              let '(pf, out) :=
                Forwards.handle Callback id fa (_publicForwards s) in
              Some (callbacks out (setPublicForwards pf s))
          | _ => Some (s, [])
          end
      end
  end.

Fixpoint runFrom (s : State) (evs : list Event)
  : option (State * list Output) :=
  match evs with
  | [] => Some (s, [])
  | e :: evs' =>
      match step s e with
      | Some (s1, out1) =>
          match runFrom s1 evs' with
          | Some (s2, out2) => Some (s2, out1 ++ out2)
          | None => None
          end
      | None => None
      end
  end.

(** How often a [done] callback is handed to [request], and how often it is
    called. *)
Fixpoint requestsOf (d : Done) (evs : list Event) : nat :=
  match evs with
  | [] => 0
  | Request d' :: evs' =>
      ((if Nat.eqb d d' then 1 else 0) + requestsOf d evs')%nat
  | _ :: evs' => requestsOf d evs'
  end.

Fixpoint callsOf (d : Done) (out : list Output) : nat :=
  match out with
  | [] => 0
  | CallDone d' _ :: out' =>
      ((if Nat.eqb d d' then 1 else 0) + callsOf d out')%nat
  end.

(** The [done] callback a handler holds, and how many handlers in flight
    hold a given one. *)
Definition doneOf (h : Handler) : Done :=
  match h with
  | MessageStatsHandler d | StoryStatsHandler d
  | MessagesHandler d _ _ | StoriesHandler d _ _ => d
  end.

Definition doneOfForwards (h : Forwards.Handler Callback) : Done :=
  match h with
  | Forwards.MessageHandler _ _ cb | Forwards.StoryHandler _ _ cb => cb_done cb
  end.

Fixpoint holders {H : Type} (doneOfH : H → Done) (d : Done)
    (l : list (RequestId * H)) : nat :=
  match l with
  | [] => 0
  | (_, h) :: l' =>
      ((if Nat.eqb d (doneOfH h) then 1 else 0) + holders doneOfH d l')%nat
  end.

Definition waiting (d : Done) (s : State) : nat :=
  (holders doneOf d (inFlight s)
   + holders doneOfForwards d (Forwards.inFlight Callback (_publicForwards s)))%nat.

(** Nothing of the object is in flight, and its PublicForwards is ready for
    a request. *)
Definition idle (s : State) : Prop :=
  inFlight s = []
  ∧ Forwards.inFlight Callback (_publicForwards s) = []
  ∧ Forwards._requestId Callback (_publicForwards s) = 0.

(** The object was made for a message, or for a story, that is set. *)
Definition messageTarget (s : State) : Prop :=
  Forwards.FullStoryId_set (_storyId s) = false
  ∧ Forwards.FullMsgId_set
      (Forwards.messageId (Forwards._fullId Callback (_publicForwards s)))
    = true.

Definition storyTarget (s : State) : Prop :=
  Forwards.FullStoryId_set (_storyId s) = true
  ∧ Forwards.FullMsgId_set
      (Forwards.messageId (Forwards._fullId Callback (_publicForwards s)))
    = false
  ∧ Forwards.FullStoryId_set
      (Forwards.storyId (Forwards._fullId Callback (_publicForwards s)))
    = true.

(** The answers to the first two requests: [None] is a failure. *)
Definition statsAnswer (stats : option (MTPStatsGraph * MTPStatsGraph))
  : Answer :=
  match stats with
  | Some (v, r) => StatsAnswer v r
  | None => Other Forwards.Failure
  end.

Definition graphsOf (stats : option (MTPStatsGraph * MTPStatsGraph))
  : StatisticalGraph * StatisticalGraph :=
  match stats with
  | Some (v, r) => (StatisticalGraphFromTL v, StatisticalGraphFromTL r)
  | None => (emptyGraph, emptyGraph)
  end.

Definition messagesAnswer (counters : option Forwards.MTPmessages_Messages)
  : Answer :=
  match counters with
  | Some result => Other (Forwards.MessagesAnswer (λ _, false) result)
  | None => Other Forwards.Failure
  end.

Definition storiesAnswer (counters : option (list Forwards.MTPStoryItem))
  : Answer :=
  match counters with
  | Some stories => StoriesAnswer stories
  | None => Other Forwards.Failure
  end.

(** The counters the third step starts from: those decoded from the answer,
    empty ones after a failure. *)
Definition infoOfMessages (counters : option Forwards.MTPmessages_Messages)
  : option StatisticsMessageInteractionInfo :=
  match counters with
  | Some result => countersFromMessages result
  | None => Some emptyInfo
  end.

Definition infoOfStories (counters : option (list Forwards.MTPStoryItem))
  : option StatisticsMessageInteractionInfo :=
  match counters with
  | Some stories => countersFromStories stories
  | None => Some emptyInfo
  end.

(** An answer to the lookup of the counters that has a vector of messages
    and no message in it. *)
Definition noFirstMessage (result : Forwards.MTPmessages_Messages) : Prop :=
  result ≠ Forwards.messages_messagesNotModified
  ∧ Forwards.messagesOf result = [].

End MessageStats.

(** ** Boosts::request: the overview of a boost status *)

Module Boosts.

Import Values.

(** statsPercentValue part:double total:double *)
Record MTPStatsPercentValue := {
  vpart : float64;
  vtotal : float64
}.

(** What the done handler reads in MTPpremium_BoostsStatus for the
    overview. *)
Record MTPpremium_BoostsStatus := {
  vmy_boost_slots : option (list Z);
  vlevel : Z;
  vboosts : Z;
  vcurrent_level_boosts : Z;
  vnext_level_boosts : option Z;
  vpremium_audience : option MTPStatsPercentValue
}.

(** Data::BoostsOverview *)
Record BoostsOverview := {
  mine : Z;
  level : Z;
  boostCount : Z;
  currentLevelBoostCount : Z;
  nextLevelBoostCount : Z;
  premiumMemberCount : Z;
  premiumMemberPercentage : float64
}.

(** The range of a 32-bit int. *)
Definition INT_MIN : Z := - 2 ^ 31.
Definition INT_MAX : Z := 2 ^ 31 - 1.

(** A double cut to an integer toward zero; an infinity or NaN has none. *)
Definition truncate (d : float64) : option Z :=
  match d with
  | S754_zero _ => Some 0
  | S754_finite s m e => Some (cond_Zopp s (Z.shiftl (Z.pos m) e))
  | _ => None
  end.

(** The conversion [int(d)]: the double cut toward zero when that fits an
    int.  When it does not, or for an infinity or NaN, C++ leaves the
    result open; the model takes INT_MIN, the result of the conversion
    instruction of x86. *)
Definition int_of_double (d : float64) : Z :=
  match truncate d with
  | Some n => if (INT_MIN <=? n) && (n <=? INT_MAX) then n else INT_MIN
  | None => INT_MIN
  end.

(** The three locals of the done handler. *)
Definition premiumCount (data : MTPpremium_BoostsStatus) : Z :=
  match vpremium_audience data with
  | Some audience => Z.max 0 (int_of_double (vpart audience))
  | None => 0
  end.

Definition participantCount (data : MTPpremium_BoostsStatus) : Z :=
  match vpremium_audience data with
  | Some audience =>
      Z.max (int_of_double (vtotal audience)) (premiumCount data)
  | None => 0
  end.

(** [(participantCount > 0)
      ? (100. * premiumMemberCount / participantCount) : 0]: the two ints
    are converted to double, the product and the quotient are those of
    doubles. *)
Definition premiumPercentage (data : MTPpremium_BoostsStatus) : float64 :=
  if 0 <? participantCount data
  then f64div (f64mul hundred (f64_of_Z (premiumCount data)))
         (f64_of_Z (participantCount data))
  else zero64.

(** The division the handler performs, if it performs one: the dividend
    and the divisor before its conversion to double. *)
Definition premiumDivision (data : MTPpremium_BoostsStatus)
  : option (float64 * Z) :=
  if 0 <? participantCount data
  then Some (f64mul hundred (f64_of_Z (premiumCount data)),
             participantCount data)
  else None.

Definition overview (data : MTPpremium_BoostsStatus) : BoostsOverview :=
  {| mine :=
       match vmy_boost_slots data with
       | Some slots => Z.of_nat (length slots)
       | None => 0
       end;
     level := Z.max (vlevel data) 0;
     boostCount := Z.max (vboosts data) (vcurrent_level_boosts data);
     currentLevelBoostCount := vcurrent_level_boosts data;
     nextLevelBoostCount := default 0 (vnext_level_boosts data);
     premiumMemberCount := premiumCount data;
     premiumMemberPercentage := premiumPercentage data |}.

End Boosts.

(** ** ChannelStatisticsFromTL and SupergroupStatisticsFromTL *)

Module Channel.

Import Values.

(** statsDateRangeDays min_date:int max_date:int *)
Record MTPStatsDateRangeDays := {
  vmin_date : Z;
  vmax_date : Z
}.

(** The two shapes of MTPPostInteractionCounters. *)
Inductive MTPPostInteractionCounters :=
| postInteractionCountersStory (story_id views forwards reactions : Z)
| postInteractionCountersMessage (msg_id views forwards reactions : Z).

(** MTPDstats_broadcastStats *)
Record MTPDstats_broadcastStats := {
  vperiod : MTPStatsDateRangeDays;
  vfollowers : MTPStatsAbsValueAndPrev;
  vviews_per_post : MTPStatsAbsValueAndPrev;
  vshares_per_post : MTPStatsAbsValueAndPrev;
  vreactions_per_post : MTPStatsAbsValueAndPrev;
  vviews_per_story : MTPStatsAbsValueAndPrev;
  vshares_per_story : MTPStatsAbsValueAndPrev;
  vreactions_per_story : MTPStatsAbsValueAndPrev;
  venabled_notifications : Boosts.MTPStatsPercentValue;
  vgrowth_graph : MTPStatsGraph;
  vfollowers_graph : MTPStatsGraph;
  vmute_graph : MTPStatsGraph;
  vtop_hours_graph : MTPStatsGraph;
  vinteractions_graph : MTPStatsGraph;
  viv_interactions_graph : MTPStatsGraph;
  vviews_by_source_graph : MTPStatsGraph;
  vnew_followers_by_source_graph : MTPStatsGraph;
  vlanguages_graph : MTPStatsGraph;
  vreactions_by_emotion_graph : MTPStatsGraph;
  vstory_interactions_graph : MTPStatsGraph;
  vstory_reactions_by_emotion_graph : MTPStatsGraph;
  vrecent_posts_interactions : list MTPPostInteractionCounters
}.

(** Data::ChannelStatistics *)
Record ChannelStatistics := {
  startDate : Z;
  endDate : Z;
  memberCount : StatisticalValue;
  meanViewCount : StatisticalValue;
  meanShareCount : StatisticalValue;
  meanReactionCount : StatisticalValue;
  meanStoryViewCount : StatisticalValue;
  meanStoryShareCount : StatisticalValue;
  meanStoryReactionCount : StatisticalValue;
  enabledNotificationsPercentage : float64;
  memberCountGraph : StatisticalGraph;
  joinGraph : StatisticalGraph;
  muteGraph : StatisticalGraph;
  viewCountByHourGraph : StatisticalGraph;
  viewCountBySourceGraph : StatisticalGraph;
  joinBySourceGraph : StatisticalGraph;
  languageGraph : StatisticalGraph;
  messageInteractionGraph : StatisticalGraph;
  instantViewInteractionGraph : StatisticalGraph;
  reactionsByEmotionGraph : StatisticalGraph;
  storyInteractionsGraph : StatisticalGraph;
  storyReactionsByEmotionGraph : StatisticalGraph;
  recentMessageInteractions :
    list MessageStats.StatisticsMessageInteractionInfo
}.

(** The value-initialised objects, as a constructor leaves them. *)
Definition noValue : StatisticalValue :=
  {| value := zero64; previousValue := zero64;
     growthRatePercentage := zero64 |}.

Definition noChannelStatistics : ChannelStatistics :=
  {| startDate := 0;
     endDate := 0;
     memberCount := noValue;
     meanViewCount := noValue;
     meanShareCount := noValue;
     meanReactionCount := noValue;
     meanStoryViewCount := noValue;
     meanStoryShareCount := noValue;
     meanStoryReactionCount := noValue;
     enabledNotificationsPercentage := zero64;
     memberCountGraph := emptyGraph;
     joinGraph := emptyGraph;
     muteGraph := emptyGraph;
     viewCountByHourGraph := emptyGraph;
     viewCountBySourceGraph := emptyGraph;
     joinBySourceGraph := emptyGraph;
     languageGraph := emptyGraph;
     messageInteractionGraph := emptyGraph;
     instantViewInteractionGraph := emptyGraph;
     reactionsByEmotionGraph := emptyGraph;
     storyInteractionsGraph := emptyGraph;
     storyReactionsByEmotionGraph := emptyGraph;
     recentMessageInteractions := [] |}.

(** [std::clamp(v, lo, hi)]: lo if v < lo, hi if hi < v, v otherwise.  For
    a NaN both comparisons are false and the NaN comes back. *)
Definition clamp (v lo hi : float64) : float64 :=
  if SFltb v lo then lo else if SFltb hi v then hi else v.

(** The local [unmuted]:
    [(!total) ? 0. : std::clamp(part / total * 100., 0., 100.)]. *)
Definition unmuted (tlUnmuted : Boosts.MTPStatsPercentValue) : float64 :=
  if negb (f64_to_bool (Boosts.vtotal tlUnmuted))
  then zero64
  else clamp
         (f64mul (f64div (Boosts.vpart tlUnmuted) (Boosts.vtotal tlUnmuted))
            hundred)
         zero64 hundred.

(** The transformation of one of the recent posts. *)
Definition recentMessage (tl : MTPPostInteractionCounters)
  : MessageStats.StatisticsMessageInteractionInfo :=
  match tl with
  | postInteractionCountersStory story_id views forwards reactions =>
      {| MessageStats.messageId := 0;
         MessageStats.storyId := story_id;
         MessageStats.viewsCount := views;
         MessageStats.forwardsCount := forwards;
         MessageStats.reactionsCount := reactions |}
  | postInteractionCountersMessage msg_id views forwards reactions =>
      {| MessageStats.messageId := msg_id;
         MessageStats.storyId := 0;
         MessageStats.viewsCount := views;
         MessageStats.forwardsCount := forwards;
         MessageStats.reactionsCount := reactions |}
  end.

Definition ChannelStatisticsFromTL (data : MTPDstats_broadcastStats)
  : ChannelStatistics :=
  let unmuted := unmuted (venabled_notifications data) in
  let recentMessages := map recentMessage (vrecent_posts_interactions data) in
  {| startDate := vmin_date (vperiod data);
     endDate := vmax_date (vperiod data);
     memberCount := StatisticalValueFromTL (vfollowers data);
     meanViewCount := StatisticalValueFromTL (vviews_per_post data);
     meanShareCount := StatisticalValueFromTL (vshares_per_post data);
     meanReactionCount := StatisticalValueFromTL (vreactions_per_post data);
     meanStoryViewCount := StatisticalValueFromTL (vviews_per_story data);
     meanStoryShareCount := StatisticalValueFromTL (vshares_per_story data);
     meanStoryReactionCount :=
       StatisticalValueFromTL (vreactions_per_story data);
     enabledNotificationsPercentage := unmuted;
     memberCountGraph := StatisticalGraphFromTL (vgrowth_graph data);
     joinGraph := StatisticalGraphFromTL (vfollowers_graph data);
     muteGraph := StatisticalGraphFromTL (vmute_graph data);
     viewCountByHourGraph := StatisticalGraphFromTL (vtop_hours_graph data);
     viewCountBySourceGraph :=
       StatisticalGraphFromTL (vviews_by_source_graph data);
     joinBySourceGraph :=
       StatisticalGraphFromTL (vnew_followers_by_source_graph data);
     languageGraph := StatisticalGraphFromTL (vlanguages_graph data);
     messageInteractionGraph :=
       StatisticalGraphFromTL (vinteractions_graph data);
     instantViewInteractionGraph :=
       StatisticalGraphFromTL (viv_interactions_graph data);
     reactionsByEmotionGraph :=
       StatisticalGraphFromTL (vreactions_by_emotion_graph data);
     storyInteractionsGraph :=
       StatisticalGraphFromTL (vstory_interactions_graph data);
     storyReactionsByEmotionGraph :=
       StatisticalGraphFromTL (vstory_reactions_by_emotion_graph data);
     recentMessageInteractions := recentMessages |}.

End Channel.

Module Supergroup.

Import Values.

Definition UserId := Z.

(** statsGroupTopPoster, statsGroupTopAdmin and statsGroupTopInviter; the
    [vuser_id] of each has the name of its record in front, and the
    [vmessages] of a poster is [vmessages_]. *)
Record MTPStatsGroupTopPoster := {
  poster_user_id : Z;
  vmessages_ : Z;
  vavg_chars : Z
}.

Record MTPStatsGroupTopAdmin := {
  admin_user_id : Z;
  vdeleted : Z;
  vkicked : Z;
  vbanned : Z
}.

Record MTPStatsGroupTopInviter := {
  inviter_user_id : Z;
  vinvitations : Z
}.

(** MTPDstats_megagroupStats *)
Record MTPDstats_megagroupStats := {
  vperiod : Channel.MTPStatsDateRangeDays;
  vmembers : MTPStatsAbsValueAndPrev;
  vmessages : MTPStatsAbsValueAndPrev;
  vviewers : MTPStatsAbsValueAndPrev;
  vposters : MTPStatsAbsValueAndPrev;
  vgrowth_graph : MTPStatsGraph;
  vmembers_graph : MTPStatsGraph;
  vnew_members_by_source_graph : MTPStatsGraph;
  vlanguages_graph : MTPStatsGraph;
  vmessages_graph : MTPStatsGraph;
  vactions_graph : MTPStatsGraph;
  vtop_hours_graph : MTPStatsGraph;
  vweekdays_graph : MTPStatsGraph;
  vtop_posters : list MTPStatsGroupTopPoster;
  vtop_admins : list MTPStatsGroupTopAdmin;
  vtop_inviters : list MTPStatsGroupTopInviter;
  vusers : list UserId
}.

Record StatisticsMessageSenderInfo := {
  sender_userId : UserId;
  sentMessageCount : Z;
  averageCharacterCount : Z
}.

Record StatisticsAdministratorActionsInfo := {
  admin_userId : UserId;
  deletedMessageCount : Z;
  bannedUserCount : Z;
  restrictedUserCount : Z
}.

Record StatisticsInviterInfo := {
  inviter_userId : UserId;
  addedMemberCount : Z
}.

(** Data::SupergroupStatistics *)
Record SupergroupStatistics := {
  startDate : Z;
  endDate : Z;
  memberCount : StatisticalValue;
  messageCount : StatisticalValue;
  viewerCount : StatisticalValue;
  senderCount : StatisticalValue;
  memberCountGraph : StatisticalGraph;
  joinGraph : StatisticalGraph;
  joinBySourceGraph : StatisticalGraph;
  languageGraph : StatisticalGraph;
  messageContentGraph : StatisticalGraph;
  actionGraph : StatisticalGraph;
  dayGraph : StatisticalGraph;
  weekGraph : StatisticalGraph;
  topSenders : list StatisticsMessageSenderInfo;
  topAdministrators : list StatisticsAdministratorActionsInfo;
  topInviters : list StatisticsInviterInfo
}.

Definition noSupergroupStatistics : SupergroupStatistics :=
  {| startDate := 0;
     endDate := 0;
     memberCount := Channel.noValue;
     messageCount := Channel.noValue;
     viewerCount := Channel.noValue;
     senderCount := Channel.noValue;
     memberCountGraph := emptyGraph;
     joinGraph := emptyGraph;
     joinBySourceGraph := emptyGraph;
     languageGraph := emptyGraph;
     messageContentGraph := emptyGraph;
     actionGraph := emptyGraph;
     dayGraph := emptyGraph;
     weekGraph := emptyGraph;
     topSenders := [];
     topAdministrators := [];
     topInviters := [] |}.

Definition SupergroupStatisticsFromTL (data : MTPDstats_megagroupStats)
  : SupergroupStatistics :=
  let topSenders :=
    map (λ tl, {| sender_userId := poster_user_id tl;
                  sentMessageCount := vmessages_ tl;
                  averageCharacterCount := vavg_chars tl |})
      (vtop_posters data) in
  let topAdministrators :=
    map (λ tl, {| admin_userId := admin_user_id tl;
                  deletedMessageCount := vdeleted tl;
                  bannedUserCount := vkicked tl;
                  restrictedUserCount := vbanned tl |})
      (vtop_admins data) in
  let topInviters :=
    map (λ tl, {| inviter_userId := inviter_user_id tl;
                  addedMemberCount := vinvitations tl |})
      (vtop_inviters data) in
  {| startDate := Channel.vmin_date (vperiod data);
     endDate := Channel.vmax_date (vperiod data);
     memberCount := StatisticalValueFromTL (vmembers data);
     messageCount := StatisticalValueFromTL (vmessages data);
     viewerCount := StatisticalValueFromTL (vviewers data);
     senderCount := StatisticalValueFromTL (vposters data);
     memberCountGraph := StatisticalGraphFromTL (vgrowth_graph data);
     joinGraph := StatisticalGraphFromTL (vmembers_graph data);
     joinBySourceGraph :=
       StatisticalGraphFromTL (vnew_members_by_source_graph data);
     languageGraph := StatisticalGraphFromTL (vlanguages_graph data);
     messageContentGraph := StatisticalGraphFromTL (vmessages_graph data);
     actionGraph := StatisticalGraphFromTL (vactions_graph data);
     dayGraph := StatisticalGraphFromTL (vtop_hours_graph data);
     weekGraph := StatisticalGraphFromTL (vweekdays_graph data);
     topSenders := topSenders;
     topAdministrators := topAdministrators;
     topInviters := topInviters |}.

End Supergroup.

(** ** Statistics::request *)

Module StatsRequest.

Definition RequestId := Z.
Definition ConsumerId := nat.

(** The handlers of the request in flight, with the consumer they hold. *)
Inductive Handler :=
| BroadcastHandler (consumer : ConsumerId)
| MegagroupHandler (consumer : ConsumerId).

Record State := {
  isMegagroup : bool;
  _channelStats : Channel.ChannelStatistics;
  _supergroupStats : Supergroup.SupergroupStatistics;
  inFlight : list (RequestId * Handler);
  nextRequestId : RequestId
}.

(** A freshly constructed Statistics object. *)
Definition init (megagroup : bool) : State :=
  {| isMegagroup := megagroup;
     _channelStats := Channel.noChannelStatistics;
     _supergroupStats := Supergroup.noSupergroupStatistics;
     inFlight := [];
     nextRequestId := 1 |}.

(** What the transport, the owner's directory of users and the consumers
    see. *)
Inductive Output :=
| SendGetBroadcastStats (id : RequestId)
| SendGetMegagroupStats (id : RequestId)
| ProcessUsers (users : list Supergroup.UserId)
| PutDone (c : ConsumerId)
| PutError (c : ConsumerId) (error : string).

(** A consumer subscribes to the producer returned by [request], or the
    transport answers a request: with the statistics the request asked for,
    or with an error. *)
Inductive Event :=
| Subscribe (c : ConsumerId)
| BroadcastDone (id : RequestId) (result : Channel.MTPDstats_broadcastStats)
| MegagroupDone (id : RequestId) (result : Supergroup.MTPDstats_megagroupStats)
| Fail (id : RequestId) (error : string).

Definition send (h : Handler) (s : State) : State :=
  {| isMegagroup := isMegagroup s;
     _channelStats := _channelStats s;
     _supergroupStats := _supergroupStats s;
     inFlight := inFlight s ++ [(nextRequestId s, h)];
     nextRequestId := nextRequestId s + 1 |}.

(** The subscription lambda of Statistics::request.  (The tracking of the
    request by makeRequest is the matter of the module Sender.) *)
Definition request (c : ConsumerId) (s : State) : State * list Output :=
  if negb (isMegagroup s)
  then (send (BroadcastHandler c) s, [SendGetBroadcastStats (nextRequestId s)])
  else (send (MegagroupHandler c) s, [SendGetMegagroupStats (nextRequestId s)]).

Fixpoint findRequest (id : RequestId) (l : list (RequestId * Handler))
  : option Handler :=
  match l with
  | [] => None
  | (id', h) :: l' => if id =? id' then Some h else findRequest id l'
  end.

Fixpoint removeRequest (id : RequestId) (l : list (RequestId * Handler))
  : list (RequestId * Handler) :=
  match l with
  | [] => []
  | (id', h) :: l' =>
      if id =? id' then removeRequest id l' else (id', h) :: removeRequest id l'
  end.

Definition answered (id : RequestId) (s : State) : State :=
  {| isMegagroup := isMegagroup s;
     _channelStats := _channelStats s;
     _supergroupStats := _supergroupStats s;
     inFlight := removeRequest id (inFlight s);
     nextRequestId := nextRequestId s |}.

(** The done handlers. *)
Definition onBroadcastDone (c : ConsumerId)
    (result : Channel.MTPDstats_broadcastStats) (s : State)
  : State * list Output :=
  ({| isMegagroup := isMegagroup s;
      _channelStats := Channel.ChannelStatisticsFromTL result;
      _supergroupStats := _supergroupStats s;
      inFlight := inFlight s;
      nextRequestId := nextRequestId s |},
   [PutDone c]).

Definition onMegagroupDone (c : ConsumerId)
    (data : Supergroup.MTPDstats_megagroupStats) (s : State)
  : State * list Output :=
  ({| isMegagroup := isMegagroup s;
      _channelStats := _channelStats s;
      _supergroupStats := Supergroup.SupergroupStatisticsFromTL data;
      inFlight := inFlight s;
      nextRequestId := nextRequestId s |},
   [ProcessUsers (Supergroup.vusers data); PutDone c]).

(** The fail handler of both requests. *)
Definition onFail (c : ConsumerId) (error : string) (s : State)
  : State * list Output :=
  (s, [PutError c error]).

Definition consumerOf (h : Handler) : ConsumerId :=
  match h with
  | BroadcastHandler c | MegagroupHandler c => c
  end.

(** An answer to a request that is not in flight, or of the type of the
    other request, does not happen and is skipped. *)
Definition step (s : State) (e : Event) : State * list Output :=
  match e with
  | Subscribe c => request c s
  | BroadcastDone id result =>
      match findRequest id (inFlight s) with
      | Some (BroadcastHandler c) => onBroadcastDone c result (answered id s)
      | _ => (s, [])
      end
  | MegagroupDone id result =>
      match findRequest id (inFlight s) with
      | Some (MegagroupHandler c) => onMegagroupDone c result (answered id s)
      | _ => (s, [])
      end
  | Fail id error =>
      match findRequest id (inFlight s) with
      | Some h => onFail (consumerOf h) error (answered id s)
      | None => (s, [])
      end
  end.

Fixpoint runFrom (s : State) (evs : list Event) : State * list Output :=
  match evs with
  | [] => (s, [])
  | e :: evs' =>
      let '(s1, out1) := step s e in
      let '(s2, out2) := runFrom s1 evs' in
      (s2, out1 ++ out2)
  end.

(** How often a consumer subscribes, is told the end ([put_done]) or an
    error, and how many requests in flight hold it. *)
Fixpoint subscriptions (c : ConsumerId) (evs : list Event) : nat :=
  match evs with
  | [] => 0
  | Subscribe c' :: evs' =>
      ((if Nat.eqb c c' then 1 else 0) + subscriptions c evs')%nat
  | _ :: evs' => subscriptions c evs'
  end.

Fixpoint terminals (c : ConsumerId) (out : list Output) : nat :=
  match out with
  | [] => 0
  | PutDone c' :: out' | PutError c' _ :: out' =>
      ((if Nat.eqb c c' then 1 else 0) + terminals c out')%nat
  | _ :: out' => terminals c out'
  end.

Fixpoint waiting (c : ConsumerId) (l : list (RequestId * Handler)) : nat :=
  match l with
  | [] => 0
  | (_, h) :: l' =>
      ((if Nat.eqb c (consumerOf h) then 1 else 0) + waiting c l')%nat
  end.

(** The ids in flight are distinct and were allocated already. *)
Definition wellFormed (s : State) : Prop :=
  NoDup (map fst (inFlight s))
  ∧ Forall (λ p, fst p < nextRequestId s) (inFlight s).

End StatsRequest.

(** ** Boosts::request and Boosts::requestBoosts *)

Module BoostsRequest.

Import Values.

Definition RequestId := Z.
Definition ConsumerId := nat.
Definition UserId := Z.

(** prepaidGiveaway id:long months:int quantity:int date:int (its id and
    date are [giveaway_vid] and [giveaway_vdate] here, apart from those of
    a boost). *)
Record MTPPrepaidGiveaway := {
  vmonths : Z;
  giveaway_vid : Z;
  vquantity : Z;
  giveaway_vdate : Z
}.

(** Data::BoostPrepaidGiveaway; a QDateTime made by fromSecsSinceEpoch is
    kept as its seconds. *)
Record BoostPrepaidGiveaway := {
  months : Z;
  id : Z;
  quantity : Z;
  date : Z
}.

(** MTPpremium_BoostsStatus as the done handler reads it: the part the
    overview is made of, the link and the prepaid giveaways. *)
Record StatusResult := {
  status : Boosts.MTPpremium_BoostsStatus;
  vboost_url : string;
  vprepaid_giveaways : option (list MTPPrepaidGiveaway)
}.

(** MTPBoost *)
Record MTPBoost := {
  is_gift : bool;
  is_giveaway : bool;
  is_unclaimed : bool;
  vid : string;
  vuser_id : option UserId;
  vgiveaway_msg_id : option Z;
  vdate : Z;
  vexpires : Z;
  vused_gift_slug : option string;
  vmultiplier : option Z
}.

(** MTPpremium_BoostsList *)
Record MTPpremium_BoostsList := {
  vcount : Z;
  vboosts : list MTPBoost;
  vnext_offset : option string;
  vusers : list UserId
}.

(** Data::GiftCodeLink, Data::Boost and Data::BoostsListSlice. *)
Record GiftCodeLink := {
  text : string;
  link : string;
  slug : string
}.

Definition noGiftCodeLink : GiftCodeLink :=
  {| text := ""; link := ""; slug := "" |}.

Record Boost := {
  isGift : bool;
  isGiveaway : bool;
  isUnclaimed : bool;
  boostId : string;
  userId : UserId;
  giveawayMessage : Forwards.FullMsgId;
  boostDate : Z;
  expiresAt : Z;
  expiresAfterMonths : Z;
  giftCodeLink : GiftCodeLink;
  multiplier : Z
}.

Record OffsetToken := {
  next : string;
  gifts : bool
}.

Record BoostsListSlice := {
  list_ : list Boost;
  multipliedTotal : Z;
  allLoaded : bool;
  token : OffsetToken
}.

Definition emptyListSlice : BoostsListSlice :=
  {| list_ := []; multipliedTotal := 0; allLoaded := false;
     token := {| next := ""; gifts := false |} |}.

(** Data::BoostStatus *)
Record BoostStatus := {
  overview : Boosts.BoostsOverview;
  firstSliceBoosts : BoostsListSlice;
  firstSliceGifts : BoostsListSlice;
  prepaidGiveaway : list BoostPrepaidGiveaway;
  boostLink : string
}.

(** The value-initialised status of a freshly constructed Boosts object. *)
Definition noBoostStatus : BoostStatus :=
  {| overview :=
       {| Boosts.mine := 0;
          Boosts.level := 0;
          Boosts.boostCount := 0;
          Boosts.currentLevelBoostCount := 0;
          Boosts.nextLevelBoostCount := 0;
          Boosts.premiumMemberCount := 0;
          Boosts.premiumMemberPercentage := zero64 |};
     firstSliceBoosts := emptyListSlice;
     firstSliceGifts := emptyListSlice;
     prepaidGiveaway := [];
     boostLink := "" |}.

(** [constexpr auto kMonthsDivider = int(30 * 86400)] *)
Definition kMonthsDivider : Z := 30 * 86400.

(** The [done] callbacks handed to requestBoosts: the two lambdas of
    Boosts::request, with the consumer they hold, or a callback of another
    caller, told apart by a name. *)
Inductive Done :=
| FirstBoosts (consumer : ConsumerId)
| FirstGifts (consumer : ConsumerId)
| Caller (k : nat).

(** The handlers of a request in flight, with what their closures hold. *)
Inductive Handler :=
| StatusHandler (consumer : ConsumerId)
| ListHandler (gifts : bool) (done : Done).

(** [isChannel] is [_peer->asChannel() != nullptr], [isMegagroup] what the
    channel answers, [peerId] is [_peer->id]. *)
Record State := {
  isChannel : bool;
  isMegagroup : bool;
  peerId : Forwards.PeerId;
  _requestId : RequestId;
  _boostStatus : BoostStatus;
  inFlight : list (RequestId * Handler);
  nextRequestId : RequestId
}.

(** A freshly constructed Boosts object for a peer. *)
Definition init (channel megagroup : bool) (peer : Forwards.PeerId) : State :=
  {| isChannel := channel;
     isMegagroup := megagroup;
     peerId := peer;
     _requestId := 0;
     _boostStatus := noBoostStatus;
     inFlight := [];
     nextRequestId := 1 |}.

(** What the transport, the owner's directory of users, the consumers and
    the other callers see. *)
Inductive Output :=
| SendGetBoostsStatus (id : RequestId)
| SendGetBoostsList (id : RequestId) (gifts : bool) (offset : string)
    (limit : Z)
| ProcessUsers (users : list UserId)
| PutDone (c : ConsumerId)
| PutError (c : ConsumerId) (error : string)
| CallDone (k : nat) (slice : BoostsListSlice).

(** A consumer subscribes to the producer returned by [request], a caller
    asks for a page of boosts with its own callback, or the transport
    answers a request. *)
Inductive Event :=
| Subscribe (c : ConsumerId)
| RequestBoosts (token : OffsetToken) (k : nat)
| StatusDone (id : RequestId) (result : StatusResult)
| ListDone (id : RequestId) (result : MTPpremium_BoostsList)
| Fail (id : RequestId) (error : string).

Definition setStatus (b : BoostStatus) (s : State) : State :=
  {| isChannel := isChannel s;
     isMegagroup := isMegagroup s;
     peerId := peerId s;
     _requestId := _requestId s;
     _boostStatus := b;
     inFlight := inFlight s;
     nextRequestId := nextRequestId s |}.

Definition setRequestId (id : RequestId) (s : State) : State :=
  {| isChannel := isChannel s;
     isMegagroup := isMegagroup s;
     peerId := peerId s;
     _requestId := id;
     _boostStatus := _boostStatus s;
     inFlight := inFlight s;
     nextRequestId := nextRequestId s |}.

(** [.send()]: the transport allocates the id and keeps the handlers. *)
Definition send (h : Handler) (s : State) : State :=
  {| isChannel := isChannel s;
     isMegagroup := isMegagroup s;
     peerId := peerId s;
     _requestId := _requestId s;
     _boostStatus := _boostStatus s;
     inFlight := inFlight s ++ [(nextRequestId s, h)];
     nextRequestId := nextRequestId s + 1 |}.

Fixpoint findRequest (id : RequestId) (l : list (RequestId * Handler))
  : option Handler :=
  match l with
  | [] => None
  | (id', h) :: l' => if id =? id' then Some h else findRequest id l'
  end.

Fixpoint removeRequest (id : RequestId) (l : list (RequestId * Handler))
  : list (RequestId * Handler) :=
  match l with
  | [] => []
  | (id', h) :: l' =>
      if id =? id' then removeRequest id l' else (id', h) :: removeRequest id l'
  end.

Definition answered (id : RequestId) (s : State) : State :=
  {| isChannel := isChannel s;
     isMegagroup := isMegagroup s;
     peerId := peerId s;
     _requestId := _requestId s;
     _boostStatus := _boostStatus s;
     inFlight := removeRequest id (inFlight s);
     nextRequestId := nextRequestId s |}.

Section WithSession.

(** [createInternalLink] and [createInternalLinkFull] belong to the
    session; [kFirstSlice] and [kLimit] are constants of the class. *)
Variable createInternalLink : string → string.
Variable createInternalLinkFull : string → string.
Variable kFirstSlice : Z.
Variable kLimit : Z.

(** The body of the loop of the done handler of requestBoosts.  The
    difference of the two dates and its division by [kMonthsDivider] are
    those of ints: the difference wraps around and the quotient is cut
    toward zero. *)
Definition decodeBoost (peer : Forwards.PeerId) (data : MTPBoost) : Boost :=
  let path :=
    match vused_gift_slug data with
    | Some slug => ("giftcode/" ++ slug)%string
    | None => ""%string
    end in
  let giftCodeLink :=
    if negb (String.eqb path "")
    then {| text := createInternalLink path;
            link := createInternalLinkFull path;
            slug := default ""%string (vused_gift_slug data) |}
    else noGiftCodeLink in
  {| isGift := is_gift data;
     isGiveaway := is_giveaway data;
     isUnclaimed := is_unclaimed data;
     boostId := vid data;
     userId := default 0 (vuser_id data);
     giveawayMessage :=
       match vgiveaway_msg_id data with
       | Some msg => {| Forwards.peer := peer; Forwards.msg := msg |}
       | None => Forwards.noMsgId
       end;
     boostDate := vdate data;
     expiresAt := vexpires data;
     expiresAfterMonths :=
       Z.quot (int_sub (vexpires data) (vdate data)) kMonthsDivider;
     giftCodeLink := giftCodeLink;
     multiplier := default 0 (vmultiplier data) |}.

(** The slice the done handler hands to [done]. *)
Definition decodeList (peer : Forwards.PeerId) (gifts : bool)
    (data : MTPpremium_BoostsList) : BoostsListSlice :=
  {| list_ := map (decodeBoost peer) (vboosts data);
     multipliedTotal := vcount data;
     allLoaded := vcount data =? Z.of_nat (length (vboosts data));
     token := {| next := default ""%string (vnext_offset data);
                 gifts := gifts |} |}.

(** Boosts::requestBoosts up to [send()]. *)
Definition requestBoosts (token : OffsetToken) (done : Done) (s : State)
  : State * list Output :=
  if negb (_requestId s =? 0) then (s, [])
  else
    let gifts := gifts token in
    let id := nextRequestId s in
    (setRequestId id (send (ListHandler gifts done) s),
     [SendGetBoostsList id gifts (next token)
        (if String.eqb (next token) "" then kFirstSlice else kLimit)]).

(** Calling a [done] callback with a slice: the two lambdas of
    Boosts::request, or the callback of another caller. *)
Definition callDone (done : Done) (slice : BoostsListSlice) (s : State)
  : State * list Output :=
  match done with
  | FirstBoosts c =>
      let b := _boostStatus s in
      requestBoosts {| next := ""; gifts := true |} (FirstGifts c)
        (setStatus
           {| overview := overview b;
              firstSliceBoosts := slice;
              firstSliceGifts := firstSliceGifts b;
              prepaidGiveaway := prepaidGiveaway b;
              boostLink := boostLink b |} s)
  | FirstGifts c =>
      let b := _boostStatus s in
      (setStatus
         {| overview := overview b;
            firstSliceBoosts := firstSliceBoosts b;
            firstSliceGifts := slice;
            prepaidGiveaway := prepaidGiveaway b;
            boostLink := boostLink b |} s,
       [PutDone c])
  | Caller k => (s, [CallDone k slice])
  end.

(** The done and fail handlers of requestBoosts. *)
Definition onListDone (gifts : bool) (done : Done)
    (data : MTPpremium_BoostsList) (s : State) : State * list Output :=
  let s1 := setRequestId 0 s in
  let '(s2, out) := callDone done (decodeList (peerId s) gifts data) s1 in
  (s2, ProcessUsers (vusers data) :: out).

Definition onListFail (s : State) : State * list Output :=
  (setRequestId 0 s, []).

(** The done and fail handlers of the status request. *)
Definition onStatusDone (c : ConsumerId) (result : StatusResult) (s : State)
  : State * list Output :=
  let b := _boostStatus s in
  requestBoosts {| next := ""; gifts := false |} (FirstBoosts c)
    (setStatus
       {| overview := Boosts.overview (status result);
          firstSliceBoosts := firstSliceBoosts b;
          firstSliceGifts := firstSliceGifts b;
          prepaidGiveaway :=
            match vprepaid_giveaways result with
            | Some giveaways =>
                map (λ r, {| months := vmonths r;
                             id := giveaway_vid r;
                             quantity := vquantity r;
                             date := giveaway_vdate r |}) giveaways
            | None => prepaidGiveaway b
            end;
          boostLink := vboost_url result |} s).

Definition onStatusFail (c : ConsumerId) (error : string) (s : State)
  : State * list Output :=
  (s, [PutError c error]).

(** The subscription lambda of Boosts::request. *)
Definition request (c : ConsumerId) (s : State) : State * list Output :=
  if negb (isChannel s) || isMegagroup s then (s, [])
  else (send (StatusHandler c) s, [SendGetBoostsStatus (nextRequestId s)]).

(** An answer to a request that is not in flight, or of another type than
    the request expects, does not happen and is skipped. *)
Definition step (s : State) (e : Event) : State * list Output :=
  match e with
  | Subscribe c => request c s
  | RequestBoosts token k => requestBoosts token (Caller k) s
  | StatusDone id result =>
      match findRequest id (inFlight s) with
      | Some (StatusHandler c) => onStatusDone c result (answered id s)
      | _ => (s, [])
      end
  | ListDone id result =>
      match findRequest id (inFlight s) with
      | Some (ListHandler gifts done) =>
          onListDone gifts done result (answered id s)
      | _ => (s, [])
      end
  | Fail id error =>
      match findRequest id (inFlight s) with
      | Some (StatusHandler c) => onStatusFail c error (answered id s)
      | Some (ListHandler _ _) => onListFail (answered id s)
      | None => (s, [])
      end
  end.

Fixpoint runFrom (s : State) (evs : list Event) : State * list Output :=
  match evs with
  | [] => (s, [])
  | e :: evs' =>
      let '(s1, out1) := step s e in
      let '(s2, out2) := runFrom s1 evs' in
      (s2, out1 ++ out2)
  end.

End WithSession.

(** How often a consumer subscribes and is told the end or an error, and
    how many requests in flight hold it. *)
Fixpoint subscriptions (c : ConsumerId) (evs : list Event) : nat :=
  match evs with
  | [] => 0
  | Subscribe c' :: evs' =>
      ((if Nat.eqb c c' then 1 else 0) + subscriptions c evs')%nat
  | _ :: evs' => subscriptions c evs'
  end.

Fixpoint terminals (c : ConsumerId) (out : list Output) : nat :=
  match out with
  | [] => 0
  | PutDone c' :: out' | PutError c' _ :: out' =>
      ((if Nat.eqb c c' then 1 else 0) + terminals c out')%nat
  | _ :: out' => terminals c out'
  end.

Definition holds (c : ConsumerId) (h : Handler) : bool :=
  match h with
  | StatusHandler c'
  | ListHandler _ (FirstBoosts c')
  | ListHandler _ (FirstGifts c') => Nat.eqb c c'
  | ListHandler _ (Caller _) => false
  end.

Fixpoint waiting (c : ConsumerId) (l : list (RequestId * Handler)) : nat :=
  match l with
  | [] => 0
  | (_, h) :: l' => ((if holds c h then 1 else 0) + waiting c l')%nat
  end.

(** Nothing is in flight and a page can be asked for. *)
Definition idle (s : State) : Prop :=
  inFlight s = [] ∧ _requestId s = 0.

(** The list requests in flight. *)
Definition isListRequest (p : RequestId * Handler) : bool :=
  match snd p with
  | ListHandler _ _ => true
  | StatusHandler _ => false
  end.

(** The ids of the list requests in flight. *)
Definition listIds (l : list (RequestId * Handler)) : list RequestId :=
  map fst (List.filter isListRequest l).

(** The ids in flight are distinct and were allocated, from a counter that
    started above zero; the list request in flight, if there is one, is the
    one [_requestId] names, and there is none when it is zero. *)
Definition singleList (s : State) : Prop :=
  0 < nextRequestId s
  ∧ Forall (λ p, 0 < fst p < nextRequestId s) (inFlight s)
  ∧ NoDup (map fst (inFlight s))
  ∧ listIds (inFlight s)
    = (if _requestId s =? 0 then [] else [_requestId s]).

End BoostsRequest.

(** * Properties *)

(** ** The arithmetic of ints *)

Section IntFacts.

Import Values.

Lemma int_wrap_range (z : Z) : - 2 ^ 31 ≤ int_wrap z < 2 ^ 31.
Proof.
  unfold int_wrap. pose proof (Z.mod_pos_bound (z + 2 ^ 31) (2 ^ 32)). lia.
Qed.

Lemma int_wrap_small (z : Z) : - 2 ^ 31 ≤ z < 2 ^ 31 → int_wrap z = z.
Proof.
  intros H. unfold int_wrap. rewrite Z.mod_small; lia.
Qed.

End IntFacts.

(** ** Binary64 arithmetic *)

Section Binary64Facts.

Import Values.

(** Shifting a mantissa to the right [n] times. *)
Lemma iter_pos_nat {A} (f : A → A) (n : positive) (x : A) :
  SpecFloat.iter_pos f n x = Nat.iter (Pos.to_nat n) f x.
Proof.
  revert x. induction n as [n IH|n IH|]; intros x; cbn [SpecFloat.iter_pos].
  - rewrite !IH, Pos2Nat.inj_xI. cbn [Nat.iter].
    rewrite <- Nat.iter_add, <- Nat.iter_succ_r. f_equal. lia.
  - rewrite !IH, Pos2Nat.inj_xO, <- Nat.iter_add. f_equal. lia.
  - reflexivity.
Qed.

Lemma shr_1_spec (mrs : shr_record) :
  0 ≤ shr_m mrs →
  shr_m (shr_1 mrs) = shr_m mrs / 2
  ∧ inexact (shr_1 mrs) = inexact mrs || Z.odd (shr_m mrs).
Proof.
  destruct mrs as [m r s]. unfold inexact. cbn [shr_m shr_r shr_s shr_1].
  intros Hm. destruct m as [|[p|p|]|p]; try lia; cbn [shr_m shr_r shr_s].
  - split; [reflexivity | cbn; destruct r, s; reflexivity].
  - split; [| cbn; destruct r, s; reflexivity].
    rewrite Pos2Z.inj_xI. apply Z.div_unique with (r := 1); lia.
  - split; [| cbn; destruct r, s; reflexivity].
    rewrite Pos2Z.inj_xO. apply Z.div_unique with (r := 0); lia.
  - split; [reflexivity | cbn; destruct r, s; reflexivity].
Qed.

Lemma shr_iter_spec (j : nat) (mrs : shr_record) :
  0 ≤ shr_m mrs →
  shr_m (Nat.iter j shr_1 mrs) = shr_m mrs / 2 ^ Z.of_nat j
  ∧ inexact (Nat.iter j shr_1 mrs)
    = inexact mrs || negb (shr_m mrs mod 2 ^ Z.of_nat j =? 0).
Proof.
  intros Hm. induction j as [|j [IH1 IH2]].
  - change (Nat.iter 0 shr_1 mrs) with mrs.
    rewrite Z.div_1_r, Z.mod_1_r. cbn. now rewrite orb_false_r.
  - change (Nat.iter (S j) shr_1 mrs) with (shr_1 (Nat.iter j shr_1 mrs)).
    assert (0 ≤ shr_m (Nat.iter j shr_1 mrs)) as H0.
    { rewrite IH1. apply Z.div_pos; lia. }
    destruct (shr_1_spec _ H0) as [H1 H2]. rewrite H1, H2, IH1, IH2.
    rewrite Nat2Z.inj_succ, Z.pow_succ_r by lia.
    set (P := 2 ^ Z.of_nat j) in *. assert (0 < P) by (subst P; lia).
    split.
    + rewrite Z.div_div by lia. f_equal. lia.
    + rewrite <- orb_assoc. f_equal.
      pose proof (Z.div_mod (shr_m mrs) P ltac:(lia)) as Hd.
      pose proof (Z.mod_pos_bound (shr_m mrs) P ltac:(lia)) as Hb.
      set (q := shr_m mrs / P) in *. set (r := shr_m mrs mod P) in *.
      replace (2 * P) with (P * 2) by lia.
      rewrite Z.rem_mul_r by lia. fold q r. rewrite Zmod_odd.
      destruct (Z.odd q); destruct (Z.eqb_spec r 0) as [E|E];
        match goal with |- context [?a =? 0] =>
          lazymatch a with r => fail | _ => destruct (Z.eqb_spec a 0) end end;
        cbn; try reflexivity; lia.
Qed.

Ltac pow_atoms :=
  repeat match goal with
         | |- context [2 ^ ?e] =>
             let a := fresh "pw" in
             let H := fresh "Hpw" in
             assert (H : 0 < 2 ^ e) by (apply Z.pow_pos_nonneg; lia);
             set (a := 2 ^ e) in *; clearbody a
         | _ : context [2 ^ ?e] |- _ =>
             let a := fresh "pw" in
             let H := fresh "Hpw" in
             assert (H : 0 < 2 ^ e) by (apply Z.pow_pos_nonneg; lia);
             set (a := 2 ^ e) in *; clearbody a
         end.

(** The number of bits of a mantissa. *)
Lemma digits2_pos_spec (p : positive) :
  2 ^ (Z.pos (digits2_pos p) - 1) ≤ Z.pos p < 2 ^ Z.pos (digits2_pos p).
Proof.
  induction p as [p IH|p IH|]; cbn [digits2_pos].
  - rewrite Pos2Z.inj_succ, (Pos2Z.inj_xI p).
    replace (Z.succ (Z.pos (digits2_pos p)) - 1) with (Z.succ (Z.pos (digits2_pos p) - 1)) by lia.
    rewrite !Z.pow_succ_r by lia. pow_atoms. lia.
  - rewrite Pos2Z.inj_succ, (Pos2Z.inj_xO p).
    replace (Z.succ (Z.pos (digits2_pos p)) - 1) with (Z.succ (Z.pos (digits2_pos p) - 1)) by lia.
    rewrite !Z.pow_succ_r by lia. pow_atoms. lia.
  - split; [discriminate | reflexivity].
Qed.

Lemma Zdigits2_unique (m d : Z) :
  2 ^ (d - 1) ≤ m < 2 ^ d → 0 < d → Zdigits2 m = d.
Proof.
  intros [H1 H2] Hd.
  assert (0 < 2 ^ (d - 1)) as Hp by (apply Z.pow_pos_nonneg; lia).
  destruct m as [|p|p]; try (exfalso; lia).
  cbn [Zdigits2]. pose proof (digits2_pos_spec p) as [H3 H4].
  set (d' := Z.pos (digits2_pos p)) in *.
  assert (0 < d') by (subst d'; lia).
  destruct (Z.lt_trichotomy d d') as [L|[E|L]]; [| exact (eq_sym E) |].
  - assert (2 ^ d ≤ 2 ^ (d' - 1)) by (apply Z.pow_le_mono_r; lia). lia.
  - assert (2 ^ d' ≤ 2 ^ (d - 1)) by (apply Z.pow_le_mono_r; lia). lia.
Qed.

Lemma Zdigits2_le (m n : Z) : 0 ≤ n → 0 ≤ m < 2 ^ n → Zdigits2 m ≤ n.
Proof.
  intros Hn [H1 H2]. destruct m as [|p|p]; [exact Hn | | lia].
  cbn [Zdigits2]. pose proof (digits2_pos_spec p) as [H3 H4].
  set (d' := Z.pos (digits2_pos p)) in *.
  destruct (Z.le_gt_cases d' n) as [L|L]; [exact L |].
  assert (2 ^ n ≤ 2 ^ (d' - 1)) by (apply Z.pow_le_mono_r; lia). lia.
Qed.

(** The exponent of the format in the normal range. *)
Lemma fexp_normal (e : Z) : -1021 ≤ e → fexp 53 1024 e = e - 53.
Proof. intros H. unfold fexp, emin. lia. Qed.

(** [shr_fexp] in terms of the number of bits shifted out. *)
Lemma shr_fexp_spec (m e : Z) (l : location) :
  0 ≤ m →
  let k := Z.max 0 (fexp 53 1024 (Zdigits2 m + e) - e) in
  let '(mrs, e') := shr_fexp 53 1024 m e l in
  e' = e + k
  ∧ shr_m mrs = m / 2 ^ k
  ∧ inexact mrs
    = negb (match l with loc_Exact => true | _ => false end)
      || negb (m mod 2 ^ k =? 0).
Proof.
  intros Hm k. unfold shr_fexp, shr. subst k.
  assert (inexact (shr_record_of_loc m l)
          = negb (match l with loc_Exact => true | _ => false end)) as Hl.
  { destruct l as [|[]]; reflexivity. }
  assert (shr_m (shr_record_of_loc m l) = m) as Hm0.
  { destruct l as [|[]]; reflexivity. }
  destruct (fexp 53 1024 (Zdigits2 m + e) - e) as [|p|p] eqn:E.
  - rewrite Z.max_l by lia. rewrite Z.add_0_r, Z.div_1_r, Z.mod_1_r, Hm0, Hl.
    cbn. now rewrite orb_false_r.
  - rewrite Z.max_r by lia. rewrite iter_pos_nat.
    destruct (shr_iter_spec (Pos.to_nat p) (shr_record_of_loc m l)) as [H1 H2];
      [now rewrite Hm0 |].
    rewrite positive_nat_Z in H1, H2. rewrite H1, H2, Hm0, Hl. auto.
  - rewrite Z.max_l by lia. rewrite Z.add_0_r, Z.div_1_r, Z.mod_1_r, Hm0, Hl.
    cbn. now rewrite orb_false_r.
Qed.

Lemma loc_exact_iff (mrs : shr_record) :
  inexact mrs = false → loc_of_shr_record mrs = loc_Exact.
Proof. destruct mrs as [m [] []]; cbn; congruence. Qed.

Lemma round_nearest_even_bound (m : Z) (mrs : shr_record) (N : Z) :
  shr_m mrs = m → m ≤ N → (inexact mrs = true → m < N) →
  m ≤ round_nearest_even m (loc_of_shr_record mrs) ≤ N.
Proof.
  intros _ H1 H2. destruct mrs as [m' [] []]; unfold inexact in H2;
    cbn in H2 |- *; try destruct (Z.even m); lia.
Qed.

Lemma pow_split (a b : Z) : 0 ≤ a → 0 ≤ b → 2 ^ (a + b) = 2 ^ a * 2 ^ b.
Proof. intros. now rewrite Z.pow_add_r. Qed.

(** Shifting keeps a bound that is an integer. *)
Lemma shift_bound (B β m e k : Z) (strict : bool) :
  0 ≤ B < 2 ^ β → 0 ≤ β ≤ 53 → 0 ≤ m → e ≤ 0 →
  m ≤ B * 2 ^ (- e) → (strict = true → m < B * 2 ^ (- e)) →
  k = Z.max 0 (fexp 53 1024 (Zdigits2 m + e) - e) →
  e + k ≤ 0
  ∧ m / 2 ^ k ≤ B * 2 ^ (- (e + k))
  ∧ (strict || negb (m mod 2 ^ k =? 0) = true → m / 2 ^ k < B * 2 ^ (- (e + k))).
Proof.
  intros [HB0 HB] Hβ Hm He Hle Hlt ->.
  assert (Zdigits2 m ≤ β - e) as Hd.
  { apply Zdigits2_le; [lia |]. split; [lia |].
    replace (β - e) with (β + - e) by lia. rewrite pow_split by lia.
    assert (0 < 2 ^ (- e)) by (apply Z.pow_pos_nonneg; lia). nia. }
  set (k := Z.max 0 _).
  assert (0 ≤ k ∧ e + k ≤ 0) as [Hk Hek].
  { subst k. unfold fexp, emin. lia. }
  split; [exact Hek |].
  assert (2 ^ (- e) = 2 ^ (- (e + k)) * 2 ^ k) as Hsplit.
  { rewrite <- pow_split by lia. f_equal. lia. }
  assert (0 < 2 ^ k) as Hpk by (apply Z.pow_pos_nonneg; lia).
  assert (0 < 2 ^ (- (e + k))) as Hpe by (apply Z.pow_pos_nonneg; lia).
  set (N1 := B * 2 ^ (- (e + k))).
  assert (m ≤ N1 * 2 ^ k) as Hle' by (subst N1; rewrite Hsplit in Hle; lia).
  pose proof (Z.div_mod m (2 ^ k) ltac:(lia)) as Hdm.
  pose proof (Z.mod_pos_bound m (2 ^ k) Hpk) as Hmb.
  split.
  - apply Z.div_le_upper_bound; lia.
  - intros Hs. apply Z.div_lt_upper_bound; [lia |].
    apply orb_true_iff in Hs as [Hs|Hs].
    + specialize (Hlt Hs). rewrite Hsplit in Hlt. subst N1. lia.
    + apply negb_true_iff, Z.eqb_neq in Hs.
      destruct (Z.eq_dec m (N1 * 2 ^ k)) as [E|E]; [| lia].
      exfalso. apply Hs. rewrite E. apply Z.mod_mul. lia.
Qed.

Lemma round_aux_bound (B β : Z) (sx : bool) (m e : Z) (l : location) :
  0 ≤ B < 2 ^ β → 0 ≤ β ≤ 53 → 0 ≤ m → e ≤ 0 →
  m ≤ B * 2 ^ (- e) → (l ≠ loc_Exact → m < B * 2 ^ (- e)) →
  atMost sx B (binary_round_aux 53 1024 sx m e l).
Proof.
  intros HB Hβ Hm He Hle Hlt. unfold binary_round_aux.
  pose proof (shr_fexp_spec m e l Hm) as H1. cbv zeta in H1.
  destruct (shr_fexp 53 1024 m e l) as [mrs1 e1].
  destruct H1 as (-> & Hm1 & Hi1).
  set (k := Z.max 0 (fexp 53 1024 (Zdigits2 m + e) - e)) in *.
  destruct (shift_bound B β m e k
              (negb match l with loc_Exact => true | _ => false end)
              HB Hβ Hm He Hle) as (He1 & Hle1 & Hlt1); [| reflexivity |].
  { intros Hs. apply Hlt. destruct l; [discriminate | discriminate]. }
  rewrite <- Hi1, <- Hm1 in Hlt1. rewrite <- Hm1 in Hle1.
  assert (0 ≤ shr_m mrs1) as Hm1'.
  { rewrite Hm1. apply Z.div_pos; [lia | apply Z.pow_pos_nonneg; lia]. }
  pose proof (round_nearest_even_bound (shr_m mrs1) mrs1 _ eq_refl Hle1 Hlt1)
    as [Hr1 Hr2].
  set (m2 := round_nearest_even _ _) in *.
  pose proof (shr_fexp_spec m2 (e + k) loc_Exact ltac:(lia)) as H2.
  cbv zeta in H2.
  destruct (shr_fexp 53 1024 m2 (e + k) loc_Exact) as [mrs3 e3].
  destruct H2 as (-> & Hm3 & _).
  set (k2 := Z.max 0 (fexp 53 1024 (Zdigits2 m2 + (e + k)) - (e + k))) in *.
  destruct (shift_bound B β m2 (e + k) k2 false HB Hβ ltac:(lia) He1 Hr2)
    as (He3 & Hle3 & _); [discriminate | reflexivity |].
  rewrite <- Hm3 in Hle3.
  destruct (shr_m mrs3) as [|m3|m3] eqn:E3; cbn [atMost].
  - reflexivity.
  - replace (e + k + k2 <=? 1024 - 53) with true by (symmetry; apply Z.leb_le; lia).
    cbn [atMost]. auto.
  - assert (0 ≤ Z.neg m3); [| lia].
    rewrite Hm3. apply Z.div_pos; [lia | apply Z.pow_pos_nonneg; subst k2; lia].
Qed.

Lemma Zdigits2_pos (a : Z) : 0 < a → 0 < Zdigits2 a.
Proof. destruct a; cbn; lia. Qed.

Lemma Zdigits2_spec (a : Z) :
  0 < a → 2 ^ (Zdigits2 a - 1) ≤ a < 2 ^ Zdigits2 a.
Proof. destruct a as [|p|p]; try lia. intros _. apply digits2_pos_spec. Qed.

Lemma Zdigits2_shift (a j : Z) :
  0 < a → 0 ≤ j → Zdigits2 (a * 2 ^ j) = Zdigits2 a + j.
Proof.
  intros Ha Hj. pose proof (Zdigits2_spec a Ha) as [H1 H2].
  pose proof (Zdigits2_pos a Ha) as Hd.
  assert (0 < 2 ^ j) by (apply Z.pow_pos_nonneg; lia).
  apply Zdigits2_unique; [| lia].
  replace (Zdigits2 a + j - 1) with (Zdigits2 a - 1 + j) by lia.
  rewrite !pow_split by lia. nia.
Qed.

Lemma round_aux_exact (s : bool) (a j e : Z) :
  0 < a → Zdigits2 a ≤ 53 → 53 - Zdigits2 a ≤ j →
  -1074 ≤ e + j + Zdigits2 a - 53 ≤ 971 →
  binary_round_aux 53 1024 s (a * 2 ^ j) e loc_Exact
  = S754_finite s (Z.to_pos (a * 2 ^ (53 - Zdigits2 a)))
      (e + j + Zdigits2 a - 53).
Proof.
  intros Ha Hda Hj He.
  pose proof (Zdigits2_pos a Ha) as Hd0.
  set (da := Zdigits2 a) in *.
  assert (0 ≤ j) as Hj0 by lia.
  assert (0 < 2 ^ j) as Hpj by (apply Z.pow_pos_nonneg; lia).
  assert (Zdigits2 (a * 2 ^ j) = da + j) as HD by (now apply Zdigits2_shift).
  unfold binary_round_aux.
  pose proof (shr_fexp_spec (a * 2 ^ j) e loc_Exact ltac:(lia)) as H1.
  cbv zeta in H1. rewrite HD in H1.
  replace (Z.max 0 (fexp 53 1024 (da + j + e) - e)) with (da + j - 53) in H1
    by (unfold fexp, emin; lia).
  destruct (shr_fexp 53 1024 (a * 2 ^ j) e loc_Exact) as [mrs1 e1].
  destruct H1 as (-> & Hm1 & Hi1).
  set (k := da + j - 53) in *.
  assert (a * 2 ^ j = a * 2 ^ (53 - da) * 2 ^ k) as Hsplit.
  { rewrite <- Z.mul_assoc, <- pow_split by lia. do 2 f_equal. lia. }
  assert (0 < 2 ^ k) as Hpk by (apply Z.pow_pos_nonneg; lia).
  rewrite Hsplit, Z.div_mul in Hm1 by lia.
  rewrite Hsplit, Z.mod_mul in Hi1 by lia. cbn in Hi1.
  rewrite (loc_exact_iff _ Hi1). cbn [round_nearest_even]. rewrite Hm1.
  set (m1 := a * 2 ^ (53 - da)) in *.
  assert (0 < m1) as Hm1p.
  { subst m1. assert (0 < 2 ^ (53 - da)) by (apply Z.pow_pos_nonneg; lia). nia. }
  assert (Zdigits2 m1 = 53) as HD1.
  { subst m1. rewrite Zdigits2_shift by lia. lia. }
  pose proof (shr_fexp_spec m1 (e + k) loc_Exact ltac:(lia)) as H2.
  cbv zeta in H2. rewrite HD1 in H2.
  replace (Z.max 0 (fexp 53 1024 (53 + (e + k)) - (e + k))) with 0 in H2
    by (unfold fexp, emin; lia).
  destruct (shr_fexp 53 1024 m1 (e + k) loc_Exact) as [mrs3 e3].
  destruct H2 as (-> & Hm3 & _). rewrite Z.div_1_r in Hm3. rewrite Hm3.
  destruct m1 as [|p|p]; try lia.
  replace (e + k + 0 <=? 1024 - 53) with true
    by (symmetry; apply Z.leb_le; lia).
  cbn [Z.to_pos]. f_equal. lia.
Qed.

Lemma Pos_iter_xO (p k : positive) :
  Z.pos (Pos.iter xO p k) = Z.pos p * 2 ^ Z.pos k.
Proof.
  induction k as [|k IH] using Pos.peano_ind.
  - cbn. lia.
  - rewrite Pos.iter_succ, Pos2Z.inj_xO, IH, Pos2Z.inj_succ, Z.pow_succ_r by lia.
    lia.
Qed.

Lemma f64_of_Z_canon (n : Z) :
  0 < n < 2 ^ 53 → f64_of_Z n = canon false n 0.
Proof.
  intros [Hn0 Hn]. destruct n as [|p|p]; try lia.
  unfold f64_of_Z, canon. cbn [binary_normalize]. unfold binary_round.
  pose proof (Zdigits2_le (Z.pos p) 53 ltac:(lia) ltac:(lia)) as Hd.
  pose proof (Zdigits2_pos (Z.pos p) ltac:(lia)) as Hd0.
  change (Z.pos (digits2_pos p)) with (Zdigits2 (Z.pos p)).
  set (d := Zdigits2 (Z.pos p)) in *.
  replace (fexp 53 1024 (d + 0)) with (d - 53) by (unfold fexp, emin; lia).
  unfold shl_align.
  destruct (d - 53 - 0) as [|k|k] eqn:E; try lia.
  - assert (d = 53) as Hd53 by lia.
    pose proof (round_aux_exact false (Z.pos p) 0 0 ltac:(lia)) as H.
    fold d in H. rewrite Hd53 in H. cbn [Z.sub Z.pow Z.pos_sub] in H.
    rewrite Z.mul_1_r in H. rewrite H by lia. rewrite Hd53. reflexivity.
  - rewrite Pos_iter_xO.
    pose proof (round_aux_exact false (Z.pos p) (Z.pos k) (d - 53) ltac:(lia)) as H.
    fold d in H. rewrite H by lia. f_equal; try lia.
Qed.

Lemma hundred_canon : hundred = canon false 25 2.
Proof. reflexivity. Qed.

Lemma canon_digits (a : Z) :
  0 < a → Zdigits2 a ≤ 53 →
  0 < a * 2 ^ (53 - Zdigits2 a)
  ∧ Zdigits2 (a * 2 ^ (53 - Zdigits2 a)) = 53.
Proof.
  intros Ha Hd.
  assert (0 < 2 ^ (53 - Zdigits2 a)) by (apply Z.pow_pos_nonneg; lia).
  split; [nia |]. rewrite Zdigits2_shift by lia. lia.
Qed.

Lemma f64mul_hundred_canon (c : Z) :
  0 < c < 2 ^ 31 → f64mul hundred (f64_of_Z c) = canon false (25 * c) 2.
Proof.
  intros [Hc0 Hc].
  assert (2 ^ 31 < 2 ^ 53) by (apply Z.pow_lt_mono_r; lia).
  rewrite f64_of_Z_canon by lia.
  pose proof (Zdigits2_le c 31 ltac:(lia) ltac:(lia)) as Hdc.
  pose proof (Zdigits2_pos c Hc0) as Hdc0.
  destruct (canon_digits c Hc0 ltac:(lia)) as [Hmc _].
  assert (25 * c < 2 ^ 36).
  { replace 36 with (5 + 31) by lia. rewrite pow_split by lia.
    change (2 ^ 5) with 32. lia. }
  pose proof (Zdigits2_le (25 * c) 36 ltac:(lia) ltac:(lia)) as Hd25.
  pose proof (Zdigits2_pos (25 * c) ltac:(lia)) as Hd250.
  unfold f64mul, hundred, canon. cbn [SFmul xorb].
  set (dc := Zdigits2 c) in *. set (d25 := Zdigits2 (25 * c)) in *.
  set (mc := c * 2 ^ (53 - dc)) in *.
  replace (Z.pos (7036874417766400 * Z.to_pos mc))
    with (25 * c * 2 ^ (101 - dc)).
  2:{ rewrite Pos2Z.inj_mul, Z2Pos.id by lia. subst mc.
      replace (101 - dc) with (48 + (53 - dc)) by lia.
      rewrite pow_split by lia. change (2 ^ 48) with 281474976710656. lia. }
  rewrite round_aux_exact; fold d25; try lia.
  f_equal. lia.
Qed.

Lemma new_location_exact (n : Z) : new_location n 0 = loc_Exact.
Proof.
  unfold new_location, new_location_even, new_location_odd.
  destruct (Z.even n); reflexivity.
Qed.

(** A quotient of canonical doubles a * 4 and b stays at most B when
    a * 4 ≤ B * b. *)
Lemma f64div_canon_bound (B β a b : Z) :
  0 ≤ B < 2 ^ β → 0 ≤ β ≤ 50 →
  0 < a → Zdigits2 a ≤ 53 → 0 < b → Zdigits2 b ≤ 53 →
  a * 4 ≤ B * b →
  atMost false B (f64div (canon false a 2) (canon false b 0)).
Proof.
  intros HB Hβ Ha Hda Hb Hdb Hab.
  destruct (canon_digits a Ha Hda) as [Hma HDa].
  destruct (canon_digits b Hb Hdb) as [Hmb HDb].
  pose proof (Zdigits2_pos a Ha) as Hda0.
  pose proof (Zdigits2_pos b Hb) as Hdb0.
  pose proof (Zdigits2_spec a Ha) as [Ha1 Ha2].
  pose proof (Zdigits2_spec b Hb) as [Hb1 Hb2].
  set (da := Zdigits2 a) in *. set (db := Zdigits2 b) in *.
  set (ma := a * 2 ^ (53 - da)) in *. set (mb := b * 2 ^ (53 - db)) in *.
  (* the exponents are at most β apart *)
  assert (da + 2 ≤ β + db) as Hexp.
  { destruct (Z.le_gt_cases (da + 2) (β + db)) as [L|L]; [exact L |].
    exfalso.
    assert (2 ^ (β + db) ≤ 2 ^ (da - 1 + 2)) as Hp
      by (apply Z.pow_le_mono_r; lia).
    rewrite !pow_split in Hp by lia. change (2 ^ 2) with 4 in Hp.
    assert (0 < 2 ^ db) by (apply Z.pow_pos_nonneg; lia).
    assert (B * b < 2 ^ β * 2 ^ db) by nia.
    nia. }
  unfold f64div, canon. cbn [SFdiv xorb]. fold da db ma mb.
  unfold SFdiv_core_binary.
  rewrite !Z2Pos.id by lia. rewrite HDa, HDb.
  set (ex := 2 + da - 53). set (ey := 0 + db - 53).
  replace (fexp 53 1024 (53 + ex - (53 + ey))) with (ex - ey - 53)
    by (unfold fexp, emin; subst ex ey; lia).
  replace (Z.min (ex - ey - 53) (ex - ey)) with (ex - ey - 53) by lia.
  replace (ex - ey - (ex - ey - 53)) with 53 by lia.
  rewrite Z.shiftl_mul_pow2 by lia.
  set (e' := ex - ey - 53).
  set (N := B * 2 ^ (- e')).
  assert (ma * 2 ^ 53 ≤ N * mb) as Hle.
  { subst N ma mb e' ex ey.
    replace (- (2 + da - 53 - (0 + db - 53) - 53)) with (51 - da + db) by lia.
    assert (2 ^ (53 - da) * 2 ^ 53 = 4 * 2 ^ (104 - da)) as E1.
    { rewrite <- pow_split by lia.
      replace (53 - da + 53) with (2 + (104 - da)) by lia.
      now rewrite pow_split by lia. }
    assert (2 ^ (51 - da + db) * 2 ^ (53 - db) = 2 ^ (104 - da)) as E2.
    { rewrite <- pow_split by lia. f_equal. lia. }
    assert (0 < 2 ^ (104 - da)) as HT by (apply Z.pow_pos_nonneg; lia).
    replace (a * 2 ^ (53 - da) * 2 ^ 53)
      with (a * (2 ^ (53 - da) * 2 ^ 53)) by ring.
    replace (B * 2 ^ (51 - da + db) * (b * 2 ^ (53 - db)))
      with (B * b * (2 ^ (51 - da + db) * 2 ^ (53 - db))) by ring.
    rewrite E1, E2.
    replace (a * (4 * 2 ^ (104 - da))) with (a * 4 * 2 ^ (104 - da)) by ring.
    apply Z.mul_le_mono_nonneg_r; [lia | exact Hab]. }
  pose proof (Z_div_mod (ma * 2 ^ 53) mb ltac:(lia)) as Hdm.
  destruct (Z.div_eucl (ma * 2 ^ 53) mb) as [q r].
  destruct Hdm as [Hq Hr].
  assert (0 ≤ q) as Hq0.
  { assert (0 ≤ ma * 2 ^ 53) by (apply Z.mul_nonneg_nonneg; lia). nia. }
  assert (e' ≤ 0) as He' by (subst e' ex ey; lia).
  assert (q ≤ N) as HqN by nia.
  assert (r ≠ 0 → q < N) as HqN' by (intros; nia).
  apply (round_aux_bound B β); try assumption; try lia.
  intros Hl. apply HqN'. intros ->. apply Hl, new_location_exact.
Qed.

Lemma Qpower_2_neg (e : Z) : e ≤ 0 → (2 ^ e == / inject_Z (2 ^ (- e)))%Q.
Proof.
  intros He. replace e with (- - e) at 1 by lia.
  rewrite Qpower_opp. apply Qinv_comp.
  rewrite Zpower_Qpower by lia. reflexivity.
Qed.

Lemma atMost_value (B : Z) (x : float64) :
  0 ≤ B → atMost false B x →
  f64finite x = true ∧ (0 <= f64_to_Q x)%Q ∧ (f64_to_Q x <= inject_Z B)%Q.
Proof.
  intros HB. destruct x as [s|s| |s m e]; cbn [atMost f64_to_Q f64finite];
    try contradiction.
  - intros _. split; [reflexivity |]. split; [apply Qle_refl |].
    change 0%Q with (inject_Z 0). now rewrite <- Zle_Qle.
  - intros (-> & He & Hm). split; [reflexivity |].
    assert (0 < 2 ^ (- e)) as Hp by (apply Z.pow_pos_nonneg; lia).
    assert (0 < inject_Z (2 ^ (- e)))%Q as HpQ.
    { change 0%Q with (inject_Z 0). now rewrite <- Zlt_Qlt. }
    rewrite Qpower_2_neg by lia. rewrite Qmult_1_l.
    split.
    + apply Qle_shift_div_l; [exact HpQ |]. rewrite Qmult_0_l.
      change 0%Q with (inject_Z 0). rewrite <- Zle_Qle. lia.
    + apply Qle_shift_div_r; [exact HpQ |].
      rewrite <- inject_Z_mult, <- Zle_Qle. exact Hm.
Qed.

End Binary64Facts.

(** ** StatisticalValueFromTL *)

Section GrowthRate.

Import Values.

(** Rounding keeps the sign it is given apart from the mantissa. *)
Lemma f64abs_round_aux (sx : bool) (m e : Z) (l : location) :
  SFabs (binary_round_aux 53 1024 sx m e l)
  = binary_round_aux 53 1024 false m e l.
Proof.
  unfold binary_round_aux.
  destruct (shr_fexp 53 1024 m e l) as [mrs' e'].
  destruct (shr_fexp 53 1024 _ e' loc_Exact) as [mrs'' e''].
  destruct (shr_m mrs''); try reflexivity.
  destruct (e'' <=? 1024 - 53); reflexivity.
Qed.

Lemma f64abs_div (x y : float64) :
  f64abs (f64div x y) = f64div (f64abs x) (f64abs y).
Proof.
  destruct x as [sx|sx| |sx mx ex], y as [sy|sy| |sy my ey]; try reflexivity.
  unfold f64div, f64abs. cbn [SFabs SFdiv xorb].
  destruct (SFdiv_core_binary 53 1024 (Z.pos mx) ex (Z.pos my) ey)
    as [[mz ez] lz].
  apply f64abs_round_aux.
Qed.

Lemma f64abs_mul (x y : float64) :
  f64abs (f64mul x y) = f64mul (f64abs x) (f64abs y).
Proof.
  destruct x as [sx|sx| |sx mx ex], y as [sy|sy| |sy my ey]; try reflexivity.
  unfold f64mul, f64abs. cbn [SFabs SFmul xorb].
  apply f64abs_round_aux.
Qed.

(** Rounding a mantissa that is not negative never yields NaN. *)
Lemma iter_pos_invariant {A} (P : A → Prop) (f : A → A) :
  (∀ x, P x → P (f x)) → ∀ n x, P x → P (SpecFloat.iter_pos f n x).
Proof.
  intros Hf. induction n as [n IH|n IH|]; intros x Hx; cbn; auto.
Qed.

Lemma shr_1_nonneg (mrs : shr_record) :
  0 ≤ shr_m mrs → 0 ≤ shr_m (shr_1 mrs).
Proof.
  destruct mrs as [m r s]. cbn. destruct m as [|[p|p|]|p]; cbn; lia.
Qed.

Lemma shr_fexp_nonneg (m e : Z) (l : location) :
  0 ≤ m → 0 ≤ shr_m (fst (shr_fexp 53 1024 m e l)).
Proof.
  intros Hm. unfold shr_fexp, shr.
  assert (0 ≤ shr_m (shr_record_of_loc m l)) as H0.
  { destruct l as [|[]]; exact Hm. }
  destruct (fexp 53 1024 (Zdigits2 m + e) - e); cbn [fst]; auto.
  apply (iter_pos_invariant (λ r, 0 ≤ shr_m r)); auto using shr_1_nonneg.
Qed.

Lemma round_nearest_even_nonneg (m : Z) (l : location) :
  0 ≤ m → 0 ≤ round_nearest_even m l.
Proof.
  intros Hm. destruct l as [|[]]; cbn; try lia.
  destruct (Z.even m); lia.
Qed.

Lemma round_aux_number (sx : bool) (m e : Z) (l : location) :
  0 ≤ m → f64number (binary_round_aux 53 1024 sx m e l) = true.
Proof.
  intros Hm. unfold binary_round_aux.
  pose proof (shr_fexp_nonneg m e l Hm) as H1.
  destruct (shr_fexp 53 1024 m e l) as [mrs' e']. cbn [fst] in H1.
  pose proof (shr_fexp_nonneg _ e' loc_Exact
                (round_nearest_even_nonneg _ (loc_of_shr_record mrs') H1))
    as H2.
  destruct (shr_fexp 53 1024 _ e' loc_Exact) as [mrs'' e'']. cbn [fst] in H2.
  destruct (shr_m mrs''); try reflexivity; [| lia].
  destruct (e'' <=? 1024 - 53); reflexivity.
Qed.

Lemma normalize_number (m e : Z) :
  f64number (binary_normalize 53 1024 m e false) = true.
Proof.
  destruct m as [|m|m]; cbn [binary_normalize]; [reflexivity | |];
    unfold binary_round; destruct (shl_align _ _ _) as [mz ez];
    apply round_aux_number; lia.
Qed.

Lemma f64sub_number (x y : float64) :
  f64finite x = true → f64finite y = true → f64number (f64sub x y) = true.
Proof.
  destruct x as [sx|sx| |sx mx ex], y as [sy|sy| |sy my ey]; try discriminate;
    intros _ _; unfold f64sub; cbn [SFsub]; try reflexivity.
  - destruct sx, sy; reflexivity.
  - apply normalize_number.
Qed.

Lemma div_core_nonneg (mx : positive) (ex : Z) (my : positive) (ey : Z) :
  0 ≤ fst (fst (SFdiv_core_binary 53 1024 (Z.pos mx) ex (Z.pos my) ey)).
Proof.
  unfold SFdiv_core_binary.
  set (s := _ - _ - _).
  set (m' := match s with Z.pos _ => _ | 0 => _ | Z.neg _ => _ end).
  assert (0 ≤ m') as Hm'.
  { subst m'. destruct s; try lia. apply Z.shiftl_nonneg. lia. }
  pose proof (Z_div_mod m' (Z.pos my) ltac:(lia)) as H.
  destruct (Z.div_eucl m' (Z.pos my)) as [q r]. cbn [fst].
  destruct H as [H1 H2]. nia.
Qed.

Lemma f64div_number (x y : float64) :
  f64number x = true → f64finite y = true → f64_to_bool y = true →
  f64number (f64div x y) = true.
Proof.
  destruct x as [sx|sx| |sx mx ex], y as [sy|sy| |sy my ey]; try discriminate;
    intros _ _ _; unfold f64div; cbn [SFdiv]; try reflexivity.
  pose proof (div_core_nonneg mx ex my ey) as H.
  destruct (SFdiv_core_binary 53 1024 (Z.pos mx) ex (Z.pos my) ey)
    as [[mz ez] lz].
  cbn [fst] in H. now apply round_aux_number.
Qed.

Lemma f64mul_hundred_number (x : float64) :
  f64number x = true → f64number (f64mul x hundred) = true.
Proof.
  destruct x as [sx|sx| |sx mx ex]; try discriminate; intros _;
    try reflexivity.
  unfold f64mul, hundred. cbn [SFmul]. apply round_aux_number. lia.
Qed.

Lemma f64abs_nonneg (x : float64) :
  f64number x = true → SFleb zero64 (f64abs x) = true.
Proof. destruct x; try discriminate; reflexivity. Qed.

Lemma f64abs_never_negative (x : float64) : SFltb (f64abs x) zero64 = false.
Proof. destruct x; reflexivity. Qed.

(** C7, as the code has it: for every pair (current, previous) decoded by
    StatisticalValueFromTL, growthRatePercentage is 0 when previous = 0 and
    is |current - previous| / |previous| * 100 otherwise (the absolute value
    of the whole quotient); it is never below zero, and for a pair of finite
    numbers it is at least zero. *)
Theorem StatisticalValueFromTL_growthRate (current previous : float64) :
  let g :=
    growthRatePercentage
      (StatisticalValueFromTL
         {| vcurrent := current; vprevious := previous |}) in
  g = (if f64_to_bool previous
       then f64mul
              (f64div (f64abs (f64sub current previous)) (f64abs previous))
              hundred
       else zero64)
  ∧ SFltb g zero64 = false
  ∧ (f64finite current = true → f64finite previous = true →
     SFleb zero64 g = true).
Proof.
  cbv zeta. unfold StatisticalValueFromTL.
  cbn [growthRatePercentage vcurrent vprevious].
  destruct (f64_to_bool previous) eqn:E; split_and!; try reflexivity.
  - now rewrite f64abs_mul, f64abs_div.
  - apply f64abs_never_negative.
  - intros Hc Hp. apply f64abs_nonneg, f64mul_hundred_number.
    apply f64div_number; auto using f64sub_number.
Qed.

(** C7 as it is worded divides by previous itself: with current = 0 and
    previous = -1 the code yields 100, the worded formula -100, which is
    below zero. *)
Lemma StatisticalValueFromTL_growthRate_negative_previous :
  growthRatePercentage
    (StatisticalValueFromTL
       {| vcurrent := zero64; vprevious := f64_of_Z (-1) |})
  = f64_of_Z 100
  ∧ growthRateAsSpecified zero64 (f64_of_Z (-1)) = f64_of_Z (-100)
  ∧ growthRatePercentage
      (StatisticalValueFromTL
         {| vcurrent := zero64; vprevious := f64_of_Z (-1) |})
    ≠ growthRateAsSpecified zero64 (f64_of_Z (-1))
  ∧ SFltb (growthRateAsSpecified zero64 (f64_of_Z (-1))) zero64 = true.
Proof. split_and!; try (vm_compute; reflexivity). vm_compute. discriminate. Qed.

(** A growth from 2 to 3 is 50 percent, a fall from 3 to 2 is 33.3 percent
    (not negative). *)
Example growthRate_three_from_two :
  growthRatePercentage
    (StatisticalValueFromTL
       {| vcurrent := f64_of_Z 3; vprevious := f64_of_Z 2 |})
  = f64_of_Z 50.
Proof. vm_compute. reflexivity. Qed.

End GrowthRate.

(** ** StatisticalGraphFromTL *)

Section Graphs.

Import Values.



End Graphs.

(** ** PublicForwards *)

Section ForwardsFacts.

Import Forwards.

Context {K : Type}.

Lemma findRequest_app_fresh (id : RequestId) (h : Handler K)
    (l : list (RequestId * Handler K)) :
  findRequest K id l = None →
  findRequest K id (l ++ [(id, h)]) = Some h.
Proof.
  induction l as [|[id' h'] l IH]; cbn; intros H.
  - now rewrite Z.eqb_refl.
  - destruct (id =? id'); [discriminate | auto].
Qed.

Lemma decodeMessages_allLoaded (loaded : PeerId → bool) (token : OffsetToken)
    (result : MTPmessages_Messages) :
  d_allLoaded (decodeMessages loaded token result) = true
  ↔ lastMessagePage token result.
Proof.
  unfold lastMessagePage.
  destruct result as [ms|[nr|] c ms|c ms|]; cbn;
    try destruct (process loaded ms noMsgId []) as [next l]; cbn.
  - split; [eauto | reflexivity].
  - destruct (nr =? rate token) eqn:E; cbn.
    + apply Z.eqb_eq in E. subst nr. split; [eauto 10 | reflexivity].
    + apply Z.eqb_neq in E. split; [discriminate |].
      intros [[? H]|[(? & ? & H)|[H|(? & ? & H)]]]; try discriminate.
      congruence.
  - split; [discriminate |].
    intros [[? H]|[(? & ? & H)|[H|(? & ? & H)]]]; discriminate.
  - split; [eauto 10 | reflexivity].
  - split; [eauto 10 | reflexivity].
Qed.

(** C3: a message page requested with [token] and answered with [result]
    is delivered as one slice, whose allLoaded flag is true exactly when the
    answer is the full list, the channel-scoped list or not-modified, or a
    partial slice whose next rate is the rate of [token]. *)
Theorem requestMessage_allLoaded (s : State K) (id : RequestId)
    (token : OffsetToken) (done : K) (loaded : PeerId → bool)
    (result : MTPmessages_Messages) :
  _requestId K s = 0 →
  FullMsgId_set (messageId (_fullId K s)) = true →
  findRequest K id (inFlight K s) = None →
  ∃ slice,
    snd (handle K id (MessagesAnswer loaded result)
           (request K id token done s))
    = [Deliver K done slice]
    ∧ (allLoaded slice = true ↔ lastMessagePage token result).
Proof.
  intros Hidle Hmsg Hfresh.
  unfold request. rewrite Hidle, Hmsg. cbn [Z.eqb].
  unfold requestMessage, handle, send. cbn [inFlight].
  rewrite (findRequest_app_fresh _ _ _ Hfresh).
  unfold deliver. cbn [snd allLoaded].
  eexists. split; [reflexivity |]. cbn [allLoaded].
  apply decodeMessages_allLoaded.
Qed.

Lemma runningMax_bounded (known : Z) (counts : list Z) :
  Forall (Z.le known) (runningMax known counts).
Proof.
  revert known. induction counts as [|c rest IH]; intros known; cbn.
  - constructor.
  - constructor; [lia |].
    eapply List.Forall_impl; [| apply IH]. cbn. intros; lia.
Qed.

Lemma runningMax_sorted (known : Z) (counts : list Z) :
  StronglySorted Z.le (known :: runningMax known counts).
Proof.
  revert known. induction counts as [|c rest IH]; intros known.
  - repeat constructor.
  - constructor; [| apply runningMax_bounded].
    apply (IH (Z.max known c)).
Qed.

Lemma last_cons_default {A} (l : list A) (a d : A) :
  List.last (a :: l) d = List.last l a.
Proof.
  revert a d. induction l as [|b l IH]; intros a d; [reflexivity |].
  change (List.last (a :: b :: l) d) with (List.last (b :: l) d).
  now rewrite (IH b d), (IH b a).
Qed.

Lemma process_spec (peerLoaded : PeerId → bool) (messages : list MTPMessage)
    (next : FullMsgId) (result : list RecentPostId) :
  process peerLoaded messages next result
  = (List.last (map fullIdOf (List.filter (keeps peerLoaded) messages)) next,
     result
     ++ map (λ m, messagePost (fullIdOf m))
          (List.filter (keeps peerLoaded) messages)).
Proof.
  revert next result. induction messages as [|m ms IH]; intros next result.
  - cbn. now rewrite app_nil_r.
  - cbn [process List.filter]. unfold keeps at 1 4.
    destruct (peerLoaded (PeerFromMessage m) && negb (DateFromMessage m =? 0)).
    + rewrite IH. cbn [map]. rewrite <- app_assoc. cbn [app]. f_equal.
      symmetry. apply last_cons_default.
    + apply IH.
Qed.

(** The count the done handler of a message page takes is the count of the
    answer. *)
Lemma decodeMessages_fullCount (loaded : PeerId → bool) (token : OffsetToken)
    (result : MTPmessages_Messages) :
  d_fullCount (decodeMessages loaded token result) = fullCountOf loaded result.
Proof.
  destruct result as [ms|[nr|] c ms|c ms|]; cbn [decodeMessages fullCountOf];
    try rewrite process_spec; try destruct (negb (nr =? rate token));
    cbn [d_fullCount]; rewrite ?app_nil_l, ?length_map; reflexivity.
Qed.

(** What one answer does to the running total. *)
Lemma handle_total (s : State K) (id : RequestId) (a : Answer) :
  let '(s', out) := handle K id a s in
  match (if reaches id a s then answerCount a else None) with
  | Some c =>
      totals K out = [Z.max (_lastTotal K s) c]
      ∧ _lastTotal K s' = Z.max (_lastTotal K s) c
  | None => totals K out = [] ∧ _lastTotal K s' = _lastTotal K s
  end.
Proof.
  unfold handle, reaches.
  destruct (findRequest K id (inFlight K s)) as [[token done|token done]|];
    destruct a as [loaded result|loaded data|]; cbn [answerCount];
    unfold deliver, failed; cbn [totals map total _lastTotal];
    rewrite ?decodeMessages_fullCount; auto.
Qed.

Lemma request_lastTotal (s : State K) (id : RequestId) (token : OffsetToken)
    (done : K) :
  _lastTotal K (request K id token done s) = _lastTotal K s.
Proof.
  unfold request, requestMessage, requestStory, send.
  destruct (_requestId K s =? 0); [| reflexivity].
  destruct (FullMsgId_set _); [reflexivity |].
  destruct (FullStoryId_set _); reflexivity.
Qed.

Lemma runFrom_totals (evs : list (Event K)) (st : State K * RequestId) :
  totals K (snd (runFrom K st evs))
  = runningMax (_lastTotal K (fst st)) (counts st evs).
Proof.
  revert st. induction evs as [|e evs IH]; intros [s next]; [reflexivity |].
  cbn [runFrom counts].
  destruct (step K (s, next) e) as [st1 out1] eqn:Hstep.
  specialize (IH st1).
  destruct (runFrom K st1 evs) as [st2 out2]. cbn [snd fst] in *.
  unfold totals in *. rewrite map_app, IH. clear IH.
  destruct e as [token done|id a]; cbn [step] in Hstep.
  - assert (st1 = (if sends K s then (request K next token done s, next + 1)
                   else (s, next)) ∧ out1 = []) as [-> ->].
    { destruct (sends K s); inversion Hstep; auto. }
    cbn. f_equal.
    destruct (sends K s); cbn; [apply request_lastTotal | reflexivity].
  - pose proof (handle_total s id a) as H.
    destruct (handle K id a s) as [s' out]. inversion Hstep; subst.
    cbn [fst]. unfold totals in H.
    destruct (reaches id a s); [| destruct H as [-> ->]; reflexivity].
    destruct (answerCount a) as [c|]; destruct H as [-> ->]; reflexivity.
Qed.

(** C5, as the code has it: an answer that reaches the done handler of its
    request is delivered as one slice whose total is the maximum of the
    total known before and the count of the answer, which becomes the total
    known; over any sequence of requests and answers of one PublicForwards
    object, for a message or a story, the totals delivered are the running
    maximum of those counts, one after the other, so they never decrease.
    The count of an answer is its count field for a partial slice, a
    channel-scoped list and a story page, the number of forwards kept for
    a full list, and zero for not-modified. *)
Theorem PublicForwards_total_running_max (evs : list (Event K))
    (s : State K) (next : RequestId) :
  let out := snd (runFrom K (s, next) evs) in
  totals K out = runningMax (_lastTotal K s) (counts (s, next) evs)
  ∧ StronglySorted Z.le (_lastTotal K s :: totals K out)
  ∧ (∀ s0 id a,
       reaches id a s0 = true →
       ∃ done slice c,
         answerCount a = Some c
         ∧ snd (handle K id a s0) = [Deliver K done slice]
         ∧ total slice = Z.max (_lastTotal K s0) c
         ∧ _lastTotal K (fst (handle K id a s0)) = total slice).
Proof.
  cbv zeta. pose proof (runFrom_totals evs (s, next)) as H.
  cbn [fst] in H. split; [exact H |]. split.
  - rewrite H. apply runningMax_sorted.
  - intros s0 id a. unfold reaches, handle.
    destruct (findRequest K id (inFlight K s0)) as [[token done|token done]|];
      destruct a as [loaded result|loaded data|]; try discriminate;
      intros _; unfold deliver; cbn [fst snd answerCount];
      eexists _, _, _; (split; [reflexivity |]);
      (split; [reflexivity |]); cbn [total _lastTotal];
      rewrite ?decodeMessages_fullCount; auto.
Qed.

End ForwardsFacts.

Lemma requestMessage_allLoaded_witness :
  let target :=
    {| Forwards.messageId := {| Forwards.peer := 3; Forwards.msg := 4 |};
       Forwards.storyId := Forwards.noStoryId |} in
  let token :=
    {| Forwards.rate := 5; Forwards.fullId := Forwards.noMsgId;
       Forwards.storyOffset := "" |} in
  let result := Forwards.messages_messagesSlice (Some 5) 9 [] in
  ∃ slice,
    snd (Forwards.handle nat 1 (Forwards.MessagesAnswer (λ _, true) result)
           (Forwards.request nat 1 token 0%nat (Forwards.init nat target)))
    = [Forwards.Deliver nat 0%nat slice]
    ∧ (Forwards.allLoaded slice = true
       ↔ Forwards.lastMessagePage token result).
Proof.
  cbv zeta.
  apply (requestMessage_allLoaded (K := nat)); reflexivity.
Defined.

(** C5 as it is worded fails on a full list.  The answer holds two
    forwards, the second an empty message, which has no date; all peers are
    loaded.  The slice delivered has the total 1, the number of forwards
    kept, and not the 2 of the answer. *)
Lemma PublicForwards_total_full_list :
  let target :=
    {| Forwards.messageId := {| Forwards.peer := 3; Forwards.msg := 4 |};
       Forwards.storyId := Forwards.noStoryId |} in
  let result :=
    Forwards.messages_messages
      [{| Forwards.IdFromMessage := 11; Forwards.PeerFromMessage := 21;
          Forwards.DateFromMessage := 1700000000;
          Forwards.body := Forwards.message None None None |};
       {| Forwards.IdFromMessage := 12; Forwards.PeerFromMessage := 22;
          Forwards.DateFromMessage := 0;
          Forwards.body := Forwards.messageEmpty |}] in
  let out :=
    snd (Forwards.handle nat 1
           (Forwards.MessagesAnswer (λ _, true) result)
           (Forwards.request nat 1 Forwards.emptyToken 0%nat
              (Forwards.init nat target))) in
  Forwards.receivedCount result = 2
  ∧ Forwards.totals nat out = [1]
  ∧ Forwards.totals nat out
    ≠ Forwards.runningMax 0 [Forwards.receivedCount result].
Proof. vm_compute. split_and!; [reflexivity | reflexivity | discriminate]. Qed.

(** ** StatisticsRequestSender *)

Section SenderFacts.

Import Sender.

Implicit Types (s : State) (pending : RequestId → bool).

Lemma checkRequests_effects pending s :
  snd (checkRequests pending s)
  = unregisteredBy pending s
    ++ (if decide (omap (keepShard pending) (_requests s) = ∅)
        then [TimerCancel] else []).
Proof.
  unfold checkRequests, unregisteredBy.
  destruct (decide _); cbn; [reflexivity | now rewrite app_nil_r].
Qed.

Lemma checkRequests_requests pending s :
  _requests (fst (checkRequests pending s))
  = omap (keepShard pending) (_requests s).
Proof. unfold checkRequests. destruct (decide _); reflexivity. Qed.

Lemma elem_of_unregisteredBy pending s (e : Effect) :
  e ∈ unregisteredBy pending s
  ↔ ∃ dcId id, e = UnregisterStatsRequest dcId id
               ∧ tracked s dcId id ∧ pending id = false.
Proof.
  unfold unregisteredBy, tracked. rewrite list_elem_of_bind. split.
  - intros ([dcId ids] & Hin & Hm). apply elem_of_map_to_list in Hm.
    cbn in Hin. apply list_elem_of_fmap in Hin as (id & -> & Hid).
    apply list_elem_of_filter in Hid as [Hp Hid].
    apply elem_of_elements in Hid. eauto 10.
  - intros (dcId & id & -> & (ids & Hm & Hid) & Hp).
    exists (dcId, ids). split; [| now apply elem_of_map_to_list].
    cbn. apply list_elem_of_fmap. exists id. split; [reflexivity |].
    apply list_elem_of_filter. split; [exact Hp |].
    now apply elem_of_elements.
Qed.

Lemma NoDup_unregisteredBy pending s : NoDup (unregisteredBy pending s).
Proof.
  unfold unregisteredBy. apply NoDup_bind.
  - intros [dc1 ids1] [dc2 ids2] e H1 H2 He1 He2. cbn in He1, He2.
    apply list_elem_of_fmap in He1 as (id1 & -> & _).
    apply list_elem_of_fmap in He2 as (id2 & [= <- <-] & _).
    apply elem_of_map_to_list in H1, H2. congruence.
  - intros [dc ids] _. cbn. apply NoDup_fmap_2.
    + intros a b [= ->]. reflexivity.
    + apply NoDup_filter, NoDup_elements.
  - apply NoDup_map_to_list.
Qed.

Lemma keepShard_Some pending (ids kept : gset Z) :
  keepShard pending ids = Some kept
  ↔ kept = filter (λ id, pending id = true) ids ∧ kept ≠ ∅.
Proof.
  unfold keepShard. destruct (decide _) as [E|E]; split.
  - discriminate.
  - intros [-> H]. contradiction.
  - intros [= <-]. auto.
  - intros [-> _]. reflexivity.
Qed.

Lemma tracked_after_sweep pending s (dcId : DcId) (id : RequestId) :
  tracked (fst (checkRequests pending s)) dcId id
  ↔ tracked s dcId id ∧ pending id = true.
Proof.
  unfold tracked. rewrite checkRequests_requests. split.
  - intros (kept & Hm & Hid). apply lookup_omap_Some in Hm as (ids & Hk & Hm).
    apply keepShard_Some in Hk as [-> _].
    apply elem_of_filter in Hid as [Hp Hid]. eauto.
  - intros [(ids & Hm & Hid) Hp].
    exists (filter (λ id, pending id = true) ids). split.
    + apply lookup_omap_Some. exists ids. split; [| exact Hm].
      apply keepShard_Some. split; [reflexivity |].
      intros E. assert (id ∈ (∅ : gset Z)) as H; [| set_solver].
      rewrite <- E. now apply elem_of_filter.
    + now apply elem_of_filter.
Qed.

Lemma no_empty_shard_after_sweep pending s (dcId : DcId) (ids : gset Z) :
  _requests (fst (checkRequests pending s)) !! dcId = Some ids → ids ≠ ∅.
Proof.
  rewrite checkRequests_requests. intros H.
  apply lookup_omap_Some in H as (ids0 & Hk & _).
  now apply keepShard_Some in Hk as [_ H].
Qed.

Lemma nothing_tracked_iff_empty pending s :
  _requests (fst (checkRequests pending s)) = ∅
  ↔ ∀ dcId id, ¬ tracked (fst (checkRequests pending s)) dcId id.
Proof.
  split.
  - intros E dcId id (ids & Hm & _). rewrite E, lookup_empty in Hm.
    discriminate.
  - intros H. apply map_empty. intros dcId.
    destruct (_ !! dcId) as [ids|] eqn:Hm; [| reflexivity].
    pose proof (no_empty_shard_after_sweep _ _ _ _ Hm) as Hne.
    apply set_choose_L in Hne as [id Hid].
    exfalso. apply (H dcId id). exists ids. auto.
Qed.

(** C6: one run of checkRequests unregisters, each once, exactly the tracked
    ids the transport no longer reports as pending and keeps exactly the
    other tracked ids; no shard is left with an empty set; and the timer is
    cancelled if and only if nothing is tracked after the sweep. *)
Theorem checkRequests_sweep pending s :
  let s' := fst (checkRequests pending s) in
  let effects := snd (checkRequests pending s) in
  (∀ dcId id,
     UnregisterStatsRequest dcId id ∈ effects
     ↔ tracked s dcId id ∧ pending id = false)
  ∧ NoDup effects
  ∧ (∀ dcId id, RegisterStatsRequest dcId id ∉ effects)
  ∧ (∀ dcId id, tracked s' dcId id ↔ tracked s dcId id ∧ pending id = true)
  ∧ (∀ dcId, _requests s' !! dcId ≠ Some ∅)
  ∧ (TimerCancel ∈ effects ↔ ∀ dcId id, ¬ tracked s' dcId id)
  ∧ _timerActive s'
    = (if decide (_requests s' = ∅) then false else _timerActive s).
Proof.
  cbv zeta.
  assert (Hcancel : ∀ e, e ∈ unregisteredBy pending s → e ≠ TimerCancel).
  { intros e He ->. apply elem_of_unregisteredBy in He as (? & ? & ? & _).
    discriminate. }
  split_and!.
  - intros dcId id. rewrite checkRequests_effects, elem_of_app.
    rewrite elem_of_unregisteredBy. split.
    + intros [(dc & i & [= -> ->] & H)|H]; [exact H |].
      destruct (decide _); [| inversion H].
      apply list_elem_of_singleton in H. discriminate.
    + intros H. left. eauto.
  - rewrite checkRequests_effects. apply NoDup_app. split_and!.
    + apply NoDup_unregisteredBy.
    + intros e He H. destruct (decide _); [| inversion H].
      apply list_elem_of_singleton in H. now apply (Hcancel e).
    + destruct (decide _); [apply NoDup_singleton | apply NoDup_nil_2].
  - intros dcId id. rewrite checkRequests_effects, elem_of_app.
    intros [H|H].
    + apply elem_of_unregisteredBy in H as (? & ? & ? & _). discriminate.
    + destruct (decide _); [| inversion H].
      apply list_elem_of_singleton in H. discriminate.
  - apply tracked_after_sweep.
  - intros dcId H. now apply no_empty_shard_after_sweep in H.
  - rewrite <- nothing_tracked_iff_empty, checkRequests_requests.
    rewrite checkRequests_effects, elem_of_app. split.
    + intros [H|H]; [now apply Hcancel in H |].
      destruct (decide _); [assumption | inversion H].
    + intros E. right. rewrite decide_True by exact E.
      now apply list_elem_of_singleton.
  - rewrite checkRequests_requests. unfold checkRequests.
    destruct (decide _); reflexivity.
Qed.

End SenderFacts.

Section MakeRequestFacts.

Import Sender.

Variable ShiftDcId : DcId → Z → Z.
Variable kStatsDcShift : Z.

Implicit Types (s : State) (pending : RequestId → bool).

Lemma elem_of_destroy s (e : Effect) :
  e ∈ destroy s
  ↔ ∃ dcId id, e = UnregisterStatsRequest dcId id ∧ tracked s dcId id.
Proof.
  unfold destroy, tracked. rewrite list_elem_of_bind. split.
  - intros ([dcId ids] & Hin & Hm). apply elem_of_map_to_list in Hm.
    apply list_elem_of_fmap in Hin as (id & -> & Hid).
    apply elem_of_elements in Hid. eauto 10.
  - intros (dcId & id & -> & ids & Hm & Hid).
    exists (dcId, ids). split; [| now apply elem_of_map_to_list].
    apply list_elem_of_fmap. exists id. split; [reflexivity |].
    now apply elem_of_elements.
Qed.

Lemma tracked_after_makeRequest s (id : RequestId) (dcId dc : DcId)
    (i : RequestId) :
  tracked (makeRequest ShiftDcId kStatsDcShift id dcId s).1.1 dc i
  ↔ tracked s dc i ∨ (dcId ≠ 0 ∧ dc = dcId ∧ i = id).
Proof.
  unfold makeRequest, tracked. destruct (decide (dcId = 0)) as [E|E]; cbn.
  - split; [auto | intros [H|(H & _)]; [exact H | contradiction]].
  - destruct (decide (dc = dcId)) as [->|Hne].
    + rewrite lookup_insert_eq. split.
      * intros (ids & [= <-] & Hi).
        apply elem_of_union in Hi as [Hi|Hi].
        -- apply elem_of_singleton in Hi. auto.
        -- left. destruct (_requests s !! dcId) as [ids|] eqn:Hm; cbn in Hi.
           ++ eauto.
           ++ set_solver.
      * intros [(ids & Hm & Hi)|(_ & _ & ->)]; eexists; split;
          try reflexivity.
        -- rewrite Hm. cbn. set_solver.
        -- set_solver.
    + rewrite lookup_insert_ne by congruence. split; [auto |].
      intros [H|(_ & H & _)]; [exact H | contradiction].
Qed.

(** An id that is not tracked is not unregistered, and stays untracked as
    long as no request is made with it. *)
Lemma untracked_apply s (op : Op) (id : RequestId) :
  (∀ dc, ¬ tracked s dc id) → id ∉ madeIds [op] →
  (∀ dc, UnregisterStatsRequest dc id
         ∉ (apply ShiftDcId kStatsDcShift op s).2)
  ∧ (∀ dc, ¬ tracked (apply ShiftDcId kStatsDcShift op s).1 dc id).
Proof.
  intros Hfresh Hid. destruct op as [id' dcId|pending]; cbn [apply madeIds] in *.
  - assert (id ≠ id') as Hne.
    { intros ->. apply Hid, list_elem_of_here. }
    split.
    + intros dc H. unfold makeRequest in H.
      destruct (decide (dcId = 0)); cbn in H; [inversion H |].
      apply elem_of_cons in H as [H|H]; [discriminate |].
      destruct (_timerActive s); [inversion H |].
      apply list_elem_of_singleton in H. discriminate.
    + intros dc H. apply tracked_after_makeRequest in H as [H|(_ & _ & H)];
        [now apply (Hfresh dc) | contradiction].
  - split.
    + intros dc H. rewrite checkRequests_effects in H.
      apply elem_of_app in H as [H|H].
      * apply elem_of_unregisteredBy in H as (? & ? & [= <- <-] & H & _).
        now apply (Hfresh dc).
      * destruct (decide _); [| inversion H].
        apply list_elem_of_singleton in H. discriminate.
    + intros dc H. apply tracked_after_sweep in H as [H _].
      now apply (Hfresh dc).
Qed.

Lemma untracked_runOps (ops : list Op) s (id : RequestId) :
  (∀ dc, ¬ tracked s dc id) → id ∉ madeIds ops →
  (∀ dc, UnregisterStatsRequest dc id
         ∉ (runOps ShiftDcId kStatsDcShift ops s).2)
  ∧ (∀ dc, ¬ tracked (runOps ShiftDcId kStatsDcShift ops s).1 dc id).
Proof.
  revert s. induction ops as [|op ops IH]; intros s Hfresh Hid.
  - cbn. split; [intros dc H; inversion H | exact Hfresh].
  - assert ((id ∉ madeIds [op]) ∧ (id ∉ madeIds ops)) as [Hop Hops].
    { destruct op; cbn in *; [| split; [intros H; inversion H | exact Hid]].
      split; intros H; apply Hid.
      - apply list_elem_of_singleton in H. subst. apply list_elem_of_here.
      - now apply list_elem_of_further. }
    destruct (untracked_apply s op id Hfresh Hop) as [H1 H2].
    cbn [runOps].
    destruct (apply ShiftDcId kStatsDcShift op s) as [s1 e1].
    cbn [fst snd] in *.
    destruct (IH s1 H2 Hops) as [H3 H4].
    destruct (runOps ShiftDcId kStatsDcShift ops s1) as [s2 e2].
    cbn [fst snd] in *. split; [| exact H4].
    intros dc H. apply elem_of_app in H as [H|H];
      [now apply (H1 dc) | now apply (H3 dc)].
Qed.

(** C10: makeRequest registers the request in the ledger, tracks it and
    starts the timer (when it is not active) if and only if the shard id is
    not zero, and then addresses the shifted shard.  With shard id zero
    nothing is registered, tracked or started and the request goes to the
    default destination; its id, not tracked before, is then unregistered
    neither by any sweep nor by the destructor, whatever requests with other
    ids and sweeps follow. *)
Theorem makeRequest_tracking s (id : RequestId) (dcId : DcId) :
  let s' := (makeRequest ShiftDcId kStatsDcShift id dcId s).1.1 in
  let effects := (makeRequest ShiftDcId kStatsDcShift id dcId s).1.2 in
  let sent := (makeRequest ShiftDcId kStatsDcShift id dcId s).2 in
  overrideId sent = id
  ∧ (RegisterStatsRequest dcId id ∈ effects ↔ dcId ≠ 0)
  ∧ (TimerCallEach kCheckRequestsTimer ∈ effects
     ↔ dcId ≠ 0 ∧ _timerActive s = false)
  ∧ (∀ dc i, tracked s' dc i ↔ tracked s dc i ∨ (dcId ≠ 0 ∧ dc = dcId ∧ i = id))
  ∧ (dcId ≠ 0 →
     _timerActive s' = true ∧ toDC sent = ShiftDcId dcId kStatsDcShift)
  ∧ (dcId = 0 →
     s' = s ∧ effects = [] ∧ toDC sent = 0
     ∧ ((∀ dc, ¬ tracked s dc id) →
        ∀ (ops : list Op) dc,
          id ∉ madeIds ops →
          (UnregisterStatsRequest dc id
             ∉ (runOps ShiftDcId kStatsDcShift ops s').2)
          ∧ (UnregisterStatsRequest dc id
             ∉ destroy (runOps ShiftDcId kStatsDcShift ops s').1))).
Proof.
  cbv zeta. split_and!.
  - unfold makeRequest. destruct (decide (dcId = 0)); reflexivity.
  - unfold makeRequest. destruct (decide (dcId = 0)) as [E|E]; cbn.
    + split; [intros H; inversion H | contradiction].
    + split; [auto | intros _; apply list_elem_of_here].
  - unfold makeRequest. destruct (decide (dcId = 0)) as [E|E]; cbn.
    + split; [intros H; inversion H | intros [H _]; contradiction].
    + destruct (_timerActive s); split.
      * intros H. apply list_elem_of_singleton in H. discriminate.
      * intros [_ H]. discriminate.
      * auto.
      * intros _. apply list_elem_of_further, list_elem_of_here.
  - apply tracked_after_makeRequest.
  - intros E. unfold makeRequest.
    destruct (decide (dcId = 0)); [contradiction | auto].
  - intros ->. unfold makeRequest. cbn. split_and!; try reflexivity.
    intros Hfresh ops dc Hops.
    destruct (untracked_runOps ops s id Hfresh Hops) as [H1 H2].
    split; [apply H1 |].
    intros H. apply elem_of_destroy in H as (? & ? & [= <- <-] & H).
    now apply (H2 dc).
Qed.

End MakeRequestFacts.

(** ** The zoom queue *)

Section ZoomFacts.

Import Zoom.

Implicit Types (s : State) (t : Task) (e : Event).

Lemma started_app (o1 o2 : list Output) :
  started (o1 ++ o2) = started o1 ++ started o2.
Proof.
  induction o1 as [|o o1 IH]; [reflexivity |].
  destruct o; cbn; now rewrite ?IH.
Qed.

Lemma submitted_app (l1 l2 : list Event) :
  submitted (l1 ++ l2) = submitted l1 ++ submitted l2.
Proof.
  induction l1 as [|e l1 IH]; [reflexivity |].
  destruct e; cbn; now rewrite ?IH.
Qed.

Lemma runFrom_app s (l1 l2 : list Event) :
  runFrom s (l1 ++ l2)
  = let '(s1, o1) := runFrom s l1 in
    let '(s2, o2) := runFrom s1 l2 in
    (s2, o1 ++ o2).
Proof.
  revert s. induction l1 as [|e l1 IH]; intros s; cbn.
  - now destruct (runFrom s l2).
  - destruct (step s e) as [s1 o1]. rewrite IH.
    destruct (runFrom s1 l1) as [s2 o2].
    destruct (runFrom s2 l2) as [s3 o3]. now rewrite app_assoc.
Qed.

(** What a step starts depends on the deque and the requests in flight
    alone. *)
Lemma step_started s e : started (snd (step s e)) = startsOn s e.
Proof.
  destruct e as [t|id result|id error]; cbn.
  - unfold requestZoom, runFront, pushBack. cbn.
    destruct (_zoomDeque s) as [|h rest]; reflexivity.
  - destruct (findRequest id (inFlight s)) as [t|]; [| now destruct (_zoomDeque s)].
    unfold onDone, answered, popFront, runFront. cbn.
    destruct (_zoomDeque s) as [|h [|t2 rest]]; reflexivity.
  - destruct (findRequest id (inFlight s)); reflexivity.
Qed.

Lemma Queue_step (sub st : list Task) s e :
  Queue sub st s →
  Queue (sub ++ submitted [e]) (st ++ started (snd (step s e)))
    (fst (step s e)).
Proof.
  intros [Hd Hf ->|h rest Hd -> Hf]; destruct e as [t|id result|id error];
    cbn [submitted step].
  - unfold requestZoom, pushBack, runFront, runTask. rewrite Hd, Hf. cbn.
    eapply QueueBusy; cbn; [reflexivity | now rewrite app_nil_r | eauto].
  - rewrite Hf. cbn. rewrite !app_nil_r. now apply QueueIdle.
  - rewrite Hf. cbn. rewrite !app_nil_r. now apply QueueIdle.
  - unfold requestZoom, pushBack. rewrite Hd. cbn. rewrite app_nil_r.
    eapply QueueBusy; cbn; [reflexivity | now rewrite app_assoc | exact Hf].
  - destruct Hf as [Hf|[id' Hf]]; rewrite Hf; cbn.
    + rewrite !app_nil_r. eapply QueueBusy; eauto.
    + destruct (id =? id') eqn:E; cbn.
      * unfold onDone, answered, popFront, runFront, runTask.
        rewrite Hd, Hf. cbn. rewrite E. cbn.
        destruct rest as [|t2 rest]; cbn.
        -- rewrite !app_nil_r. now apply QueueIdle.
        -- rewrite app_nil_r. eapply QueueBusy; cbn;
             [reflexivity | now rewrite <- app_assoc | eauto].
      * rewrite !app_nil_r. eapply QueueBusy; eauto.
  - destruct Hf as [Hf|[id' Hf]]; rewrite Hf; cbn.
    + rewrite !app_nil_r. eapply QueueBusy; eauto.
    + destruct (id =? id') eqn:E; cbn.
      * unfold answered. rewrite !app_nil_r.
        eapply QueueBusy; cbn; [exact Hd | reflexivity |].
        left. rewrite Hf. cbn. now rewrite E.
      * rewrite !app_nil_r. eapply QueueBusy; eauto.
Qed.

Lemma Queue_runFrom (evs : list Event) (sub st : list Task) s :
  Queue sub st s →
  Queue (sub ++ submitted evs) (st ++ started (snd (runFrom s evs)))
    (fst (runFrom s evs)).
Proof.
  revert sub st s. induction evs as [|e evs IH]; intros sub st s H.
  - cbn. now rewrite !app_nil_r.
  - apply (Queue_step _ _ _ e) in H. apply IH in H.
    cbn [runFrom]. destruct (step s e) as [s1 o1]. cbn [fst snd] in *.
    destruct (runFrom s1 evs) as [s2 o2]. cbn [fst snd] in *.
    rewrite started_app, app_assoc.
    replace (sub ++ submitted (e :: evs))
      with ((sub ++ submitted [e]) ++ submitted evs); [exact H |].
    rewrite <- app_assoc. f_equal.
    change (e :: evs) with ([e] ++ evs). now rewrite submitted_app.
Qed.

Lemma Queue_run (evs : list Event) :
  Queue (submitted evs) (started (snd (run evs))) (fst (run evs)).
Proof. apply (Queue_runFrom evs [] []). now apply QueueIdle. Qed.

(** C8: after any sequence of requestZoom calls and answers, at most one
    zoom request is in flight and it is the one of the head of the deque;
    the tasks started so far followed by those waiting behind the head are
    the tasks submitted, in submission order, so that none is reordered or
    dropped; and a step starts a task only as the discipline says: the new
    task when the deque was empty, the next one when the answer to the
    request in flight is a success. *)
Theorem requestZoom_single_flight_fifo (evs : list Event) :
  let s := fst (run evs) in
  let out := snd (run evs) in
  (length (inFlight s) ≤ 1)%nat
  ∧ (∀ id t, (id, t) ∈ inFlight s → ∃ rest, _zoomDeque s = t :: rest)
  ∧ submitted evs = started out ++ tl (_zoomDeque s)
  ∧ (∀ e, started (snd (step s e)) = startsOn s e).
Proof.
  cbv zeta. pose proof (Queue_run evs) as [Hd Hf Hs|h rest Hd Hs Hf].
  - rewrite Hd, Hf. cbn. split_and!.
    + lia.
    + intros id t H. inversion H.
    + now rewrite app_nil_r.
    + apply step_started.
  - rewrite Hd. cbn [tl]. split_and!.
    + destruct Hf as [->|[id ->]]; cbn; lia.
    + intros id t H. destruct Hf as [Hf|[id' Hf]]; rewrite Hf in H.
      * inversion H.
      * apply list_elem_of_singleton in H. inversion H; subst. eauto.
    + exact Hs.
    + apply step_started.
Qed.

(** Once the request of the head has failed nothing is in flight while the
    deque is not empty, and from there on no task is started any more. *)
Lemma stalled_forever (evs : list Event) s :
  inFlight s = [] → _zoomDeque s ≠ [] →
  started (snd (runFrom s evs)) = []
  ∧ inFlight (fst (runFrom s evs)) = []
  ∧ _zoomDeque (fst (runFrom s evs)) = _zoomDeque s ++ submitted evs.
Proof.
  revert s. induction evs as [|e evs IH]; intros s Hf Hd.
  - cbn. now rewrite app_nil_r.
  - cbn [runFrom].
    assert (started (snd (step s e)) = []
            ∧ inFlight (fst (step s e)) = []
            ∧ _zoomDeque (fst (step s e)) = _zoomDeque s ++ submitted [e])
      as (H1 & H2 & H3).
    { destruct e as [t|id result|id error]; cbn; rewrite ?Hf; cbn.
      - unfold requestZoom, pushBack.
        destruct (_zoomDeque s); [contradiction | now cbn].
      - now rewrite app_nil_r.
      - now rewrite app_nil_r. }
    destruct (step s e) as [s1 o1]. cbn [fst snd] in *.
    destruct (IH s1 H2) as (H4 & H5 & H6).
    { rewrite H3. destruct (_zoomDeque s); [contradiction | discriminate]. }
    destruct (runFrom s1 evs) as [s2 o2]. cbn [fst snd] in *.
    rewrite started_app, H1, H4, H5, H6, H3, <- app_assoc.
    change (e :: evs) with ([e] ++ evs). now rewrite submitted_app.
Qed.

(** C2 on the code: the first zoom fails while a second one is queued.  The
    consumer of the first is told the error, the deque keeps both tasks, and
    whatever follows (further answers, further requestZoom calls) the second
    task and every later one is never started. *)
Theorem requestZoom_failure_stalls (t1 t2 : Task) (error : string)
    (later : list Event) :
  let evs := [RequestZoom t1; RequestZoom t2; Fail 1 error] in
  snd (run evs)
  = [SendLoadAsyncGraph 1 t1; PutError (consumer t1) error]
  ∧ _zoomDeque (fst (run evs)) = [t1; t2]
  ∧ started (snd (run (evs ++ later))) = [t1]
  ∧ _zoomDeque (fst (run (evs ++ later))) = [t1; t2] ++ submitted later.
Proof.
  cbv zeta. unfold run. rewrite runFrom_app.
  set (s0 := {| _zoomDeque := [t1; t2]; inFlight := [];
                nextRequestId := 2 |}).
  assert (runFrom init [RequestZoom t1; RequestZoom t2; Fail 1 error]
          = (s0, [SendLoadAsyncGraph 1 t1; PutError (consumer t1) error]))
    as -> by reflexivity.
  destruct (stalled_forever later s0) as (H1 & _ & H2);
    [reflexivity | discriminate |].
  destruct (runFrom s0 later) as [s2 o2]. cbn [fst snd] in *.
  split_and!; try reflexivity.
  - rewrite started_app, H1. reflexivity.
  - exact H2.
Qed.

End ZoomFacts.

(** ** Boosts *)

Section BoostsFacts.

Import Values Boosts.

Lemma int_of_double_range (d : float64) :
  INT_MIN ≤ int_of_double d ≤ INT_MAX.
Proof.
  unfold int_of_double.
  destruct (truncate d) as [n|]; [| unfold INT_MIN, INT_MAX; lia].
  destruct (INT_MIN <=? n) eqn:E1; destruct (n <=? INT_MAX) eqn:E2; cbn;
    try (unfold INT_MIN, INT_MAX; lia).
  apply Z.leb_le in E1, E2. lia.
Qed.

Lemma premiumCount_range (data : MTPpremium_BoostsStatus) :
  0 ≤ premiumCount data < 2 ^ 31.
Proof.
  unfold premiumCount. destruct (vpremium_audience data) as [audience|];
    [| lia].
  pose proof (int_of_double_range (vpart audience)) as H.
  unfold INT_MIN, INT_MAX in H. lia.
Qed.

Lemma participantCount_range (data : MTPpremium_BoostsStatus) :
  premiumCount data ≤ participantCount data < 2 ^ 31.
Proof.
  pose proof (premiumCount_range data) as Hc.
  unfold participantCount, premiumCount in *.
  destruct (vpremium_audience data) as [audience|]; [| lia].
  pose proof (int_of_double_range (vtotal audience)) as H.
  unfold INT_MIN, INT_MAX in H. lia.
Qed.

Lemma premiumPercentage_division (data : MTPpremium_BoostsStatus) :
  premiumPercentage data
  = match premiumDivision data with
    | Some (dividend, divisor) => f64div dividend (f64_of_Z divisor)
    | None => zero64
    end.
Proof.
  unfold premiumPercentage, premiumDivision.
  now destruct (0 <? participantCount data).
Qed.

(** The percentage is +0 or a positive double that denotes at most 100. *)
Lemma premiumPercentage_atMost (data : MTPpremium_BoostsStatus) :
  atMost false 100 (premiumPercentage data).
Proof.
  unfold premiumPercentage.
  pose proof (premiumCount_range data) as [Hc0 Hc].
  pose proof (participantCount_range data) as [Hcp Hp].
  destruct (0 <? participantCount data) eqn:E; [| reflexivity].
  apply Z.ltb_lt in E.
  assert (2 ^ 31 < 2 ^ 53) by (apply Z.pow_lt_mono_r; lia).
  rewrite (f64_of_Z_canon (participantCount data)) by lia.
  destruct (Z.eq_dec (premiumCount data) 0) as [E0|E0].
  - rewrite E0. reflexivity.
  - rewrite f64mul_hundred_canon by lia.
    assert (25 * premiumCount data < 2 ^ 36).
    { replace 36 with (5 + 31) by lia. rewrite pow_split by lia.
      change (2 ^ 5) with 32. lia. }
    apply (f64div_canon_bound 100 7); try lia.
    + apply Zdigits2_le; lia.
    + apply Zdigits2_le; lia.
Qed.

(** C9: in the overview of a boost status the premium member count is never
    negative and the premium percentage is a finite double that denotes a
    number between 0 and 100.  Without premium_audience both are 0 and
    nothing is divided; with it, a division is performed only by a divisor
    that is positive and is the maximum of the total and the premium member
    count. *)
Theorem premium_audience_overview (data : MTPpremium_BoostsStatus) :
  let o := overview data in
  0 ≤ premiumMemberCount o
  ∧ f64finite (premiumMemberPercentage o) = true
  ∧ (0 <= f64_to_Q (premiumMemberPercentage o))%Q
  ∧ (f64_to_Q (premiumMemberPercentage o) <= 100)%Q
  ∧ premiumMemberPercentage o
    = match premiumDivision data with
      | Some (dividend, divisor) => f64div dividend (f64_of_Z divisor)
      | None => zero64
      end
  ∧ match vpremium_audience data with
    | None =>
        premiumMemberCount o = 0
        ∧ premiumMemberPercentage o = zero64
        ∧ premiumDivision data = None
    | Some audience =>
        premiumMemberCount o = Z.max 0 (int_of_double (vpart audience))
        ∧ ∀ dividend divisor,
            premiumDivision data = Some (dividend, divisor) →
            0 < divisor
            ∧ divisor = Z.max (int_of_double (vtotal audience))
                          (premiumMemberCount o)
            ∧ dividend = f64mul hundred (f64_of_Z (premiumMemberCount o))
    end.
Proof.
  cbv zeta. cbn [overview premiumMemberCount premiumMemberPercentage].
  destruct (atMost_value 100 (premiumPercentage data) ltac:(lia)
              (premiumPercentage_atMost data)) as (Hf & H0 & H100).
  split_and!; try assumption.
  - apply premiumCount_range.
  - apply premiumPercentage_division.
  - unfold premiumDivision, premiumPercentage, participantCount, premiumCount.
    destruct (vpremium_audience data) as [audience|]; [| now cbn].
    split; [reflexivity |]. intros dividend divisor.
    destruct (0 <? _) eqn:E; [| discriminate].
    intros [= <- <-]. apply Z.ltb_lt in E. auto.
Qed.

(** A part above the total gives 100 percent, a negative part 0 percent
    with no division, and 1 of 3 gives the double nearest to 33.3. *)
Example premium_part_above_total :
  let data :=
    {| vmy_boost_slots := None; vlevel := 1; vboosts := 2;
       vcurrent_level_boosts := 1; vnext_level_boosts := None;
       vpremium_audience :=
         Some {| vpart := f64_of_Z 7; vtotal := f64_of_Z 5 |} |} in
  premiumMemberCount (overview data) = 7
  ∧ premiumDivision data = Some (f64_of_Z 700, 7)
  ∧ premiumMemberPercentage (overview data) = hundred.
Proof. cbv zeta. split_and!; vm_compute; reflexivity. Qed.

Example premium_negative_part :
  let data :=
    {| vmy_boost_slots := None; vlevel := 1; vboosts := 2;
       vcurrent_level_boosts := 1; vnext_level_boosts := None;
       vpremium_audience :=
         Some {| vpart := f64_of_Z (-3); vtotal := zero64 |} |} in
  premiumMemberCount (overview data) = 0
  ∧ premiumDivision data = None
  ∧ premiumMemberPercentage (overview data) = zero64.
Proof. cbv zeta. split_and!; vm_compute; reflexivity. Qed.

Example premium_one_third :
  let data :=
    {| vmy_boost_slots := None; vlevel := 1; vboosts := 2;
       vcurrent_level_boosts := 1; vnext_level_boosts := None;
       vpremium_audience :=
         Some {| vpart := f64_of_Z 1; vtotal := f64_of_Z 3 |} |} in
  premiumMemberPercentage (overview data)
  = S754_finite false 4691249611844267 (-47).
Proof. cbv zeta. vm_compute. reflexivity. Qed.

End BoostsFacts.

(** ** MessageStatistics *)

Section MessageStatsFacts.

Import MessageStats.

Implicit Types (s : State) (d : Done).

Lemma holders_app {H : Type} (doneOfH : H → Done) d
    (l1 l2 : list (RequestId * H)) :
  holders doneOfH d (l1 ++ l2)
  = (holders doneOfH d l1 + holders doneOfH d l2)%nat.
Proof.
  induction l1 as [|[id h] l1 IH]; cbn; [reflexivity | rewrite IH; lia].
Qed.

Lemma holders_remove_own d (id : RequestId) (l : list (RequestId * Handler)) :
  (holders doneOf d (removeRequest id l)
   + match findRequest id l with
     | Some h => if Nat.eqb d (doneOf h) then 1 else 0
     | None => 0
     end
   ≤ holders doneOf d l)%nat.
Proof.
  induction l as [|[id' h] l IH]; cbn; [lia |].
  destruct (id =? id'); cbn.
  - pose proof (IH) as H'.
    destruct (findRequest id l); destruct (Nat.eqb d (doneOf h)); lia.
  - lia.
Qed.

Lemma holders_remove_forwards d (id : RequestId)
    (l : list (RequestId * Forwards.Handler Callback)) :
  (holders doneOfForwards d (Forwards.removeRequest Callback id l)
   + match Forwards.findRequest Callback id l with
     | Some h => if Nat.eqb d (doneOfForwards h) then 1 else 0
     | None => 0
     end
   ≤ holders doneOfForwards d l)%nat.
Proof.
  induction l as [|[id' h] l IH]; cbn; [lia |].
  destruct (id =? id'); cbn.
  - destruct (Forwards.findRequest Callback id l);
      destruct (Nat.eqb d (doneOfForwards h)); lia.
  - lia.
Qed.

(** Sending a request adds one holder of its [done]. *)
Lemma waiting_send d (h : Handler) s :
  waiting d (send h s)
  = (waiting d s + if Nat.eqb d (doneOf h) then 1 else 0)%nat.
Proof. unfold waiting, send. cbn. rewrite holders_app. cbn. lia. Qed.

Lemma waiting_requestFirstPublicForwards d (done : Done)
    (mg rg : Values.StatisticalGraph)
    (info : StatisticsMessageInteractionInfo) s :
  (waiting d (requestFirstPublicForwards done mg rg info s)
   ≤ waiting d s + if Nat.eqb d done then 1 else 0)%nat.
Proof.
  unfold waiting, requestFirstPublicForwards, Forwards.request,
    Forwards.requestMessage, Forwards.requestStory, Forwards.send. cbn.
  destruct (Forwards._requestId Callback (_publicForwards s) =? 0); [| lia].
  destruct (Forwards.FullMsgId_set _); cbn.
  - rewrite holders_app. cbn. lia.
  - destruct (Forwards.FullStoryId_set _); cbn; [| lia].
    rewrite holders_app. cbn. lia.
Qed.

Lemma waiting_handleOwn d (h : Handler) (a : Answer) s s' :
  handleOwn h a s = Some s' →
  (waiting d s' ≤ waiting d s + if Nat.eqb d (doneOf h) then 1 else 0)%nat.
Proof.
  unfold handleOwn, requestPrivateForwards, requestStoryPrivateForwards.
  destruct h as [done|done|done mg rg|done mg rg]; cbn [doneOf];
    destruct a as [v r|stories|[loaded result|loaded result|]];
    try (intros [= <-]; rewrite ?waiting_send; cbn [doneOf]; lia);
    try (intros [= <-]; apply waiting_requestFirstPublicForwards).
  - destruct (countersFromMessages result); [| discriminate].
    intros [= <-]. apply waiting_requestFirstPublicForwards.
  - destruct (countersFromStories stories); [| discriminate].
    intros [= <-]. apply waiting_requestFirstPublicForwards.
Qed.

Lemma waiting_answered d (id : RequestId) s :
  (waiting d (answered id s)
   + match findRequest id (inFlight s) with
     | Some h => if Nat.eqb d (doneOf h) then 1 else 0
     | None => 0
     end
   ≤ waiting d s)%nat.
Proof.
  unfold waiting, answered. cbn.
  pose proof (holders_remove_own d id (inFlight s)). lia.
Qed.

(** One step never calls, or leaves waiting, more holders of a [done] than
    were waiting before or were handed in by the step itself. *)
Lemma step_calls d s (e : Event) s' (out : list Output) :
  step s e = Some (s', out) →
  (callsOf d out + waiting d s' ≤ waiting d s + requestsOf d [e])%nat.
Proof.
  destruct e as [done|id a]; cbn [step requestsOf].
  - intros [= <- <-]. unfold request.
    destruct (isMegagroup s); [cbn; lia |].
    destruct (Forwards.FullStoryId_set _); rewrite waiting_send; cbn; lia.
  - pose proof (waiting_answered d id s) as Hrem.
    destruct (findRequest id (inFlight s)) as [h|] eqn:Hfind.
    + destruct (expects h a); [| intros [= <- <-]; cbn; lia].
      destruct (handleOwn h a (answered id s)) as [s1|] eqn:Hh;
        [| discriminate].
      intros [= <- <-]. apply (waiting_handleOwn d) in Hh. cbn. lia.
    + destruct a as [v r|stories|fa]; try (intros [= <- <-]; cbn; lia).
      unfold Forwards.handle.
      pose proof (holders_remove_forwards d id
                    (Forwards.inFlight Callback (_publicForwards s))) as Hf.
      destruct (Forwards.findRequest Callback id _)
        as [[token cb|token cb]|];
        destruct fa as [loaded result|loaded result|];
        cbn; intros [= <- <-]; unfold waiting in *; cbn in *;
        rewrite ?Hfind in *; try destruct (Nat.eqb d (cb_done cb)); lia.
Qed.

Lemma requestsOf_cons d (e : Event) (evs : list Event) :
  requestsOf d (e :: evs) = (requestsOf d [e] + requestsOf d evs)%nat.
Proof. destruct e; cbn; lia. Qed.

Lemma callsOf_app d (o1 o2 : list Output) :
  callsOf d (o1 ++ o2) = (callsOf d o1 + callsOf d o2)%nat.
Proof.
  induction o1 as [|[d' r] o1 IH]; cbn; [reflexivity | rewrite IH; lia].
Qed.

Lemma runFrom_calls d (evs : list Event) s s' (out : list Output) :
  runFrom s evs = Some (s', out) →
  (callsOf d out + waiting d s' ≤ waiting d s + requestsOf d evs)%nat.
Proof.
  revert s s' out. induction evs as [|e evs IH]; intros s s' out.
  - intros [= <- <-]. cbn. lia.
  - cbn [runFrom]. destruct (step s e) as [[s1 o1]|] eqn:Hstep;
      [| discriminate].
    destruct (runFrom s1 evs) as [[s2 o2]|] eqn:Hrun; [| discriminate].
    intros [= <- <-]. apply (step_calls d) in Hstep. apply IH in Hrun.
    rewrite callsOf_app, requestsOf_cons. lia.
Qed.

(** Running a fixed script of events. *)
Ltac run_script := repeat (cbn; rewrite ?Z.eqb_refl).

(** The three steps of the message path with a successful page: whether
    the first two succeed or fail, [done] is called once with the result
    built from what they gave, and the object is idle again. *)
Lemma message_path_done s d
    (stats : option (Values.MTPStatsGraph * Values.MTPStatsGraph))
    (counters : option Forwards.MTPmessages_Messages)
    (info : StatisticsMessageInteractionInfo)
    (loaded : Forwards.PeerId → bool) (page : Forwards.MTPmessages_Messages) :
  isMegagroup s = false → idle s → messageTarget s →
  infoOfMessages counters = Some info →
  ∃ s',
    runFrom s
      [Request d; Answered (nextRequestId s) (statsAnswer stats);
       Answered (nextRequestId s + 1) (messagesAnswer counters);
       Answered (nextRequestId s + 1 + 1)
         (Other (Forwards.MessagesAnswer loaded page))]
    = Some (s',
            [CallDone d
               (unified (fst (graphsOf stats)) (snd (graphsOf stats)) info
                  (Z.max (Forwards._lastTotal Callback (_publicForwards s))
                     (Forwards.fullCountOf loaded page)))])
    ∧ isMegagroup s' = false ∧ idle s' ∧ messageTarget s'.
Proof.
  destruct s as [mg fid sid [pfid prid plast pfl] first fl n].
  unfold idle, messageTarget. cbn.
  intros -> (-> & -> & ->) (Hs & Hm) Hinfo.
  destruct stats as [[v r]|]; destruct counters as [result|];
    cbn [infoOfMessages] in Hinfo; try (injection Hinfo as <-).
  all: unfold request; cbn; rewrite Hs; run_script; rewrite ?Hinfo;
    run_script;
    unfold Forwards.sends, Forwards.request, Forwards.handle,
      Forwards.requestMessage, Forwards.send, Forwards.deliver;
    cbn; rewrite Hm; run_script; rewrite ?decodeMessages_fullCount;
    (eexists; split; [reflexivity |]); cbn; rewrite ?Z.eqb_refl, ?Hm;
    (split_and!; try reflexivity; try assumption).
Qed.

(** The same for a story. *)
Lemma story_path_done s d
    (stats : option (Values.MTPStatsGraph * Values.MTPStatsGraph))
    (counters : option (list Forwards.MTPStoryItem))
    (info : StatisticsMessageInteractionInfo)
    (loaded : Forwards.PeerId → bool)
    (page : Forwards.MTPstats_PublicForwards) :
  isMegagroup s = false → idle s → storyTarget s →
  infoOfStories counters = Some info →
  ∃ s',
    runFrom s
      [Request d; Answered (nextRequestId s) (statsAnswer stats);
       Answered (nextRequestId s + 1) (storiesAnswer counters);
       Answered (nextRequestId s + 1 + 1)
         (Other (Forwards.StoryAnswer loaded page))]
    = Some (s',
            [CallDone d
               (unified (fst (graphsOf stats)) (snd (graphsOf stats)) info
                  (Z.max (Forwards._lastTotal Callback (_publicForwards s))
                     (Forwards.vcount page)))])
    ∧ isMegagroup s' = false ∧ idle s' ∧ storyTarget s'.
Proof.
  destruct s as [mg fid sid [pfid prid plast pfl] first fl n].
  unfold idle, storyTarget. cbn.
  intros -> (-> & -> & ->) (Hs & Hm & Hst) Hinfo.
  destruct stats as [[v r]|]; destruct counters as [stories|];
    cbn [infoOfStories] in Hinfo; try (injection Hinfo as <-).
  all: unfold request; cbn; rewrite Hs; run_script; rewrite ?Hinfo;
    run_script;
    unfold Forwards.sends, Forwards.request, Forwards.handle,
      Forwards.requestStory, Forwards.send, Forwards.deliver;
    cbn; rewrite Hm, Hst; run_script;
    (eexists; split; [reflexivity |]); cbn; rewrite ?Z.eqb_refl, ?Hm, ?Hst;
    (split_and!; try reflexivity; try assumption).
Qed.

(** C1, as the code has it: [done] is called at most as often as it was
    handed to request; on a megagroup request does nothing; and on a channel
    that is not one, a call of request for a message or a story, made while
    nothing of the object is in flight and followed by the answers to its
    three requests with no other call in between, calls [done] exactly
    once, with the unified result, when the first page of public forwards
    is answered with success, also when the statistics request or the
    lookup of the counters has failed (empty graphs and empty counters take
    their place), provided that an answer to the lookup carries a first
    message, or story; the object is then ready for the next call. *)
Theorem MessageStatistics_request_done :
  (∀ s (evs : list Event) s' (out : list Output) d,
     runFrom s evs = Some (s', out) →
     (callsOf d out ≤ waiting d s + requestsOf d evs)%nat)
  ∧ (∀ s d, isMegagroup s = true → step s (Request d) = Some (s, []))
  ∧ (∀ s d stats counters info loaded page,
       isMegagroup s = false → idle s → messageTarget s →
       infoOfMessages counters = Some info →
       ∃ s',
         runFrom s
           [Request d; Answered (nextRequestId s) (statsAnswer stats);
            Answered (nextRequestId s + 1) (messagesAnswer counters);
            Answered (nextRequestId s + 1 + 1)
              (Other (Forwards.MessagesAnswer loaded page))]
         = Some (s',
                 [CallDone d
                    (unified (fst (graphsOf stats)) (snd (graphsOf stats))
                       info
                       (Z.max
                          (Forwards._lastTotal Callback (_publicForwards s))
                          (Forwards.fullCountOf loaded page)))])
         ∧ isMegagroup s' = false ∧ idle s' ∧ messageTarget s')
  ∧ (∀ s d stats counters info loaded page,
       isMegagroup s = false → idle s → storyTarget s →
       infoOfStories counters = Some info →
       ∃ s',
         runFrom s
           [Request d; Answered (nextRequestId s) (statsAnswer stats);
            Answered (nextRequestId s + 1) (storiesAnswer counters);
            Answered (nextRequestId s + 1 + 1)
              (Other (Forwards.StoryAnswer loaded page))]
         = Some (s',
                 [CallDone d
                    (unified (fst (graphsOf stats)) (snd (graphsOf stats))
                       info
                       (Z.max
                          (Forwards._lastTotal Callback (_publicForwards s))
                          (Forwards.vcount page)))])
         ∧ isMegagroup s' = false ∧ idle s' ∧ storyTarget s').
Proof.
  split_and!.
  - intros s evs s' out d H. apply (runFrom_calls d) in H. lia.
  - intros s d H. cbn. unfold request. now rewrite H.
  - apply message_path_done.
  - apply story_path_done.
Qed.

(** Once no handler in flight holds [done] and it is not handed in again,
    it is never called, whatever the transport answers. *)
Lemma done_lost_for_good s (later : list Event) s' (out : list Output) d :
  waiting d s = 0%nat → requestsOf d later = 0%nat →
  runFrom s later = Some (s', out) → callsOf d out = 0%nat.
Proof.
  intros Hw Hr H. apply (runFrom_calls d) in H. lia.
Qed.

End MessageStatsFacts.

(** ** The life of a StatisticsRequestSender *)

Section SenderLife.

Import Sender.

Variable ShiftDcId : DcId → Z → Z.
Variable kStatsDcShift : Z.

Implicit Types (s : State) (pending : RequestId → bool).

Abbreviation apply := (apply ShiftDcId kStatsDcShift).
Abbreviation runOps := (runOps ShiftDcId kStatsDcShift).
Abbreviation traceFrom := (traceFrom ShiftDcId kStatsDcShift).

Lemma traceFrom_cons s op ops :
  traceFrom s (op :: ops) = (apply op s).2 ++ traceFrom (apply op s).1 ops.
Proof.
  unfold Sender.traceFrom. cbn [Sender.runOps].
  destruct (apply op s) as [s1 e1]. cbn [fst snd].
  destruct (runOps ops s1) as [s2 e2]. cbn [fst snd].
  now rewrite app_assoc.
Qed.

Lemma apply_unregister s op dc id :
  UnregisterStatsRequest dc id ∈ (apply op s).2 →
  ∃ pending, op = Sweep pending ∧ tracked s dc id ∧ pending id = false.
Proof.
  destruct op as [id' dcId|pending]; cbn [Sender.apply].
  - unfold makeRequest. destruct (decide (dcId = 0)); cbn; intros H.
    + inversion H.
    + apply elem_of_cons in H as [H|H]; [discriminate |].
      destruct (_timerActive s); [inversion H |].
      apply list_elem_of_singleton in H. discriminate.
  - rewrite checkRequests_effects. intros H.
    apply elem_of_app in H as [H|H].
    + apply elem_of_unregisteredBy in H as (? & ? & [= <- <-] & H1 & H2).
      eauto.
    + destruct (decide _); [| inversion H].
      apply list_elem_of_singleton in H. discriminate.
Qed.

Lemma apply_register s op dc id :
  RegisterStatsRequest dc id ∈ (apply op s).2
  ↔ op = Make id dc ∧ dc ≠ 0.
Proof.
  destruct op as [id' dcId|pending]; cbn [Sender.apply].
  - unfold makeRequest. destruct (decide (dcId = 0)) as [E|E]; cbn.
    + split; [intros H; inversion H | intros [[= -> ->] H]; contradiction].
    + split.
      * intros H. apply elem_of_cons in H as [[= -> ->]|H]; [auto |].
        destruct (_timerActive s); [inversion H |].
        apply list_elem_of_singleton in H. discriminate.
      * intros [[= -> ->] _]. apply list_elem_of_here.
  - split; [| intros [H _]; discriminate].
    rewrite checkRequests_effects. intros H.
    apply elem_of_app in H as [H|H].
    + apply elem_of_unregisteredBy in H as (? & ? & ? & _). discriminate.
    + destruct (decide _); [| inversion H].
      apply list_elem_of_singleton in H. discriminate.
Qed.

Lemma tracked_apply s op dc id :
  tracked (apply op s).1 dc id
  ↔ match op with
    | Make id' dcId => tracked s dc id ∨ (dcId ≠ 0 ∧ dc = dcId ∧ id = id')
    | Sweep pending => tracked s dc id ∧ pending id = true
    end.
Proof.
  destruct op; cbn [Sender.apply].
  - apply tracked_after_makeRequest.
  - apply tracked_after_sweep.
Qed.

(** What is tracked is unregistered: by a later sweep or by the destructor. *)
Lemma tracked_unregistered ops s dc id :
  tracked s dc id → UnregisterStatsRequest dc id ∈ traceFrom s ops.
Proof.
  revert s. induction ops as [|op ops IH]; intros s H.
  - unfold Sender.traceFrom. cbn. apply elem_of_destroy. eauto.
  - rewrite traceFrom_cons. apply elem_of_app.
    destruct op as [id' dcId|pending].
    + right. apply IH. apply tracked_apply. auto.
    + destruct (pending id) eqn:Hp.
      * right. apply IH. apply tracked_apply. auto.
      * left. cbn [Sender.apply]. rewrite checkRequests_effects.
        apply elem_of_app. left. apply elem_of_unregisteredBy. eauto.
Qed.

Lemma registered_unregistered ops s dc id :
  RegisterStatsRequest dc id ∈ traceFrom s ops →
  UnregisterStatsRequest dc id ∈ traceFrom s ops.
Proof.
  revert s. induction ops as [|op ops IH]; intros s H.
  - unfold traceFrom in H. cbn in H.
    apply elem_of_destroy in H as (? & ? & ? & _). discriminate.
  - rewrite traceFrom_cons in *. apply elem_of_app in H as [H|H].
    + apply apply_register in H as [-> Hdc]. apply elem_of_app. right.
      apply tracked_unregistered. apply tracked_apply. auto.
    + apply elem_of_app. right. now apply IH.
Qed.

(** What is unregistered was tracked at the start or registered before. *)
Lemma unregistered_after_registered ops s pre post dc id :
  traceFrom s ops = pre ++ UnregisterStatsRequest dc id :: post →
  tracked s dc id ∨ RegisterStatsRequest dc id ∈ pre.
Proof.
  revert s pre. induction ops as [|op ops IH]; intros s pre H.
  - left. assert (UnregisterStatsRequest dc id ∈ traceFrom s []) as Hin.
    { rewrite H. apply elem_of_app. right. apply list_elem_of_here. }
    unfold traceFrom in Hin. cbn in Hin.
    apply elem_of_destroy in Hin as (? & ? & [= <- <-] & Hin). exact Hin.
  - rewrite traceFrom_cons in H.
    apply app_eq_app in H as [l [[H1 H2]|[H1 H2]]].
    + destruct l as [|e l].
      * rewrite app_nil_r in H1. subst pre. cbn in H2.
        destruct (IH (apply op s).1 [] (eq_sym H2)) as [Ht|Hr];
          [| inversion Hr].
        apply tracked_apply in Ht. destruct op as [id' dcId|pending].
        -- destruct Ht as [Ht|(Hdc & -> & ->)]; [auto |].
           right. apply apply_register. auto.
        -- left. apply Ht.
      * injection H2 as He _. subst e.
        assert (UnregisterStatsRequest dc id ∈ (apply op s).2) as Hin.
        { rewrite H1. apply elem_of_app. right. apply list_elem_of_here. }
        apply apply_unregister in Hin as (? & _ & Ht & _). auto.
    + subst pre.
      destruct (IH (apply op s).1 l H2) as [Ht|Hr].
      * apply tracked_apply in Ht. destruct op as [id' dcId|pending].
        -- destruct Ht as [Ht|(Hdc & -> & ->)]; [auto |].
           right. apply elem_of_app. left. apply apply_register. auto.
        -- left. apply Ht.
      * right. apply elem_of_app. auto.
Qed.

Lemma registered_made ops s dc id :
  RegisterStatsRequest dc id ∈ traceFrom s ops → id ∈ madeIds ops.
Proof.
  revert s. induction ops as [|op ops IH]; intros s H.
  - unfold traceFrom in H. cbn in H.
    apply elem_of_destroy in H as (? & ? & ? & _). discriminate.
  - rewrite traceFrom_cons in H. apply elem_of_app in H as [H|H].
    + apply apply_register in H as [-> _]. apply list_elem_of_here.
    + apply IH in H.
      destruct op; cbn; [now apply list_elem_of_further | exact H].
Qed.

Lemma NoDup_destroy s : NoDup (destroy s).
Proof.
  unfold destroy. apply NoDup_bind.
  - intros [dc1 ids1] [dc2 ids2] e H1 H2 He1 He2. cbn in He1, He2.
    apply list_elem_of_fmap in He1 as (id1 & -> & _).
    apply list_elem_of_fmap in He2 as (id2 & [= <- <-] & _).
    apply elem_of_map_to_list in H1, H2. congruence.
  - intros [dc ids] _. cbn. apply NoDup_fmap_2.
    + intros a b [= ->]. reflexivity.
    + apply NoDup_elements.
  - apply NoDup_map_to_list.
Qed.

Lemma elem_of_unregisters (l : list Effect) e :
  e ∈ filter (λ e, isUnregister e = true) l
  ↔ e ∈ l ∧ ∃ dc id, e = UnregisterStatsRequest dc id.
Proof.
  rewrite list_elem_of_filter. split.
  - intros [He H]. destruct e; try discriminate. eauto.
  - intros [H (dc & id & ->)]. auto.
Qed.

Lemma NoDup_unregisters ops s :
  (∀ dc id, tracked s dc id → id ∉ madeIds ops) →
  NoDup (madeIds ops) →
  NoDup (filter (λ e, isUnregister e = true) (traceFrom s ops)).
Proof.
  revert s. induction ops as [|op ops IH]; intros s Hfresh Hnd.
  - unfold Sender.traceFrom. cbn. apply NoDup_filter, NoDup_destroy.
  - rewrite traceFrom_cons, filter_app. apply NoDup_app. split_and!.
    + destruct op as [id' dcId|pending]; cbn [Sender.apply].
      * unfold makeRequest.
        destruct (decide (dcId = 0)); cbn; [apply NoDup_nil_2 |].
        destruct (_timerActive s); apply NoDup_nil_2.
      * apply NoDup_filter. rewrite checkRequests_effects.
        apply NoDup_app. split_and!.
        -- apply NoDup_unregisteredBy.
        -- intros e He H. destruct (decide _); [| inversion H].
           apply list_elem_of_singleton in H. subst e.
           apply elem_of_unregisteredBy in He as (? & ? & ? & _).
           discriminate.
        -- destruct (decide _); [apply NoDup_singleton | apply NoDup_nil_2].
    + intros e He Hrest.
      apply elem_of_unregisters in He as [He (dc & id & ->)].
      apply elem_of_unregisters in Hrest as [Hrest _].
      apply apply_unregister in He as (pending & -> & Ht & Hp).
      apply list_elem_of_split in Hrest as (pre & post & Hrest).
      pose proof (unregistered_after_registered _ _ _ _ _ _ Hrest) as [H|H].
      * apply tracked_apply in H as [_ H]. congruence.
      * apply (Hfresh dc id Ht). cbn [madeIds].
        apply (registered_made ops (apply (Sweep pending) s).1 dc).
        rewrite Hrest. apply elem_of_app. auto.
    + apply IH.
      * intros dc id Ht. apply tracked_apply in Ht.
        destruct op as [id' dcId|pending]; cbn [madeIds] in *.
        -- apply NoDup_cons in Hnd as [Hid _].
           destruct Ht as [Ht|(_ & _ & ->)]; [| exact Hid].
           intros H. apply (Hfresh dc id Ht). now apply list_elem_of_further.
        -- destruct Ht as [Ht _]. now apply (Hfresh dc).
      * destruct op; cbn [madeIds] in Hnd; [| exact Hnd].
        now apply NoDup_cons in Hnd as [_ Hnd].
Qed.

Lemma untracked_init dc id : ¬ tracked init dc id.
Proof.
  intros (ids & H & _). cbn in H. rewrite lookup_empty in H. discriminate.
Qed.

(** X1: over the whole life of a sender, from its construction through any
    requests with distinct ids and any sweeps to its destruction, the
    ledger is balanced: a pair of shard and id is unregistered if and only
    if it was registered, never before its registration, and never twice. *)
Theorem sender_ledger_balance (ops : list Op) :
  NoDup (madeIds ops) →
  let trace := lifetime ShiftDcId kStatsDcShift ops in
  (∀ dc id, RegisterStatsRequest dc id ∈ trace
            ↔ UnregisterStatsRequest dc id ∈ trace)
  ∧ (∀ pre post dc id,
       trace = pre ++ UnregisterStatsRequest dc id :: post →
       RegisterStatsRequest dc id ∈ pre)
  ∧ NoDup (filter (λ e, isUnregister e = true) trace).
Proof.
  intros Hnd. cbv zeta. unfold lifetime.
  assert (Hord : ∀ pre post dc id,
    traceFrom init ops = pre ++ UnregisterStatsRequest dc id :: post →
    RegisterStatsRequest dc id ∈ pre).
  { intros pre post dc id H.
    apply unregistered_after_registered in H as [H|H]; [| exact H].
    now apply untracked_init in H. }
  split_and!.
  - intros dc id. split; [apply registered_unregistered |].
    intros H. apply list_elem_of_split in H as (pre & post & H).
    rewrite H. apply elem_of_app. left. eapply Hord, H.
  - exact Hord.
  - apply NoDup_unregisters; [| exact Hnd].
    intros dc id H. now apply untracked_init in H.
Qed.

Lemma timerInv_apply s op : timerInv s → timerInv (apply op s).1.
Proof.
  intros [Hne Ht]. destruct op as [id dcId|pending]; cbn [Sender.apply].
  - unfold makeRequest.
    destruct (decide (dcId = 0)); cbn [fst snd _requests _timerActive];
      [now split |].
    split; cbn [_requests _timerActive].
    + intros dc. destruct (decide (dc = dcId)) as [->|Hdc].
      * rewrite lookup_insert_eq. intros [= H].
        apply (not_elem_of_empty (C := gset Z) id). rewrite <- H.
        apply elem_of_union_l, elem_of_singleton. reflexivity.
      * rewrite lookup_insert_ne by congruence. apply Hne.
    + split; [| reflexivity]. intros _ H.
      apply (f_equal (λ m, m !! dcId)) in H.
      rewrite lookup_insert_eq, lookup_empty in H. discriminate.
  - split.
    + intros dc H. now apply no_empty_shard_after_sweep in H.
    + rewrite checkRequests_requests. unfold checkRequests.
      destruct (decide _) as [E|E]; cbn.
      * split; [discriminate | contradiction].
      * rewrite Ht. split; [auto |]. intros _ H. apply E.
        rewrite H. apply omap_empty.
Qed.

Lemma timerInv_runOps ops s : timerInv s → timerInv (runOps ops s).1.
Proof.
  revert s. induction ops as [|op ops IH]; intros s H; [exact H |].
  cbn [Sender.runOps]. pose proof (timerInv_apply s op H) as H1.
  destruct (apply op s) as [s1 e1]. cbn [fst] in H1.
  specialize (IH s1 H1). destruct (runOps ops s1) as [s2 e2]. exact IH.
Qed.

(** X2: after any requests and sweeps of a sender no shard is kept with an
    empty set of ids, and the timer is active exactly while some request is
    tracked. *)
Theorem sender_timer_runs_while_tracking (ops : list Op) :
  let s := (runOps ops init).1 in
  (∀ dc, _requests s !! dc ≠ Some ∅)
  ∧ (_timerActive s = true ↔ ∃ dc id, tracked s dc id).
Proof.
  cbv zeta. destruct (timerInv_runOps ops init) as [Hne Ht].
  { split; [intros dc; cbn; rewrite lookup_empty; discriminate |].
    cbn. split; [discriminate | contradiction]. }
  split; [exact Hne |]. rewrite Ht. split.
  - intros H. apply map_choose in H as (dc & ids & Hm).
    destruct (set_choose_L ids) as [id Hid].
    { intros ->. now apply (Hne dc). }
    exists dc, id, ids. auto.
  - intros (dc & id & ids & Hm & _) E. rewrite E, lookup_empty in Hm.
    discriminate.
Qed.

(** X3: a sweep that follows a sweep with the same answers of the transport
    changes nothing and unregisters nothing; it only cancels the timer
    again when nothing is tracked. *)
Theorem checkRequests_twice pending s :
  let s1 := (checkRequests pending s).1 in
  checkRequests pending s1
  = (s1, if decide (_requests s1 = ∅) then [TimerCancel] else []).
Proof.
  cbv zeta.
  assert (Hm : omap (keepShard pending)
                 (_requests (checkRequests pending s).1)
               = _requests (checkRequests pending s).1).
  { rewrite checkRequests_requests. apply map_eq. intros dc.
    rewrite !lookup_omap.
    destruct (_requests s !! dc) as [ids|]; cbn; [| reflexivity].
    destruct (keepShard pending ids) as [kept|] eqn:Hk; cbn; [| reflexivity].
    apply keepShard_Some in Hk as [-> Hne]. apply keepShard_Some.
    split; [| exact Hne]. apply set_eq. intros id.
    rewrite !elem_of_filter. tauto. }
  assert (Hu : unregisteredBy pending (checkRequests pending s).1 = []).
  { destruct (unregisteredBy _ _) as [|e l] eqn:E; [reflexivity |].
    assert (e ∈ unregisteredBy pending (checkRequests pending s).1) as H
      by (rewrite E; apply list_elem_of_here).
    apply elem_of_unregisteredBy in H as (dc & id & _ & H & Hp).
    apply tracked_after_sweep in H as [_ H]. congruence. }
  unfold checkRequests at 1. cbv zeta. rewrite Hm, Hu.
  destruct (decide _) as [E|E]; cbn.
  - f_equal. unfold checkRequests in *. destruct (decide _) as [E'|E'];
      cbn in *; [now rewrite E | contradiction].
  - f_equal. now destruct (checkRequests pending s).1.
Qed.

End SenderLife.

(** ** ChannelStatisticsFromTL *)

Section ChannelFacts.

Import Values Channel.

Lemma SFcompare_antisym (x y : float64) :
  SFcompare y x = option_map CompOpp (SFcompare x y).
Proof.
  destruct x as [sx|sx| |sx mx ex], y as [sy|sy| |sy my ey];
    try destruct sx; try destruct sy; try reflexivity; cbn.
  - rewrite (Z.compare_antisym ey ex).
    destruct (ey ?= ex) eqn:E; cbn; try reflexivity.
    change (PosDef.Pos.compare_cont Eq ?a ?b) with (Pos.compare a b).
    now rewrite (Pos.compare_antisym my mx), CompOpp_involutive.
  - rewrite (Z.compare_antisym ey ex).
    destruct (ey ?= ex) eqn:E; cbn; try reflexivity.
    change (PosDef.Pos.compare_cont Eq ?a ?b) with (Pos.compare a b).
    now rewrite (Pos.compare_antisym my mx), CompOpp_involutive.
Qed.

Lemma SFltb_false_SFleb (x y : float64) :
  f64number x = true → f64number y = true →
  SFltb x y = false → SFleb y x = true.
Proof.
  intros Hx Hy. unfold SFltb, SFleb. rewrite (SFcompare_antisym x y).
  destruct (SFcompare x y) as [[]|] eqn:E; cbn; try reflexivity;
    try discriminate.
  destruct x, y; try discriminate; cbn in E; discriminate.
Qed.

Lemma clamp_range (v : float64) :
  f64number v = true →
  SFleb zero64 (clamp v zero64 hundred) = true
  ∧ SFleb (clamp v zero64 hundred) hundred = true.
Proof.
  intros Hv. unfold clamp.
  destruct (SFltb v zero64) eqn:E0; [split; reflexivity |].
  destruct (SFltb hundred v) eqn:E1; [split; reflexivity |].
  split; apply SFltb_false_SFleb; auto.
Qed.

Lemma clamp_number (v : float64) :
  f64number (clamp v zero64 hundred) = f64number v.
Proof.
  unfold clamp.
  destruct (SFltb v zero64) eqn:E0.
  { destruct v; try reflexivity. discriminate. }
  destruct (SFltb hundred v) eqn:E1; [| reflexivity].
  destruct v; try reflexivity. discriminate.
Qed.

(** X4: the share of members with notifications enabled, as
    ChannelStatisticsFromTL computes it, is zero when the total is zero;
    whenever it is a number it lies between 0 and 100; it is a number
    whenever part is one and total is finite; and it is NaN exactly when
    the total is not zero and part / total * 100 is NaN, which the clamp
    lets through. *)
Theorem ChannelStatisticsFromTL_unmuted (data : MTPDstats_broadcastStats) :
  let part := Boosts.vpart (venabled_notifications data) in
  let total := Boosts.vtotal (venabled_notifications data) in
  let u := enabledNotificationsPercentage (ChannelStatisticsFromTL data) in
  (f64_to_bool total = false → u = zero64)
  ∧ (f64number u = true →
     SFleb zero64 u = true ∧ SFleb u hundred = true)
  ∧ (f64number part = true → f64finite total = true → f64number u = true)
  ∧ (f64number u = false
     ↔ f64_to_bool total = true
       ∧ f64number (f64mul (f64div part total) hundred) = false).
Proof.
  cbv zeta. cbn [ChannelStatisticsFromTL enabledNotificationsPercentage].
  unfold unmuted.
  destruct (f64_to_bool (Boosts.vtotal (venabled_notifications data))) eqn:Et;
    cbn [negb].
  - split_and!.
    + discriminate.
    + rewrite clamp_number. apply clamp_range.
    + intros Hp Hf. rewrite clamp_number.
      apply f64mul_hundred_number, f64div_number; auto.
    + rewrite clamp_number. tauto.
  - split_and!; try reflexivity; try discriminate.
    + split; reflexivity.
    + split; [discriminate | intros [H _]; discriminate].
Qed.
End ChannelFacts.



(** ** Statistics::request *)

Section StatsRequestFacts.

Import StatsRequest.

Implicit Types (s : State) (c : ConsumerId).

Lemma stats_terminals_app c (o1 o2 : list Output) :
  terminals c (o1 ++ o2) = (terminals c o1 + terminals c o2)%nat.
Proof.
  induction o1 as [|o o1 IH]; [reflexivity |].
  destruct o; cbn; rewrite IH; lia.
Qed.

Lemma stats_waiting_app c (l1 l2 : list (RequestId * Handler)) :
  waiting c (l1 ++ l2) = (waiting c l1 + waiting c l2)%nat.
Proof.
  induction l1 as [|[i h] l1 IH]; [reflexivity |]. cbn. rewrite IH. lia.
Qed.

Lemma stats_removeRequest_absent (id : RequestId) (l : list (RequestId * Handler)) :
  id ∉ map fst l → removeRequest id l = l.
Proof.
  induction l as [|[i h] l IH]; [reflexivity |]. cbn. intros H.
  destruct (id =? i) eqn:E.
  - apply Z.eqb_eq in E. subst. exfalso. apply H, list_elem_of_here.
  - f_equal. apply IH. intros Hin. apply H. now apply list_elem_of_further.
Qed.

(** Answering a request in flight takes exactly its own entry away. *)
Lemma stats_waiting_answered c (id : RequestId) (h : Handler)
    (l : list (RequestId * Handler)) :
  NoDup (map fst l) → findRequest id l = Some h →
  waiting c l
  = ((if Nat.eqb c (consumerOf h) then 1 else 0)
     + waiting c (removeRequest id l))%nat.
Proof.
  induction l as [|[i h'] l IH]; [discriminate |]. cbn. intros Hnd Hf.
  apply NoDup_cons in Hnd as [Hi Hnd]. destruct (id =? i) eqn:E.
  - apply Z.eqb_eq in E. subst. injection Hf as ->.
    now rewrite stats_removeRequest_absent.
  - cbn. rewrite (IH Hnd Hf). lia.
Qed.

Lemma stats_elem_of_removeRequest (id i : RequestId)
    (l : list (RequestId * Handler)) :
  i ∈ map fst (removeRequest id l) → i ∈ map fst l.
Proof.
  induction l as [|[j h] l IH]; [auto |]. cbn.
  destruct (id =? j); cbn; intros H.
  - apply list_elem_of_further. auto.
  - apply elem_of_cons in H as [->|H];
      [apply list_elem_of_here | apply list_elem_of_further; auto].
Qed.

Lemma stats_NoDup_removeRequest (id : RequestId) (l : list (RequestId * Handler)) :
  NoDup (map fst l) → NoDup (map fst (removeRequest id l)).
Proof.
  induction l as [|[j h] l IH]; [auto |]. cbn. intros H.
  apply NoDup_cons in H as [Hj H]. destruct (id =? j); cbn; [auto |].
  apply NoDup_cons. split; [| auto].
  intros Hin. apply Hj. eapply stats_elem_of_removeRequest, Hin.
Qed.

Lemma stats_Forall_removeRequest (P : RequestId * Handler → Prop) (id : RequestId)
    (l : list (RequestId * Handler)) :
  Forall P l → Forall P (removeRequest id l).
Proof.
  induction 1 as [|[j h] l Hp Hl IH]; cbn; [constructor |].
  destruct (id =? j); [exact IH | now constructor].
Qed.

Lemma wellFormed_send (h : Handler) s :
  wellFormed s → wellFormed (send h s).
Proof.
  intros [Hnd Hlt]. split; cbn.
  - rewrite map_app. cbn. apply NoDup_app. split_and!; [exact Hnd | |].
    + intros i Hi Hin. apply list_elem_of_singleton in Hin. subst i.
      apply list_elem_of_fmap in Hi as ([j h'] & ? & Hi). cbn in *. subst j.
      rewrite Forall_forall in Hlt.
      specialize (Hlt _ Hi). cbn in Hlt. lia.
    + apply NoDup_singleton.
  - apply Forall_app. split.
    + eapply List.Forall_impl; [| exact Hlt]. cbn. intros. lia.
    + constructor; [cbn; lia | constructor].
Qed.

Lemma wellFormed_answered (id : RequestId) s :
  wellFormed s → wellFormed (answered id s).
Proof.
  intros [Hnd Hlt]. split; cbn.
  - now apply stats_NoDup_removeRequest.
  - now apply stats_Forall_removeRequest.
Qed.

Lemma stats_step_balance c s (e : Event) :
  wellFormed s →
  wellFormed (step s e).1
  ∧ (terminals c (step s e).2 + waiting c (inFlight (step s e).1))%nat
    = (waiting c (inFlight s) + subscriptions c [e])%nat.
Proof.
  intros Hwf. destruct e as [c'|id result|id result|id error]; cbn [step].
  - unfold request. destruct (isMegagroup s); cbn [negb fst snd];
      (split; [now apply wellFormed_send |]);
      cbn; rewrite stats_waiting_app; cbn; lia.
  - destruct (findRequest id (inFlight s)) as [[c'|c']|] eqn:Hf;
      cbn [fst snd onBroadcastDone inFlight subscriptions];
      try (split; [exact Hwf | cbn; lia]).
    split; [apply (wellFormed_answered id s Hwf) |].
    rewrite (stats_waiting_answered c id _ _ (proj1 Hwf) Hf). cbn. lia.
  - destruct (findRequest id (inFlight s)) as [[c'|c']|] eqn:Hf;
      cbn [fst snd onMegagroupDone inFlight subscriptions];
      try (split; [exact Hwf | cbn; lia]).
    split; [apply (wellFormed_answered id s Hwf) |].
    rewrite (stats_waiting_answered c id _ _ (proj1 Hwf) Hf). cbn. lia.
  - destruct (findRequest id (inFlight s)) as [h|] eqn:Hf;
      cbn [fst snd onFail inFlight subscriptions];
      try (split; [exact Hwf | cbn; lia]).
    split; [apply (wellFormed_answered id s Hwf) |].
    rewrite (stats_waiting_answered c id _ _ (proj1 Hwf) Hf). cbn. lia.
Qed.

Lemma stats_subscriptions_cons c (e : Event) (evs : list Event) :
  subscriptions c (e :: evs)
  = (subscriptions c [e] + subscriptions c evs)%nat.
Proof. destruct e; cbn; lia. Qed.

Lemma stats_runFrom_balance c (evs : list Event) s :
  wellFormed s →
  wellFormed (runFrom s evs).1
  ∧ (terminals c (runFrom s evs).2 + waiting c (inFlight (runFrom s evs).1))%nat
    = (waiting c (inFlight s) + subscriptions c evs)%nat.
Proof.
  revert s. induction evs as [|e evs IH]; intros s Hwf.
  - cbn. split; [exact Hwf | lia].
  - cbn [runFrom]. destruct (stats_step_balance c s e Hwf) as [Hwf1 H1].
    destruct (step s e) as [s1 o1]. cbn [fst snd] in *.
    destruct (IH s1 Hwf1) as [Hwf2 H2].
    destruct (runFrom s1 evs) as [s2 o2]. cbn [fst snd] in *.
    split; [exact Hwf2 |].
    rewrite stats_terminals_app, (stats_subscriptions_cons c e evs). lia.
Qed.

(** X5: from a state with nothing in flight, over any subscriptions and
    answers, every subscription of a consumer to Statistics::request is
    either ended by exactly one terminal signal or its request is still in
    flight.  The done handler of a channel stores the decoded statistics
    and signals the end; that of a megagroup stores them, hands the users
    to the owner and signals the end; the fail handler passes the error on
    and stores nothing. *)
Theorem Statistics_request_one_terminal c (evs : list Event) s :
  inFlight s = [] →
  let s' := (runFrom s evs).1 in
  let out := (runFrom s evs).2 in
  (terminals c out + waiting c (inFlight s'))%nat = subscriptions c evs
  ∧ (∀ s0 id c0 result,
       findRequest id (inFlight s0) = Some (BroadcastHandler c0) →
       (step s0 (BroadcastDone id result)).2 = [PutDone c0]
       ∧ _channelStats (step s0 (BroadcastDone id result)).1
         = Channel.ChannelStatisticsFromTL result)
  ∧ (∀ s0 id c0 result,
       findRequest id (inFlight s0) = Some (MegagroupHandler c0) →
       (step s0 (MegagroupDone id result)).2
       = [ProcessUsers (Supergroup.vusers result); PutDone c0]
       ∧ _supergroupStats (step s0 (MegagroupDone id result)).1
         = Supergroup.SupergroupStatisticsFromTL result)
  ∧ (∀ s0 id h error,
       findRequest id (inFlight s0) = Some h →
       (step s0 (Fail id error)).2 = [PutError (consumerOf h) error]
       ∧ _channelStats (step s0 (Fail id error)).1 = _channelStats s0
       ∧ _supergroupStats (step s0 (Fail id error)).1 = _supergroupStats s0).
Proof.
  intros He. cbv zeta. split_and!.
  - destruct (stats_runFrom_balance c evs s) as [_ H].
    { split; rewrite He; cbn; [apply NoDup_nil_2 | constructor]. }
    rewrite H, He. reflexivity.
  - intros s0 id c0 result Hf. cbn [step]. rewrite Hf. auto.
  - intros s0 id c0 result Hf. cbn [step]. rewrite Hf. auto.
  - intros s0 id h error Hf. cbn [step]. rewrite Hf. auto.
Qed.

End StatsRequestFacts.

(** ** The consumers of the zoom queue *)

Section ZoomMore.

Import Zoom.

Implicit Types (s : State) (t : Task) (e : Event) (c : ConsumerId).

Lemma asks_app c (l1 l2 : list Task) :
  asks c (l1 ++ l2) = (asks c l1 + asks c l2)%nat.
Proof. induction l1 as [|t l1 IH]; cbn; [reflexivity | rewrite IH; lia]. Qed.

Lemma charts_app c (o1 o2 : list Output) :
  charts c (o1 ++ o2) = (charts c o1 + charts c o2)%nat.
Proof.
  induction o1 as [|o o1 IH]; [reflexivity |]. destruct o; cbn; rewrite IH; lia.
Qed.

Lemma dones_app c (o1 o2 : list Output) :
  dones c (o1 ++ o2) = (dones c o1 + dones c o2)%nat.
Proof.
  induction o1 as [|o o1 IH]; [reflexivity |]. destruct o; cbn; rewrite IH; lia.
Qed.

Lemma errors_app c (o1 o2 : list Output) :
  errors c (o1 ++ o2) = (errors c o1 + errors c o2)%nat.
Proof.
  induction o1 as [|o o1 IH]; [reflexivity |]. destruct o; cbn; rewrite IH; lia.
Qed.

Lemma step_accounted c (sub st : list Task) s e :
  Queue sub st s →
  (dones c (snd (step s e)) + errors c (snd (step s e))
   + pending c (fst (step s e))
   = pending c s + asks c (submitted [e]))%nat
  ∧ charts c (snd (step s e)) = dones c (snd (step s e)).
Proof.
  unfold pending.
  intros [Hd Hf _|h rest Hd _ Hf]; destruct e as [t|id result|id error];
    cbn [submitted step].
  - unfold requestZoom, pushBack, runFront, runTask. rewrite Hd, Hf. cbn.
    split; [lia | reflexivity].
  - rewrite Hf. cbn. rewrite Hd, Hf. cbn. auto.
  - rewrite Hf. cbn. rewrite Hd, Hf. cbn. auto.
  - unfold requestZoom, pushBack. rewrite Hd. cbn. rewrite asks_app. cbn.
    split; [lia | reflexivity].
  - destruct Hf as [Hf|[id' Hf]]; rewrite Hf; cbn.
    + rewrite Hd, Hf. cbn. split; [lia | reflexivity].
    + destruct (id =? id') eqn:E; cbn.
      * unfold onDone, answered, popFront, runFront, runTask.
        rewrite Hd, Hf. cbn. rewrite E. cbn.
        destruct rest as [|t2 rest]; cbn;
          destruct (Nat.eqb c (consumer h)); split; lia.
      * rewrite Hd, Hf. cbn. split; [lia | reflexivity].
  - destruct Hf as [Hf|[id' Hf]]; rewrite Hf; cbn.
    + rewrite Hd, Hf. cbn. split; [lia | reflexivity].
    + destruct (id =? id') eqn:E; cbn.
      * rewrite Hd, Hf. cbn. rewrite E. cbn.
        destruct (Nat.eqb c (consumer h)); split; lia.
      * rewrite Hd, Hf. cbn. split; [lia | reflexivity].
Qed.

Lemma runFrom_accounted c (evs : list Event) (sub st : list Task) s :
  Queue sub st s →
  (dones c (snd (runFrom s evs)) + errors c (snd (runFrom s evs))
   + pending c (fst (runFrom s evs))
   = pending c s + asks c (submitted evs))%nat
  ∧ charts c (snd (runFrom s evs)) = dones c (snd (runFrom s evs)).
Proof.
  revert sub st s. induction evs as [|e evs IH]; intros sub st s H.
  - cbn. split; [lia | reflexivity].
  - pose proof (step_accounted c sub st s e H) as [H1 H2].
    apply (Queue_step _ _ _ e) in H. apply IH in H as [H3 H4].
    cbn [runFrom]. destruct (step s e) as [s1 o1]. cbn [fst snd] in *.
    destruct (runFrom s1 evs) as [s2 o2]. cbn [fst snd] in *.
    rewrite dones_app, errors_app, charts_app.
    change (e :: evs) with ([e] ++ evs). rewrite submitted_app, asks_app.
    split; lia.
Qed.

(** X6: after any sequence of requestZoom calls and answers, every task a
    consumer submitted is accounted for: its consumer was told the end or
    an error, once, or the task still waits behind the head of the deque or
    for the answer to its request; and a consumer is handed a graph exactly
    as often as it is told the end. *)
Theorem requestZoom_accounted c (evs : list Event) :
  let s := fst (run evs) in
  let out := snd (run evs) in
  (dones c out + errors c out + pending c s = asks c (submitted evs))%nat
  ∧ charts c out = dones c out.
Proof.
  cbv zeta. destruct (runFrom_accounted c evs [] [] init) as [H1 H2].
  { now apply QueueIdle. }
  unfold run. split; [| exact H2]. rewrite H1. reflexivity.
Qed.
End ZoomMore.

(** ** The pages of PublicForwards *)

Section ForwardsMore.

Import Forwards.

Context {K : Type}.

(** X7: the answer to a message page in flight is delivered as one slice.
    Its list holds, in the order of the answer, the forwards whose peer is
    loaded and whose date is not zero, each as a message id; its total is
    the running maximum, where the full list counts the forwards kept and
    not those received; the id in its token is that of the last forward
    kept, or the empty id when there is none;
    the rate in its token is the answer's next rate when a partial slice
    carries one that differs from the rate asked with, and zero otherwise;
    and the object is ready for the next request. *)
Theorem requestMessage_page (s : State K) (id : RequestId)
    (token0 : OffsetToken) (done : K) (loaded : PeerId → bool)
    (result : MTPmessages_Messages) :
  findRequest K id (inFlight K s) = Some (MessageHandler K token0 done) →
  let posts := List.filter (keeps loaded) (messagesOf result) in
  ∃ slice,
    snd (handle K id (MessagesAnswer loaded result) s)
    = [Deliver K done slice]
    ∧ list_ slice = map (λ m, messagePost (fullIdOf m)) posts
    ∧ total slice = Z.max (_lastTotal K s) (fullCountOf loaded result)
    ∧ fullId (token slice) = List.last (map fullIdOf posts) noMsgId
    ∧ rate (token slice) = nextRateOf token0 result
    ∧ storyOffset (token slice) = ""%string
    ∧ _requestId K (fst (handle K id (MessagesAnswer loaded result) s)) = 0.
Proof.
  intros Hf. cbv zeta. unfold handle. rewrite Hf. unfold deliver.
  cbn [fst snd _requestId]. eexists. split; [reflexivity |].
  cbn [list_ total token].
  destruct result as [ms|[nr|] c ms|c ms|];
    cbn [decodeMessages messagesOf fullCountOf];
    try rewrite process_spec; cbn [nextRateOf];
    try destruct (nr =? rate token0); cbn; rewrite ?length_map; auto 10.
Qed.

Lemma storyForwards_spec (peerLoaded : PeerId → bool)
    (forwards : list MTPPublicForward) (recentList : list RecentPostId) :
  storyForwards peerLoaded forwards recentList
  = recentList ++ omap (forwardPost peerLoaded) forwards.
Proof.
  revert recentList. induction forwards as [|f fs IH]; intros recentList.
  - cbn. now rewrite app_nil_r.
  - destruct f as [m|p [i v| |]]; cbn [storyForwards omap list_omap forwardPost].
    + unfold keeps.
      destruct (peerLoaded (PeerFromMessage m) && negb (DateFromMessage m =? 0)).
      * rewrite IH, <- app_assoc. reflexivity.
      * apply IH.
    + rewrite IH, <- app_assoc. reflexivity.
    + apply IH.
    + apply IH.
Qed.

(** X8: the answer to a story page in flight is delivered as one slice.
    Its list holds, in the order of the answer, the forwarded messages
    whose peer is loaded and whose date is not zero and the forwarded
    stories that are story items (deleted and skipped ones are left out);
    its total is the running maximum; its token carries the next offset,
    or the empty one; it is the last page exactly when the next offset is
    absent, empty or the offset asked with; and the object is ready for
    the next request. *)
Theorem requestStory_page (s : State K) (id : RequestId)
    (token0 : OffsetToken) (done : K) (loaded : PeerId → bool)
    (data : MTPstats_PublicForwards) :
  findRequest K id (inFlight K s) = Some (StoryHandler K token0 done) →
  ∃ slice,
    snd (handle K id (StoryAnswer loaded data) s) = [Deliver K done slice]
    ∧ list_ slice = omap (forwardPost loaded) (vforwards data)
    ∧ total slice = Z.max (_lastTotal K s) (vcount data)
    ∧ token slice
      = {| rate := 0; fullId := noMsgId;
           storyOffset := default ""%string (vnext_offset data) |}
    ∧ (allLoaded slice = true
       ↔ vnext_offset data = None
         ∨ vnext_offset data = Some ""%string
         ∨ vnext_offset data = Some (storyOffset token0))
    ∧ _requestId K (fst (handle K id (StoryAnswer loaded data) s)) = 0.
Proof.
  intros Hf. unfold handle. rewrite Hf. unfold deliver, decodeStory.
  cbn [fst snd _requestId d_list d_allLoaded d_fullCount d_nextToken].
  eexists. split; [reflexivity |].
  cbn [list_ total token allLoaded]. split_and!; try reflexivity.
  - apply (storyForwards_spec loaded (vforwards data) []).
  - rewrite orb_true_iff, !String.eqb_eq.
    destruct (vnext_offset data) as [o|]; cbn.
    + split.
      * intros [->| ->]; auto.
      * intros [H|[[= ->]|[= ->]]]; [discriminate | auto | auto].
    + split; auto.
Qed.

Lemma request_busy (s : State K) (id : RequestId) (token : OffsetToken)
    (done : K) :
  _requestId K s ≠ 0 → request K id token done s = s.
Proof.
  intros H. unfold request. apply Z.eqb_neq in H. now rewrite H.
Qed.

Lemma singleFlight_step (s : State K) (next : RequestId) (e : Event K) :
  0 < next → singleFlight s →
  0 < snd (fst (step K (s, next) e))
  ∧ singleFlight (fst (fst (step K (s, next) e)))
  ∧ (length (snd (step K (s, next) e))
     + length (inFlight K (fst (fst (step K (s, next) e))))
     ≤ length (inFlight K s) + requested [e])%nat.
Proof.
  intros Hnext Hs. destruct e as [token done|id a]; cbn [step].
  - unfold sends, request, requestMessage, requestStory, send.
    destruct Hs as [[Hr Hl]|(h & Hr & Hl)].
    + rewrite Hr, Hl. cbn [Z.eqb andb].
      destruct (FullMsgId_set (messageId (_fullId K s))); cbn [orb fst snd].
      { split; [lia | split; [| cbn; rewrite ?Hl; cbn; lia]].
        right. eexists. cbn. split; [lia | reflexivity]. }
      destruct (FullStoryId_set (storyId (_fullId K s))); cbn [orb fst snd].
      { split; [lia | split; [| cbn; rewrite ?Hl; cbn; lia]].
        right. eexists. cbn. split; [lia | reflexivity]. }
      split; [lia | split; [| cbn; rewrite ?Hl; cbn; lia]]. left. auto.
    + apply Z.eqb_neq in Hr. rewrite Hr. cbn [andb fst snd].
      split; [lia | split; [| cbn; rewrite ?Hl; cbn; lia]]. right. exists h.
      apply Z.eqb_neq in Hr. auto.
  - unfold handle. destruct Hs as [[Hr Hl]|(h & Hr & Hl)].
    + rewrite Hl. cbn. split; [lia | split; [| rewrite ?Hl; cbn; lia]].
      left. auto.
    + rewrite Hl. cbn [findRequest].
      destruct (id =? _requestId K s) eqn:E.
      * apply Z.eqb_eq in E. subst id.
        destruct h as [t d|t d], a as [l r|l r|];
          unfold deliver, failed; cbn [fst snd _requestId inFlight];
          rewrite ?Hl; cbn [removeRequest]; rewrite ?Z.eqb_refl; cbn;
          (split; [lia | split; [| rewrite ?Hl; cbn; lia]]);
          try (left; now split);
          (right; eexists; split; [exact Hr | exact Hl]).
      * cbn. split_and!; [lia | | rewrite Hl; cbn; lia].
        right. exists h. auto.
Qed.

Lemma requested_cons (e : Event K) (evs : list (Event K)) :
  requested (e :: evs) = (requested [e] + requested evs)%nat.
Proof. destruct e; cbn; lia. Qed.

Lemma singleFlight_runFrom (evs : list (Event K)) (s : State K)
    (next : RequestId) :
  0 < next → singleFlight s →
  singleFlight (fst (fst (runFrom K (s, next) evs)))
  ∧ (length (snd (runFrom K (s, next) evs))
     + length (inFlight K (fst (fst (runFrom K (s, next) evs))))
     ≤ length (inFlight K s) + requested evs)%nat.
Proof.
  revert s next. induction evs as [|e evs IH]; intros s next Hn Hs.
  - cbn. split; [exact Hs | lia].
  - cbn [runFrom]. destruct (singleFlight_step s next e Hn Hs) as (H1 & H2 & H3).
    destruct (step K (s, next) e) as [[s1 n1] o1]. cbn [fst snd] in *.
    destruct (IH s1 n1 H1 H2) as [H4 H5].
    destruct (runFrom K (s1, n1) evs) as [[s2 n2] o2]. cbn [fst snd] in *.
    split; [exact H4 |]. rewrite length_app, (requested_cons e evs). lia.
Qed.

(** X9: a PublicForwards object whose request ids start above zero never
    has two page requests in flight, and [_requestId] is zero exactly when
    none is; the slices delivered and the request in flight are together
    at most as many as the calls of request; and a call of request while a
    page is in flight changes nothing, so its callback is dropped. *)
Theorem PublicForwards_single_flight (evs : list (Event K))
    (target : RecentPostId) (next : RequestId) :
  0 < next →
  let s := fst (fst (runFrom K (init K target, next) evs)) in
  let out := snd (runFrom K (init K target, next) evs) in
  singleFlight s
  ∧ (length out + length (inFlight K s) ≤ requested evs)%nat
  ∧ (∀ id token done, _requestId K s ≠ 0 → request K id token done s = s).
Proof.
  intros Hn. cbv zeta.
  destruct (singleFlight_runFrom evs (init K target) next Hn) as [H1 H2].
  { left. auto. }
  split_and!; [exact H1 | exact H2 |].
  intros id token done. apply request_busy.
Qed.
End ForwardsMore.

(** ** The steps of MessageStatistics *)

Section MessageStatsMore.

Import MessageStats.

Implicit Types (s : State) (d : Done).

Lemma countersFromMessages_None (result : Forwards.MTPmessages_Messages) :
  countersFromMessages result = None ↔ noFirstMessage result.
Proof.
  unfold noFirstMessage.
  assert (Hp : ∀ ms, processCounters ms = None ↔ ms = []).
  { intros [|m ms]; cbn; split; auto; discriminate. }
  destruct result as [ms|nr c ms|c ms|]; cbn; rewrite ?Hp.
  - split; [split; [discriminate | assumption] | intros [_ H]; exact H].
  - split; [split; [discriminate | assumption] | intros [_ H]; exact H].
  - split; [split; [discriminate | assumption] | intros [_ H]; exact H].
  - split; [discriminate | intros [H _]; contradiction].
Qed.

Lemma countersFromStories_None (stories : list Forwards.MTPStoryItem) :
  countersFromStories stories = None ↔ stories = [].
Proof.
  destruct stories as [|[i [v|]| |] l]; cbn; split; auto; discriminate.
Qed.

(** X10: the done handlers of the lookup of the counters read the first
    message, or the first story, of the answer without looking whether
    there is one.  A step of MessageStatistics calls [front()] on an empty
    vector in exactly two cases: the answer to GetMessages has a vector of
    messages that is empty, or the answer to GetStoriesByID has no story.
    Every other step, also one with a not-modified answer or a failure,
    reads no element that is missing. *)
Theorem MessageStatistics_front_of_empty s (e : Event) :
  step s e = None
  ↔ ∃ id done mg rg,
      (∃ loaded result,
         e = Answered id (Other (Forwards.MessagesAnswer loaded result))
         ∧ findRequest id (inFlight s) = Some (MessagesHandler done mg rg)
         ∧ noFirstMessage result)
      ∨ (e = Answered id (StoriesAnswer [])
         ∧ findRequest id (inFlight s) = Some (StoriesHandler done mg rg)).
Proof.
  split.
  - destruct e as [d|id a]; cbn [step]; [discriminate |].
    destruct (findRequest id (inFlight s)) as [h|] eqn:Hf.
    + destruct h as [done|done|done mg rg|done mg rg];
        destruct a as [v r|stories|[loaded result|loaded result|]];
        cbn [expects handleOwn]; try discriminate.
      * destruct (countersFromMessages result) eqn:E; [discriminate |].
        apply countersFromMessages_None in E.
        intros _. exists id, done, mg, rg. left. eauto.
      * destruct (countersFromStories stories) eqn:E; [discriminate |].
        apply countersFromStories_None in E. subst stories.
        intros _. exists id, done, mg, rg. right. auto.
    + destruct a as [v r|stories|fa]; try discriminate.
      destruct (Forwards.handle Callback id fa (_publicForwards s)).
      discriminate.
  - intros (id & done & mg & rg & [(loaded & result & -> & Hf & H)|[-> Hf]]);
      cbn [step]; rewrite Hf; cbn [expects handleOwn].
    + apply countersFromMessages_None in H. now rewrite H.
    + reflexivity.
Qed.

(** X11: a step of MessageStatistics calls at most one [done], and when
    it does, the slice kept for firstSlice is the one just delivered: the
    public forwards of the result are its total, which is the running
    total of the forwards object, not below the one known before; and the
    forwards object is ready for the next request. *)
Theorem MessageStatistics_first_slice s (e : Event) :
  match step s e with
  | Some (s', out) =>
      out = []
      ∨ ∃ d r,
          out = [CallDone d r]
          ∧ publicForwards r = Forwards.total (_firstSlice s')
          ∧ publicForwards r
            = Forwards._lastTotal Callback (_publicForwards s')
          ∧ Forwards._lastTotal Callback (_publicForwards s)
            ≤ publicForwards r
          ∧ Forwards._requestId Callback (_publicForwards s') = 0
  | None => True
  end.
Proof.
  destruct e as [d|id a]; cbn [step]; [auto |].
  destruct (findRequest id (inFlight s)) as [h|].
  - destruct (expects h a); [| auto].
    destruct (handleOwn h a (answered id s)); auto.
  - destruct a as [v r|stories|fa]; auto.
    unfold Forwards.handle.
    destruct (Forwards.findRequest Callback id
                (Forwards.inFlight Callback (_publicForwards s)))
      as [[token cb|token cb]|];
      destruct fa as [loaded result|loaded result|]; cbn; auto;
      right; eexists _, _; (split; [reflexivity |]); cbn;
      split_and!; try reflexivity; lia.
Qed.
End MessageStatsMore.

(** ** Boosts::request and Boosts::requestBoosts *)

Section BoostsRequestFacts.

Import BoostsRequest.

Variable createInternalLink : string → string.
Variable createInternalLinkFull : string → string.
Variable kFirstSlice : Z.
Variable kLimit : Z.

Abbreviation step :=
  (step createInternalLink createInternalLinkFull kFirstSlice kLimit).
Abbreviation runFrom :=
  (runFrom createInternalLink createInternalLinkFull kFirstSlice kLimit).
Abbreviation requestBoosts := (requestBoosts kFirstSlice kLimit).
Abbreviation callDone := (callDone kFirstSlice kLimit).
Abbreviation decodeList :=
  (decodeList createInternalLink createInternalLinkFull).
Abbreviation decodeBoost :=
  (decodeBoost createInternalLink createInternalLinkFull).

Implicit Types (s : State) (c : ConsumerId).

Lemma boosts_terminals_app c (o1 o2 : list Output) :
  terminals c (o1 ++ o2) = (terminals c o1 + terminals c o2)%nat.
Proof.
  induction o1 as [|o o1 IH]; [reflexivity |].
  destruct o; cbn; rewrite IH; lia.
Qed.

Lemma boosts_waiting_app c (l1 l2 : list (RequestId * Handler)) :
  waiting c (l1 ++ l2) = (waiting c l1 + waiting c l2)%nat.
Proof.
  induction l1 as [|[i h] l1 IH]; [reflexivity |]. cbn. rewrite IH. lia.
Qed.

Lemma boosts_waiting_remove c (id : RequestId) (l : list (RequestId * Handler)) :
  (waiting c (removeRequest id l)
   + match findRequest id l with
     | Some h => if holds c h then 1 else 0
     | None => 0
     end
   ≤ waiting c l)%nat.
Proof.
  induction l as [|[i h] l IH]; cbn; [lia |].
  destruct (id =? i); cbn.
  - destruct (findRequest id l); destruct (holds c h); lia.
  - lia.
Qed.

Lemma boosts_requestBoosts_waiting c (token : OffsetToken) (done : Done) s :
  terminals c (requestBoosts token done s).2 = 0%nat
  ∧ (waiting c (inFlight (requestBoosts token done s).1)
     ≤ waiting c (inFlight s)
       + if holds c (ListHandler (gifts token) done) then 1 else 0)%nat.
Proof.
  unfold BoostsRequest.requestBoosts.
  destruct (negb (_requestId s =? 0)); cbn [fst snd]; [cbn; lia |].
  cbn [terminals setRequestId send inFlight]. rewrite boosts_waiting_app.
  cbn [waiting]. lia.
Qed.

Lemma boosts_step_terminals c s (e : Event) :
  (terminals c (step s e).2 + waiting c (inFlight (step s e).1)
   ≤ waiting c (inFlight s) + subscriptions c [e])%nat.
Proof.
  destruct e as [c'|token k|id result|id result|id error]; cbn [BoostsRequest.step].
  - unfold request. destruct (negb (isChannel s) || isMegagroup s);
      cbn [fst snd]; [cbn; lia |].
    cbn [send inFlight]. rewrite boosts_waiting_app. cbn. lia.
  - destruct (boosts_requestBoosts_waiting c token (Caller k) s) as [H1 H2].
    cbn [holds] in H2. cbn [subscriptions]. lia.
  - pose proof (boosts_waiting_remove c id (inFlight s)) as Hrem.
    destruct (findRequest id (inFlight s)) as [[c'|g d]|];
      try (cbn; lia).
    unfold onStatusDone.
    match goal with
    | |- context [requestBoosts ?t ?d ?s0] =>
        destruct (boosts_requestBoosts_waiting c t d s0) as [H1 H2]
    end.
    cbn [holds gifts setStatus answered inFlight] in *.
    cbn [subscriptions]. lia.
  - pose proof (boosts_waiting_remove c id (inFlight s)) as Hrem.
    destruct (findRequest id (inFlight s)) as [[c'|g d]|];
      try (cbn; lia).
    unfold onListDone.
    destruct d as [c'|c'|k]; cbn [BoostsRequest.callDone holds] in *.
    + match goal with
      | |- context [requestBoosts ?t ?d ?s0] =>
          destruct (boosts_requestBoosts_waiting c t d s0) as [H1 H2];
          destruct (requestBoosts t d s0) as [s2 out]
      end.
      cbn [fst snd holds gifts setStatus setRequestId answered inFlight
           terminals subscriptions] in *. lia.
    + cbn [fst snd setStatus setRequestId answered inFlight terminals
           subscriptions]. lia.
    + cbn [fst snd setStatus setRequestId answered inFlight terminals
           subscriptions]. lia.
  - pose proof (boosts_waiting_remove c id (inFlight s)) as Hrem.
    destruct (findRequest id (inFlight s)) as [[c'|g d]|];
      cbn in *; lia.
Qed.

Lemma boosts_subscriptions_cons c (e : Event) (evs : list Event) :
  subscriptions c (e :: evs)
  = (subscriptions c [e] + subscriptions c evs)%nat.
Proof. destruct e; cbn; lia. Qed.

Lemma boosts_runFrom_terminals c (evs : list Event) s :
  (terminals c (runFrom s evs).2 + waiting c (inFlight (runFrom s evs).1)
   ≤ waiting c (inFlight s) + subscriptions c evs)%nat.
Proof.
  revert s. induction evs as [|e evs IH]; intros s; [cbn; lia |].
  cbn [BoostsRequest.runFrom]. pose proof (boosts_step_terminals c s e) as H1.
  destruct (step s e) as [s1 o1]. cbn [fst snd] in *.
  specialize (IH s1). destruct (runFrom s1 evs) as [s2 o2].
  cbn [fst snd] in *. rewrite boosts_terminals_app, (boosts_subscriptions_cons c e evs).
  lia.
Qed.

(** X12: over any subscriptions, page requests of other callers and
    answers, a consumer of Boosts::request is told the end or an error at
    most once for each of its subscriptions and each request in flight
    that held it at the start. *)
Theorem Boosts_request_at_most_once c (evs : list Event) s :
  let out := (runFrom s evs).2 in
  (terminals c out ≤ waiting c (inFlight s) + subscriptions c evs)%nat.
Proof.
  cbv zeta. pose proof (boosts_runFrom_terminals c evs s). lia.
Qed.

(** Running a fixed script of events. *)
Ltac run_boosts := repeat (cbn; rewrite ?Z.eqb_refl).

(** Bringing a state built by the setters to a record. *)
Ltac normal_state :=
  cbv [onListFail setRequestId answered send setStatus isChannel isMegagroup
       peerId _requestId _boostStatus inFlight nextRequestId].

(** X13: on a channel that is not a megagroup, with nothing in flight, a
    subscription whose three requests succeed (the status, the first page
    of boosts, the first page of gifts) sends them one after the other,
    each after the answer to the one before, tells the consumer the end
    once, after the last answer, and leaves the overview, the link, the
    prepaid giveaways and both first pages in the status; the object has
    nothing in flight again. *)
Theorem Boosts_request_done c s (result : StatusResult)
    (boosts gifts : MTPpremium_BoostsList) :
  isChannel s = true → isMegagroup s = false → idle s →
  let n := nextRequestId s in
  let run :=
    runFrom s
      [Subscribe c; StatusDone n result;
       ListDone (n + 1) boosts; ListDone (n + 1 + 1) gifts] in
  run.2
  = [SendGetBoostsStatus n;
     SendGetBoostsList (n + 1) false "" kFirstSlice;
     ProcessUsers (vusers boosts);
     SendGetBoostsList (n + 1 + 1) true "" kFirstSlice;
     ProcessUsers (vusers gifts);
     PutDone c]
  ∧ _boostStatus run.1
    = {| overview := Boosts.overview (status result);
         firstSliceBoosts := decodeList (peerId s) false boosts;
         firstSliceGifts := decodeList (peerId s) true gifts;
         prepaidGiveaway :=
           match vprepaid_giveaways result with
           | Some giveaways =>
               map (λ r, {| months := vmonths r;
                            id := giveaway_vid r;
                            quantity := vquantity r;
                            date := giveaway_vdate r |}) giveaways
           | None => prepaidGiveaway (_boostStatus s)
           end;
         boostLink := vboost_url result |}
  ∧ idle run.1.
Proof.
  destruct s as [ch mg p rid b fl n]. unfold idle. cbn.
  intros -> -> [-> ->]. unfold request. run_boosts.
  unfold onStatusDone, BoostsRequest.requestBoosts. run_boosts.
  unfold onListDone, BoostsRequest.callDone, BoostsRequest.requestBoosts.
  run_boosts. auto.
Qed.

(** X14: how a subscription to Boosts::request ends without the end being
    signalled.  When the peer is no channel or is a megagroup nothing is
    sent and the consumer is told nothing.  When the status request fails
    the consumer is told the error, once.  When the request for the first
    page of boosts, or the one for the first page of gifts, fails, the
    consumer is told nothing: the object has nothing in flight again, and
    whatever follows without a new subscription of the consumer, it is
    never told the end or an error. *)
Theorem Boosts_request_lost c s :
  (negb (isChannel s) || isMegagroup s = true →
   step s (Subscribe c) = (s, []))
  ∧ (isChannel s = true → isMegagroup s = false → idle s →
     let n := nextRequestId s in
     (∀ error,
        (runFrom s [Subscribe c; Fail n error]).2
        = [SendGetBoostsStatus n; PutError c error]
        ∧ idle (runFrom s [Subscribe c; Fail n error]).1)
     ∧ (∀ result error (later : list Event),
          let s1 :=
            (runFrom s [Subscribe c; StatusDone n result;
                        Fail (n + 1) error]).1 in
          idle s1
          ∧ terminals c
              (runFrom s [Subscribe c; StatusDone n result;
                          Fail (n + 1) error]).2 = 0%nat
          ∧ (subscriptions c later = 0%nat →
             terminals c (runFrom s1 later).2 = 0%nat))
     ∧ (∀ result boosts error (later : list Event),
          let s2 :=
            (runFrom s [Subscribe c; StatusDone n result;
                        ListDone (n + 1) boosts;
                        Fail (n + 1 + 1) error]).1 in
          idle s2
          ∧ terminals c
              (runFrom s [Subscribe c; StatusDone n result;
                          ListDone (n + 1) boosts;
                          Fail (n + 1 + 1) error]).2 = 0%nat
          ∧ (subscriptions c later = 0%nat →
             terminals c (runFrom s2 later).2 = 0%nat))).
Proof.
  split.
  - intros H. cbn. unfold request. now rewrite H.
  - destruct s as [ch mg p rid b fl n]. unfold idle. cbn [isChannel
      isMegagroup inFlight _requestId nextRequestId].
    intros -> -> [-> ->]. cbv zeta. split_and!.
    + intros error. unfold request. run_boosts. auto.
    + intros result error later.
      assert (Hrun : ∃ b1,
        runFrom
          {| isChannel := true; isMegagroup := false; peerId := p;
             _requestId := 0; _boostStatus := b; inFlight := [];
             nextRequestId := n |}
          [Subscribe c; StatusDone n result; Fail (n + 1) error]
        = ({| isChannel := true; isMegagroup := false; peerId := p;
              _requestId := 0; _boostStatus := b1; inFlight := [];
              nextRequestId := n + 1 + 1 |},
           [SendGetBoostsStatus n;
            SendGetBoostsList (n + 1) false "" kFirstSlice])).
      { unfold request. run_boosts.
        unfold onStatusDone, BoostsRequest.requestBoosts. run_boosts.
        normal_state. run_boosts. eexists. reflexivity. }
      destruct Hrun as [b1 ->]. cbn [fst snd]. split; [| split].
      * split; reflexivity.
      * reflexivity.
      * intros Hl. pose proof (boosts_runFrom_terminals c later
          {| isChannel := true; isMegagroup := false; peerId := p;
             _requestId := 0; _boostStatus := b1; inFlight := [];
             nextRequestId := n + 1 + 1 |}) as H.
        cbn [inFlight waiting] in H. lia.
    + intros result boosts error later.
      assert (Hrun : ∃ b1,
        runFrom
          {| isChannel := true; isMegagroup := false; peerId := p;
             _requestId := 0; _boostStatus := b; inFlight := [];
             nextRequestId := n |}
          [Subscribe c; StatusDone n result; ListDone (n + 1) boosts;
           Fail (n + 1 + 1) error]
        = ({| isChannel := true; isMegagroup := false; peerId := p;
              _requestId := 0; _boostStatus := b1; inFlight := [];
              nextRequestId := n + 1 + 1 + 1 |},
           [SendGetBoostsStatus n;
            SendGetBoostsList (n + 1) false "" kFirstSlice;
            ProcessUsers (vusers boosts);
            SendGetBoostsList (n + 1 + 1) true "" kFirstSlice])).
      { unfold request. run_boosts.
        unfold onStatusDone, BoostsRequest.requestBoosts. run_boosts.
        unfold onListDone, BoostsRequest.callDone,
          BoostsRequest.requestBoosts. run_boosts.
        normal_state. run_boosts. eexists. reflexivity. }
      destruct Hrun as [b1 ->]. cbn [fst snd]. split; [| split].
      * split; reflexivity.
      * reflexivity.
      * intros Hl. pose proof (boosts_runFrom_terminals c later
          {| isChannel := true; isMegagroup := false; peerId := p;
             _requestId := 0; _boostStatus := b1; inFlight := [];
             nextRequestId := n + 1 + 1 + 1 |}) as H.
        cbn [inFlight waiting] in H. lia.
Qed.

(** X15: the slice the done handler of requestBoosts delivers has one boost
    for each boost of the answer, in order; its total is the count of the
    answer; it is the last page exactly when that count is the number of
    boosts of this answer; its token carries the next offset, or the empty
    one, and the gifts flag asked with.  The months of a boost are the
    whole periods of 30 days in the int difference of its expiry and its
    date, cut toward zero, and that difference is the exact one whenever
    the exact one fits an int; and a boost has a gift code link exactly
    when the answer carries a slug for it, also an empty one. *)
Theorem requestBoosts_slice (peer : Forwards.PeerId) (gifts : bool)
    (data : MTPpremium_BoostsList) :
  let slice := decodeList peer gifts data in
  length (list_ slice) = length (vboosts data)
  ∧ multipliedTotal slice = vcount data
  ∧ (allLoaded slice = true ↔ vcount data = Z.of_nat (length (vboosts data)))
  ∧ BoostsRequest.gifts (token slice) = gifts
  ∧ next (token slice) = default ""%string (vnext_offset data)
  ∧ ∀ (i : nat) (tl : MTPBoost),
      nth_error (vboosts data) i = Some tl →
      ∃ boost,
        nth_error (list_ slice) i = Some boost
        ∧ boost = decodeBoost peer tl
        ∧ (let m := expiresAfterMonths boost in
           let d := Values.int_sub (vexpires tl) (vdate tl) in
           Z.abs m * kMonthsDivider ≤ Z.abs d
           ∧ Z.abs d < (Z.abs m + 1) * kMonthsDivider
           ∧ (0 ≤ d → 0 ≤ m) ∧ (d ≤ 0 → m ≤ 0)
           ∧ (Boosts.INT_MIN ≤ vexpires tl - vdate tl ≤ Boosts.INT_MAX →
              d = vexpires tl - vdate tl))
        ∧ match vused_gift_slug tl with
          | Some sl =>
              giftCodeLink boost
              = {| text := createInternalLink ("giftcode/" ++ sl);
                   link := createInternalLinkFull ("giftcode/" ++ sl);
                   slug := sl |}
          | None => giftCodeLink boost = noGiftCodeLink
          end.
Proof.
  cbv zeta. unfold BoostsRequest.decodeList.
  cbn [list_ multipliedTotal allLoaded token BoostsRequest.gifts next].
  split; [apply length_map |]. split; [reflexivity |].
  split; [apply Z.eqb_eq |]. split; [reflexivity |]. split; [reflexivity |].
  intros i tl Hi. exists (decodeBoost peer tl).
  split; [now rewrite nth_error_map, Hi |]. split; [reflexivity |]. split.
  - cbn [BoostsRequest.decodeBoost expiresAfterMonths].
    unfold kMonthsDivider.
    pose proof (Z.quot_rem' (Values.int_sub (vexpires tl) (vdate tl))
                  (30 * 86400)) as Hq.
    pose proof (Z.rem_bound_abs (Values.int_sub (vexpires tl) (vdate tl))
                  (30 * 86400)) as Hb.
    assert (Hfit : Boosts.INT_MIN ≤ vexpires tl - vdate tl ≤ Boosts.INT_MAX →
                   Values.int_sub (vexpires tl) (vdate tl)
                   = vexpires tl - vdate tl).
    { unfold Boosts.INT_MIN, Boosts.INT_MAX. intros Hr.
      apply int_wrap_small. lia. }
    set (d := Values.int_sub (vexpires tl) (vdate tl)) in *.
    set (q := d ÷ (30 * 86400)) in *.
    assert (0 ≤ d → 0 ≤ q) by (intros; apply Z.quot_pos; lia).
    assert (d ≤ 0 → q ≤ 0).
    { intros. subst q. rewrite <- (Z.opp_involutive d), Z.quot_opp_l by lia.
      assert (0 ≤ (- d) ÷ (30 * 86400)) by (apply Z.quot_pos; lia). lia. }
    assert (Hr : Z.abs (Z.rem d (30 * 86400)) < 30 * 86400)
      by (pose proof (Hb ltac:(lia)); lia).
    assert (Hs : 0 ≤ d → 0 ≤ Z.rem d (30 * 86400))
      by (intros; apply Z.rem_nonneg; lia).
    assert (Hs' : d ≤ 0 → Z.rem d (30 * 86400) ≤ 0)
      by (intros; apply Z.rem_nonpos; lia).
    split_and!; first [lia | exact Hfit].
  - cbn [BoostsRequest.decodeBoost giftCodeLink].
    destruct (vused_gift_slug tl) as [sl|]; reflexivity.
Qed.

Lemma boosts_removeRequest_absent (id : RequestId)
    (l : list (RequestId * Handler)) :
  id ∉ map fst l → removeRequest id l = l.
Proof.
  induction l as [|[i h] l IH]; [reflexivity |]. cbn. intros H.
  destruct (id =? i) eqn:E.
  - apply Z.eqb_eq in E. subst. exfalso. apply H, list_elem_of_here.
  - f_equal. apply IH. intros Hin. apply H. now apply list_elem_of_further.
Qed.

Lemma boosts_elem_of_removeRequest (id i : RequestId)
    (l : list (RequestId * Handler)) :
  i ∈ map fst (removeRequest id l) → i ∈ map fst l.
Proof.
  induction l as [|[j h] l IH]; [auto |]. cbn.
  destruct (id =? j); cbn; intros H.
  - apply list_elem_of_further. auto.
  - apply elem_of_cons in H as [->|H];
      [apply list_elem_of_here | apply list_elem_of_further; auto].
Qed.

Lemma boosts_NoDup_removeRequest (id : RequestId) (l : list (RequestId * Handler)) :
  NoDup (map fst l) → NoDup (map fst (removeRequest id l)).
Proof.
  induction l as [|[j h] l IH]; [auto |]. cbn. intros H.
  apply NoDup_cons in H as [Hj H]. destruct (id =? j); cbn; [auto |].
  apply NoDup_cons. split; [| auto].
  intros Hin. apply Hj. eapply boosts_elem_of_removeRequest, Hin.
Qed.

Lemma boosts_Forall_removeRequest (P : RequestId * Handler → Prop) (id : RequestId)
    (l : list (RequestId * Handler)) :
  Forall P l → Forall P (removeRequest id l).
Proof.
  induction 1 as [|[j h] l Hp Hl IH]; cbn; [constructor |].
  destruct (id =? j); [exact IH | now constructor].
Qed.

Lemma boosts_findRequest_elem_of (id : RequestId) (h : Handler)
    (l : list (RequestId * Handler)) :
  findRequest id l = Some h → (id, h) ∈ l.
Proof.
  induction l as [|[i h'] l IH]; [discriminate |]. cbn.
  destruct (id =? i) eqn:E.
  - apply Z.eqb_eq in E. intros [= ->]. subst. apply list_elem_of_here.
  - intros H. apply list_elem_of_further. auto.
Qed.

Lemma listIds_remove_status (id : RequestId) c
    (l : list (RequestId * Handler)) :
  NoDup (map fst l) → findRequest id l = Some (StatusHandler c) →
  listIds (removeRequest id l) = listIds l.
Proof.
  unfold listIds.
  induction l as [|[i h] l IH]; [discriminate |]. cbn. intros Hnd.
  apply NoDup_cons in Hnd as [Hi Hnd]. destruct (id =? i) eqn:E.
  - apply Z.eqb_eq in E. subst. intros [= ->].
    now rewrite boosts_removeRequest_absent.
  - intros Hf. cbn. destruct (isListRequest (i, h)); cbn; rewrite IH; auto.
Qed.

Lemma listIds_remove_list (id rid : RequestId) g d
    (l : list (RequestId * Handler)) :
  NoDup (map fst l) → findRequest id l = Some (ListHandler g d) →
  listIds l = [rid] →
  id = rid ∧ listIds (removeRequest id l) = [].
Proof.
  unfold listIds.
  induction l as [|[i h] l IH]; [discriminate |]. cbn. intros Hnd.
  apply NoDup_cons in Hnd as [Hi Hnd]. destruct (id =? i) eqn:E.
  - apply Z.eqb_eq in E. subst. intros [= ->]. cbn. intros [= -> Hl].
    rewrite boosts_removeRequest_absent by exact Hi. auto.
  - intros Hf. destruct h as [c|g' d']; cbn.
    + auto.
    + intros [= -> Hl]. apply boosts_findRequest_elem_of in Hf.
      assert (id ∈ map fst (List.filter isListRequest l)) as Hin.
      { apply list_elem_of_fmap. exists (id, ListHandler g d).
        split; [reflexivity |]. apply list_elem_of_In, filter_In.
        split; [now apply list_elem_of_In | reflexivity]. }
      rewrite Hl in Hin. inversion Hin.
Qed.

Lemma singleList_send_status c s :
  singleList s → singleList (send (StatusHandler c) s).
Proof.
  intros (Hn & Hlt & Hnd & Hl). unfold singleList, send, listIds in *.
  cbn [nextRequestId inFlight _requestId]. split_and!.
  - lia.
  - apply Forall_app. split.
    + eapply List.Forall_impl; [| exact Hlt]. cbn. intros. lia.
    + constructor; [cbn; lia | constructor].
  - rewrite map_app. cbn. apply NoDup_app. split_and!; [exact Hnd | |].
    + intros i Hi Hin. apply list_elem_of_singleton in Hin. subst i.
      apply list_elem_of_fmap in Hi as ([j h'] & ? & Hi). cbn in *. subst j.
      rewrite Forall_forall in Hlt. specialize (Hlt _ Hi). cbn in Hlt. lia.
    + apply NoDup_singleton.
  - rewrite List.filter_app, map_app. cbn. now rewrite app_nil_r.
Qed.

Lemma singleList_requestBoosts (token : OffsetToken) (done : Done) s :
  singleList s → singleList (requestBoosts token done s).1.
Proof.
  intros Hs. unfold BoostsRequest.requestBoosts.
  destruct (_requestId s =? 0) eqn:E; cbn [negb fst]; [| exact Hs].
  destruct Hs as (Hn & Hlt & Hnd & Hl). rewrite E in Hl.
  unfold singleList, setRequestId, send, listIds in *.
  cbn [nextRequestId inFlight _requestId]. split_and!.
  - lia.
  - apply Forall_app. split.
    + eapply List.Forall_impl; [| exact Hlt]. cbn. intros. lia.
    + constructor; [cbn; lia | constructor].
  - rewrite map_app. cbn. apply NoDup_app. split_and!; [exact Hnd | |].
    + intros i Hi Hin. apply list_elem_of_singleton in Hin. subst i.
      apply list_elem_of_fmap in Hi as ([j h'] & ? & Hi). cbn in *. subst j.
      rewrite Forall_forall in Hlt. specialize (Hlt _ Hi). cbn in Hlt. lia.
    + apply NoDup_singleton.
  - rewrite List.filter_app, map_app, Hl. cbn.
    destruct (nextRequestId s =? 0) eqn:E'; [| reflexivity].
    apply Z.eqb_eq in E'. lia.
Qed.

Lemma singleList_setStatus (b : BoostStatus) s :
  singleList s → singleList (setStatus b s).
Proof. auto. Qed.

Lemma singleList_answered_status (id : RequestId) c s :
  singleList s → findRequest id (inFlight s) = Some (StatusHandler c) →
  singleList (answered id s).
Proof.
  intros (Hn & Hlt & Hnd & Hl) Hf. unfold singleList, answered.
  cbn [nextRequestId inFlight _requestId]. split_and!.
  - exact Hn.
  - now apply boosts_Forall_removeRequest.
  - now apply boosts_NoDup_removeRequest.
  - rewrite (listIds_remove_status id c _ Hnd Hf). exact Hl.
Qed.

Lemma singleList_answered_list (id : RequestId) g d s :
  singleList s → findRequest id (inFlight s) = Some (ListHandler g d) →
  singleList (setRequestId 0 (answered id s)).
Proof.
  intros (Hn & Hlt & Hnd & Hl) Hf. unfold singleList, setRequestId, answered.
  cbn [nextRequestId inFlight _requestId]. split_and!.
  - exact Hn.
  - now apply boosts_Forall_removeRequest.
  - now apply boosts_NoDup_removeRequest.
  - cbn [Z.eqb]. destruct (_requestId s =? 0).
    + apply boosts_findRequest_elem_of in Hf.
      assert (id ∈ listIds (inFlight s)) as Hin.
      { apply list_elem_of_fmap. exists (id, ListHandler g d).
        split; [reflexivity |]. apply list_elem_of_In, filter_In.
        split; [now apply list_elem_of_In | reflexivity]. }
      rewrite Hl in Hin. inversion Hin.
    + now destruct (listIds_remove_list id _ g d _ Hnd Hf Hl) as [_ ->].
Qed.

Lemma singleList_step s (e : Event) : singleList s → singleList (step s e).1.
Proof.
  intros Hs. destruct e as [c|token k|id result|id result|id error];
    cbn [BoostsRequest.step].
  - unfold request. destruct (negb (isChannel s) || isMegagroup s);
      cbn [fst]; [exact Hs | now apply singleList_send_status].
  - now apply singleList_requestBoosts.
  - destruct (findRequest id (inFlight s)) as [[c|g d]|] eqn:Hf;
      try exact Hs.
    unfold onStatusDone. apply singleList_requestBoosts, singleList_setStatus.
    eapply singleList_answered_status; eauto.
  - destruct (findRequest id (inFlight s)) as [[c|g d]|] eqn:Hf;
      try exact Hs.
    unfold onListDone.
    pose proof (singleList_answered_list id g d s Hs Hf) as H1.
    destruct d as [c|c|k]; cbn [BoostsRequest.callDone].
    + match goal with
      | |- context [requestBoosts ?t ?d ?s0] =>
          pose proof (singleList_requestBoosts t d s0) as H2;
          destruct (requestBoosts t d s0) as [s2 out]
      end.
      cbn [fst] in *. apply H2. apply singleList_setStatus, H1.
    + cbn [fst]. apply singleList_setStatus, H1.
    + cbn [fst]. exact H1.
  - destruct (findRequest id (inFlight s)) as [[c|g d]|] eqn:Hf;
      try exact Hs.
    + unfold onStatusFail. cbn [fst].
      eapply singleList_answered_status; eauto.
    + unfold onListFail. cbn [fst].
      eapply singleList_answered_list; eauto.
Qed.

Lemma singleList_runFrom (evs : list Event) s :
  singleList s → singleList (runFrom s evs).1.
Proof.
  revert s. induction evs as [|e evs IH]; intros s Hs; [exact Hs |].
  cbn [BoostsRequest.runFrom]. pose proof (singleList_step s e Hs) as H1.
  destruct (step s e) as [s1 o1]. cbn [fst] in H1.
  specialize (IH s1 H1). now destruct (runFrom s1 evs).
Qed.

(** X16: a Boosts object that starts with nothing in flight and request
    ids above zero never has two list requests in flight, whatever
    subscriptions, page requests and answers follow: the only list request
    in flight is the one [_requestId] names, and there is none when it is
    zero; and a call of requestBoosts while one is in flight sends nothing
    and drops its callback. *)
Theorem requestBoosts_single_flight (evs : list Event) s :
  idle s → 0 < nextRequestId s →
  let s' := (runFrom s evs).1 in
  listIds (inFlight s')
  = (if _requestId s' =? 0 then [] else [_requestId s'])
  ∧ (∀ token done,
       _requestId s' ≠ 0 → requestBoosts token done s' = (s', [])).
Proof.
  intros [Hl Hr] Hn. cbv zeta.
  destruct (singleList_runFrom evs s) as (_ & _ & _ & H).
  { unfold singleList. rewrite Hl, Hr. cbn.
    split_and!; [exact Hn | constructor | apply NoDup_nil_2 | reflexivity]. }
  split; [exact H |]. intros token done Hne.
  unfold BoostsRequest.requestBoosts. apply Z.eqb_neq in Hne.
  now rewrite Hne.
Qed.

End BoostsRequestFacts.

(** ** Worked runs *)

(** C1 as it is worded fails on three runs of an object for a message.  In
    the first, two calls of request overlap and every request is answered
    with success: the page request of the second call meets the guard of
    PublicForwards::request while the page of the first is in flight, and
    the second [done] is never called.  In the second, the statistics and
    the counters arrive and the page request fails: [done] is not called
    while nothing is left in flight.  In the third, the second call is
    answered faster than the first, which was made while nothing was in
    flight: the page request of the first call meets the guard, and the
    first [done] is never called although every request succeeds. *)
Lemma MessageStatistics_request_not_once :
  let target := {| Forwards.peer := 10; Forwards.msg := 20 |} in
  let graph := Values.statsGraphAsync "token" in
  let m :=
    {| Forwards.IdFromMessage := 20; Forwards.PeerFromMessage := 10;
       Forwards.DateFromMessage := 1700000000;
       Forwards.body := Forwards.message (Some 100) (Some 7) (Some [3; 4]) |} in
  let counters :=
    MessageStats.Other
      (Forwards.MessagesAnswer (λ _, true) (Forwards.messages_messages [m])) in
  let page :=
    MessageStats.Other
      (Forwards.MessagesAnswer (λ _, true)
         (Forwards.messages_channelMessages 7 [])) in
  match
    MessageStats.runFrom (MessageStats.ofMessage false target)
      [MessageStats.Request 0%nat;
       MessageStats.Request 1%nat;
       MessageStats.Answered 1 (MessageStats.StatsAnswer graph graph);
       MessageStats.Answered 2 (MessageStats.StatsAnswer graph graph);
       MessageStats.Answered 3 counters;
       MessageStats.Answered 4 counters;
       MessageStats.Answered 5 page]
  with
  | Some (s', out) =>
      MessageStats.callsOf 0%nat out = 1%nat
      ∧ MessageStats.callsOf 1%nat out = 0%nat
      ∧ MessageStats.waiting 1%nat s' = 0%nat
  | None => False
  end
  ∧ match
      MessageStats.runFrom (MessageStats.ofMessage false target)
        [MessageStats.Request 0%nat;
         MessageStats.Answered 1 (MessageStats.StatsAnswer graph graph);
         MessageStats.Answered 2 counters;
         MessageStats.Answered 3 (MessageStats.Other Forwards.Failure)]
    with
    | Some (s', out) =>
        out = []
        ∧ MessageStats.inFlight s' = []
        ∧ Forwards.inFlight MessageStats.Callback
            (MessageStats._publicForwards s') = []
        ∧ MessageStats.waiting 0%nat s' = 0%nat
    | None => False
    end
  ∧ match
      MessageStats.runFrom (MessageStats.ofMessage false target)
        [MessageStats.Request 0%nat;
         MessageStats.Request 1%nat;
         MessageStats.Answered 2 (MessageStats.StatsAnswer graph graph);
         MessageStats.Answered 3 counters;
         MessageStats.Answered 1 (MessageStats.StatsAnswer graph graph);
         MessageStats.Answered 5 counters;
         MessageStats.Answered 4 page]
    with
    | Some (s', out) =>
        MessageStats.callsOf 0%nat out = 0%nat
        ∧ MessageStats.callsOf 1%nat out = 1%nat
        ∧ MessageStats.waiting 0%nat s' = 0%nat
        ∧ MessageStats.idle s'
    | None => False
    end.
Proof. vm_compute. auto 10. Qed.

Lemma MessageStatistics_request_done_witness :
  let s :=
    MessageStats.ofMessage false {| Forwards.peer := 10; Forwards.msg := 20 |} in
  let page := Forwards.messages_channelMessages 7 [] in
  MessageStats.isMegagroup s = false
  ∧ MessageStats.idle s
  ∧ MessageStats.messageTarget s
  ∧ MessageStats.infoOfMessages None = Some MessageStats.emptyInfo
  ∧ ∃ s',
      MessageStats.runFrom s
        [MessageStats.Request 0%nat;
         MessageStats.Answered (MessageStats.nextRequestId s)
           (MessageStats.statsAnswer None);
         MessageStats.Answered (MessageStats.nextRequestId s + 1)
           (MessageStats.messagesAnswer None);
         MessageStats.Answered (MessageStats.nextRequestId s + 1 + 1)
           (MessageStats.Other (Forwards.MessagesAnswer (λ _, true) page))]
      = Some (s',
              [MessageStats.CallDone 0%nat
                 (MessageStats.unified
                    (fst (MessageStats.graphsOf None))
                    (snd (MessageStats.graphsOf None))
                    MessageStats.emptyInfo
                    (Z.max
                       (Forwards._lastTotal MessageStats.Callback
                          (MessageStats._publicForwards s))
                       (Forwards.fullCountOf (λ _, true) page)))])
      ∧ MessageStats.isMegagroup s' = false
      ∧ MessageStats.idle s'
      ∧ MessageStats.messageTarget s'.
Proof.
  cbv zeta.
  assert (MessageStats.idle
            (MessageStats.ofMessage false
               {| Forwards.peer := 10; Forwards.msg := 20 |})) as Hidle
    by (repeat split).
  assert (MessageStats.messageTarget
            (MessageStats.ofMessage false
               {| Forwards.peer := 10; Forwards.msg := 20 |})) as Htarget
    by (repeat split).
  split_and!; try assumption; try reflexivity.
  exact (proj1 (proj2 (proj2 MessageStatistics_request_done))
           (MessageStats.ofMessage false
              {| Forwards.peer := 10; Forwards.msg := 20 |})
           0%nat None None MessageStats.emptyInfo (λ _, true)
           (Forwards.messages_channelMessages 7 [])
           eq_refl Hidle Htarget eq_refl).
Defined.

Lemma makeRequest_tracking_witness :
  let s := Sender.init in
  let made := Sender.makeRequest (λ dcId shift, dcId + 10000 * shift) 7 in
  (made 41 0 s).1.1 = s
  ∧ (made 41 0 s).1.2 = []
  ∧ Sender.toDC (made 41 0 s).2 = 0
  ∧ Sender._timerActive (made 41 2 s).1.1 = true
  ∧ Sender.toDC (made 41 2 s).2 = 2 + 10000 * 7
  ∧ Sender.UnregisterStatsRequest 2 41
      ∉ (Sender.runOps (λ dcId shift, dcId + 10000 * shift) 7
           [Sender.Make 42 2; Sender.Sweep (λ _, false)] (made 41 0 s).1.1).2.
Proof.
  cbv zeta.
  pose proof (makeRequest_tracking (λ dcId shift, dcId + 10000 * shift) 7
                Sender.init 41 0) as (_ & _ & _ & _ & _ & H0).
  pose proof (makeRequest_tracking (λ dcId shift, dcId + 10000 * shift) 7
                Sender.init 41 2) as (_ & _ & _ & _ & H2 & _).
  destruct (H0 eq_refl) as (E1 & E2 & E3 & E6).
  destruct H2 as (E4 & E5); [discriminate |].
  split_and!; try assumption.
  apply (E6 (λ dc '(ex_intro _ ids (conj H _)),
               eq_ind None (λ o, if o is Some _ then False else True) I _ H)
            [Sender.Make 42 2; Sender.Sweep (λ _, false)] 2).
  cbn. intros H. apply list_elem_of_singleton in H. discriminate.
Defined.

(** The first page of the forwards of a message, asked with the empty
    token and answered with the channel-scoped shape, count 7 and seven
    forwards of loaded peers: one slice with total 7, all loaded, seven
    entries, and the last forward as the offset of the next token. *)
Example first_page_of_seven :
  let target :=
    {| Forwards.messageId := {| Forwards.peer := 10; Forwards.msg := 20 |};
       Forwards.storyId := Forwards.noStoryId |} in
  let forward (n : Z) :=
    {| Forwards.IdFromMessage := 100 + n; Forwards.PeerFromMessage := 50 + n;
       Forwards.DateFromMessage := 1700000000;
       Forwards.body := Forwards.message None None None |} in
  let page :=
    Forwards.messages_channelMessages 7
      (map forward [1; 2; 3; 4; 5; 6; 7]) in
  match
    Forwards.handle nat 1 (Forwards.MessagesAnswer (λ _, true) page)
      (Forwards.request nat 1 Forwards.emptyToken 0%nat
         (Forwards.init nat target))
  with
  | (s', [Forwards.Deliver _ _ slice]) =>
      Forwards.total slice = 7
      ∧ Forwards.allLoaded slice = true
      ∧ length (Forwards.list_ slice) = 7%nat
      ∧ Forwards.fullId (Forwards.token slice)
        = {| Forwards.peer := 57; Forwards.msg := 107 |}
      ∧ Forwards._requestId nat s' = 0
  | _ => False
  end.
Proof. vm_compute. auto. Qed.

(** A sender makes two requests to shard 2, is swept while the second is
    still pending, makes one request with shard id zero and one to shard
    5, and is destroyed: three registrations, the start of the timer and
    three unregistrations. *)
Lemma sender_ledger_balance_witness :
  let ops :=
    [Sender.Make 1 2; Sender.Make 2 2; Sender.Sweep (λ id, id =? 2);
     Sender.Make 3 0; Sender.Make 4 5] in
  let trace := Sender.lifetime (λ dcId shift, dcId + 10000 * shift) 7 ops in
  NoDup (Sender.madeIds ops)
  ∧ length trace = 7%nat
  ∧ length (filter (λ e, Sender.isUnregister e = true) trace) = 3%nat
  ∧ NoDup (filter (λ e, Sender.isUnregister e = true) trace).
Proof.
  cbv zeta.
  assert (NoDup (Sender.madeIds
            [Sender.Make 1 2; Sender.Make 2 2; Sender.Sweep (λ id, id =? 2);
             Sender.Make 3 0; Sender.Make 4 5])) as Hnd.
  { cbn.
    repeat (apply NoDup_cons_2; [rewrite ?elem_of_cons, elem_of_nil; lia |]).
    apply NoDup_nil_2. }
  split; [exact Hnd |]. split; [vm_compute; reflexivity |].
  split; [vm_compute; reflexivity |].
  apply (sender_ledger_balance (λ dcId shift, dcId + 10000 * shift) 7 _ Hnd).
Defined.

(** Two consumers subscribe to the statistics of a channel, the request of
    the first fails, and the first subscribes again. *)
Lemma Statistics_request_one_terminal_witness :
  let s := StatsRequest.init false in
  let evs :=
    [StatsRequest.Subscribe 0%nat; StatsRequest.Subscribe 1%nat;
     StatsRequest.Fail 1 "FLOOD"; StatsRequest.Subscribe 0%nat] in
  StatsRequest.inFlight s = []
  ∧ (StatsRequest.terminals 0 (StatsRequest.runFrom s evs).2
     + StatsRequest.waiting 0
         (StatsRequest.inFlight (StatsRequest.runFrom s evs).1))%nat
    = StatsRequest.subscriptions 0%nat evs.
Proof.
  cbv zeta. split; [reflexivity |].
  apply (Statistics_request_one_terminal 0%nat _ (StatsRequest.init false)).
  reflexivity.
Defined.

(** A partial slice of three forwards, the second without a date, asked
    with rate 5 and answered with next rate 7. *)
Lemma requestMessage_page_witness :
  let target :=
    {| Forwards.messageId := {| Forwards.peer := 3; Forwards.msg := 4 |};
       Forwards.storyId := Forwards.noStoryId |} in
  let token :=
    {| Forwards.rate := 5; Forwards.fullId := Forwards.noMsgId;
       Forwards.storyOffset := "" |} in
  let forward (id peer date : Z) :=
    {| Forwards.IdFromMessage := id; Forwards.PeerFromMessage := peer;
       Forwards.DateFromMessage := date;
       Forwards.body := Forwards.messageEmpty |} in
  let result :=
    Forwards.messages_messagesSlice (Some 7) 9
      [forward 11 21 100; forward 12 22 0; forward 13 23 300] in
  let s := Forwards.request nat 1 token 0%nat (Forwards.init nat target) in
  ∃ slice,
    snd (Forwards.handle nat 1 (Forwards.MessagesAnswer (λ _, true) result) s)
    = [Forwards.Deliver nat 0%nat slice]
    ∧ Forwards.list_ slice
      = [Forwards.messagePost {| Forwards.peer := 21; Forwards.msg := 11 |};
         Forwards.messagePost {| Forwards.peer := 23; Forwards.msg := 13 |}]
    ∧ Forwards.fullId (Forwards.token slice)
      = {| Forwards.peer := 23; Forwards.msg := 13 |}
    ∧ Forwards.rate (Forwards.token slice) = 7.
Proof.
  cbv zeta.
  destruct (requestMessage_page (K := nat)
              (Forwards.request nat 1
                 {| Forwards.rate := 5; Forwards.fullId := Forwards.noMsgId;
                    Forwards.storyOffset := "" |} 0%nat
                 (Forwards.init nat
                    {| Forwards.messageId :=
                         {| Forwards.peer := 3; Forwards.msg := 4 |};
                       Forwards.storyId := Forwards.noStoryId |}))
              1 _ 0%nat (λ _, true)
              (Forwards.messages_messagesSlice (Some 7) 9
                 [ {| Forwards.IdFromMessage := 11;
                      Forwards.PeerFromMessage := 21;
                      Forwards.DateFromMessage := 100;
                      Forwards.body := Forwards.messageEmpty |};
                   {| Forwards.IdFromMessage := 12;
                      Forwards.PeerFromMessage := 22;
                      Forwards.DateFromMessage := 0;
                      Forwards.body := Forwards.messageEmpty |};
                   {| Forwards.IdFromMessage := 13;
                      Forwards.PeerFromMessage := 23;
                      Forwards.DateFromMessage := 300;
                      Forwards.body := Forwards.messageEmpty |} ])
              eq_refl)
    as (slice & H1 & H2 & _ & H3 & H4 & _).
  exists slice. split_and!; [exact H1 | exact H2 | exact H3 | exact H4].
Defined.

(** A story page with a story item and a deleted story, and a next
    offset. *)
Lemma requestStory_page_witness :
  let target :=
    {| Forwards.messageId := Forwards.noMsgId;
       Forwards.storyId :=
         {| Forwards.storyPeer := 3; Forwards.story := 4 |} |} in
  let data :=
    {| Forwards.vcount := 2;
       Forwards.vforwards :=
         [Forwards.publicForwardStory 8 (Forwards.storyItem 9 None);
          Forwards.publicForwardStory 8 Forwards.storyItemDeleted];
       Forwards.vnext_offset := Some "next"%string |} in
  let s :=
    Forwards.request nat 1 Forwards.emptyToken 0%nat
      (Forwards.init nat target) in
  ∃ slice,
    snd (Forwards.handle nat 1 (Forwards.StoryAnswer (λ _, true) data) s)
    = [Forwards.Deliver nat 0%nat slice]
    ∧ Forwards.list_ slice
      = [{| Forwards.messageId := Forwards.noMsgId;
            Forwards.storyId :=
              {| Forwards.storyPeer := 8; Forwards.story := 9 |} |}]
    ∧ Forwards.total slice = 2
    ∧ Forwards.allLoaded slice = false.
Proof.
  cbv zeta.
  destruct (requestStory_page (K := nat)
              (Forwards.request nat 1 Forwards.emptyToken 0%nat
                 (Forwards.init nat
                    {| Forwards.messageId := Forwards.noMsgId;
                       Forwards.storyId :=
                         {| Forwards.storyPeer := 3;
                            Forwards.story := 4 |} |}))
              1 _ 0%nat (λ _, true)
              {| Forwards.vcount := 2;
                 Forwards.vforwards :=
                   [Forwards.publicForwardStory 8 (Forwards.storyItem 9 None);
                    Forwards.publicForwardStory 8 Forwards.storyItemDeleted];
                 Forwards.vnext_offset := Some "next"%string |}
              eq_refl)
    as (slice & H1 & H2 & H3 & H4 & H5 & _).
  exists slice. split_and!; [exact H1 | exact H2 | exact H3 |].
  destruct (Forwards.allLoaded slice); [| reflexivity].
  destruct (proj1 H5 eq_refl) as [H|[H|H]]; discriminate H.
Defined.

(** Two calls of request in a row, the failure of the page of the first,
    and a third call: the second call is dropped, the third one is in
    flight. *)
Lemma PublicForwards_single_flight_witness :
  let target :=
    {| Forwards.messageId := {| Forwards.peer := 3; Forwards.msg := 4 |};
       Forwards.storyId := Forwards.noStoryId |} in
  let evs :=
    [Forwards.Request nat Forwards.emptyToken 0%nat;
     Forwards.Request nat Forwards.emptyToken 1%nat;
     Forwards.Answered nat 1 Forwards.Failure;
     Forwards.Request nat Forwards.emptyToken 2%nat] in
  let s :=
    fst (fst (Forwards.runFrom nat (Forwards.init nat target, 1) evs)) in
  0 < 1
  ∧ Forwards.singleFlight s
  ∧ Forwards.inFlight nat s
    = [(2, Forwards.MessageHandler nat Forwards.emptyToken 2%nat)].
Proof.
  cbv zeta. split; [lia |]. split; [| reflexivity].
  apply (PublicForwards_single_flight (K := nat)
           [Forwards.Request nat Forwards.emptyToken 0%nat;
            Forwards.Request nat Forwards.emptyToken 1%nat;
            Forwards.Answered nat 1 Forwards.Failure;
            Forwards.Request nat Forwards.emptyToken 2%nat]
           {| Forwards.messageId :=
                {| Forwards.peer := 3; Forwards.msg := 4 |};
              Forwards.storyId := Forwards.noStoryId |} 1).
  lia.
Defined.

(** A subscription to the boosts of a channel whose three requests are
    answered with success. *)
Lemma Boosts_request_done_witness :
  let s := BoostsRequest.init true false 77 in
  let result :=
    {| BoostsRequest.status :=
         {| Boosts.vmy_boost_slots := Some [1; 2];
            Boosts.vlevel := 3;
            Boosts.vboosts := 40;
            Boosts.vcurrent_level_boosts := 30;
            Boosts.vnext_level_boosts := Some 50;
            Boosts.vpremium_audience := None |};
       BoostsRequest.vboost_url := "t.me/boost";
       BoostsRequest.vprepaid_giveaways := None |} in
  let page :=
    {| BoostsRequest.vcount := 0; BoostsRequest.vboosts := [];
       BoostsRequest.vnext_offset := None; BoostsRequest.vusers := [] |} in
  let run :=
    BoostsRequest.runFrom (λ path, path) (λ path, path) 10 40 s
      [BoostsRequest.Subscribe 0%nat; BoostsRequest.StatusDone 1 result;
       BoostsRequest.ListDone 2 page; BoostsRequest.ListDone 3 page] in
  BoostsRequest.isChannel s = true
  ∧ BoostsRequest.isMegagroup s = false
  ∧ BoostsRequest.idle s
  ∧ run.2
    = [BoostsRequest.SendGetBoostsStatus 1;
       BoostsRequest.SendGetBoostsList 2 false "" 10;
       BoostsRequest.ProcessUsers [];
       BoostsRequest.SendGetBoostsList 3 true "" 10;
       BoostsRequest.ProcessUsers [];
       BoostsRequest.PutDone 0%nat]
  ∧ BoostsRequest.idle run.1.
Proof.
  cbv zeta.
  destruct (Boosts_request_done (λ path, path) (λ path, path) 10 40 0%nat
              (BoostsRequest.init true false 77)
              {| BoostsRequest.status :=
                   {| Boosts.vmy_boost_slots := Some [1; 2];
                      Boosts.vlevel := 3;
                      Boosts.vboosts := 40;
                      Boosts.vcurrent_level_boosts := 30;
                      Boosts.vnext_level_boosts := Some 50;
                      Boosts.vpremium_audience := None |};
                 BoostsRequest.vboost_url := "t.me/boost";
                 BoostsRequest.vprepaid_giveaways := None |}
              {| BoostsRequest.vcount := 0; BoostsRequest.vboosts := [];
                 BoostsRequest.vnext_offset := None;
                 BoostsRequest.vusers := [] |}
              {| BoostsRequest.vcount := 0; BoostsRequest.vboosts := [];
                 BoostsRequest.vnext_offset := None;
                 BoostsRequest.vusers := [] |}
              eq_refl eq_refl (conj eq_refl eq_refl))
    as (H1 & _ & H3).
  split; [reflexivity |]. split; [reflexivity |].
  split; [split; reflexivity |]. split; [exact H1 | exact H3].
Defined.

(** A caller asks for a page of boosts, a consumer subscribes, and another
    caller asks for a page of gifts while the first page is in flight. *)
Lemma requestBoosts_single_flight_witness :
  let s := BoostsRequest.init true false 77 in
  let evs :=
    [BoostsRequest.RequestBoosts
       {| BoostsRequest.next := ""; BoostsRequest.gifts := false |} 0%nat;
     BoostsRequest.Subscribe 0%nat;
     BoostsRequest.RequestBoosts
       {| BoostsRequest.next := ""; BoostsRequest.gifts := true |} 1%nat] in
  let s' :=
    (BoostsRequest.runFrom (λ path, path) (λ path, path) 10 40 s evs).1 in
  BoostsRequest.idle s
  ∧ 0 < BoostsRequest.nextRequestId s
  ∧ BoostsRequest.listIds (BoostsRequest.inFlight s') = [1]
  ∧ BoostsRequest._requestId s' = 1.
Proof.
  cbv zeta. split; [split; reflexivity |]. split; [reflexivity |].
  split; [| reflexivity].
  rewrite (proj1 (requestBoosts_single_flight (λ path, path) (λ path, path)
                    10 40 _ (BoostsRequest.init true false 77)
                    (conj eq_refl eq_refl) eq_refl)).
  reflexivity.
Defined.

(** A boost dated one second before the epoch that expires at the last
    second of an int: the difference of the two ints wraps around, and the
    months are negative. *)
Example months_of_wrapped_difference :
  BoostsRequest.expiresAfterMonths
    (BoostsRequest.decodeBoost (λ path, path) (λ path, path) 77
       {| BoostsRequest.is_gift := false;
          BoostsRequest.is_giveaway := false;
          BoostsRequest.is_unclaimed := false;
          BoostsRequest.vid := "boost";
          BoostsRequest.vuser_id := None;
          BoostsRequest.vgiveaway_msg_id := None;
          BoostsRequest.vdate := -1;
          BoostsRequest.vexpires := 2147483647;
          BoostsRequest.vused_gift_slug := None;
          BoostsRequest.vmultiplier := None |})
  = -828.
Proof. reflexivity. Qed.

(** The counters of a message whose reactions sum past the last int, and
    the private forwards of a result whose difference does: both wrap
    around. *)
Example counters_wrap_around :
  MessageStats.reactionsCount
    <$> MessageStats.processCounters
          [{| Forwards.IdFromMessage := 20; Forwards.PeerFromMessage := 10;
              Forwards.DateFromMessage := 1700000000;
              Forwards.body :=
                Forwards.message None None (Some [2147483647; 1]) |}]
  = Some (-2147483648)
  ∧ MessageStats.privateForwards
      (MessageStats.unified Values.emptyGraph Values.emptyGraph
         {| MessageStats.messageId := 0; MessageStats.storyId := 0;
            MessageStats.viewsCount := 0;
            MessageStats.forwardsCount := -2147483648;
            MessageStats.reactionsCount := 0 |} 1)
    = 2147483647.
Proof. split; reflexivity. Qed.
